(** * A two-pass assembler for SimpleRisc, with modifier variants

    Shallow embedding of
    [Computer_Organization_and_Architecture/simple_risc_assembler_with_modifiers.py]
    and the properties of its bit-field codec, its line parser, its
    symbol-table pass and its encoding pass.

    Conventions of the embedding.
    - A Python [str] is a [string]; one [ascii] stands for one code point
      below 256, so the character classes of [str.strip], [str.isdigit]
      and the [re] module are the ones Python uses on that range. A
      source text with a code point above 255 is outside the embedding:
      there [str.isdigit] holds for more characters that [int] rejects.
    - A Python [int] is a [Z]; list lengths, list indices and bit widths
      (always the literals 16 and 27 in the source) are [nat].
    - [print] appends one line to an explicit [stdout] log.
    - The exceptions the builtins can raise ([IndexError], [ValueError],
      [TypeError], [KeyError]) are explicit results.

    The definitions of the assembler come first, each under the name and
    with the line numbers it has in the source; the vocabulary of the
    properties and the properties follow. *)

From Stdlib Require Import ZArith List Bool Lia Ascii String DecimalString Sorted.
Import ListNotations.

Open Scope string_scope.
Open Scope Z_scope.

(** ** Python string builtins *)

Module Py.

(** [c * n] for a one-character string [c]. *)
Fixpoint repeat_char (c : ascii) (n : nat) : string :=
  match n with
  | O => ""
  | S n' => String c (repeat_char c n')
  end.

(** [s[n:]] *)
Fixpoint slice_from (n : nat) (s : string) : string :=
  match n, s with
  | O, _ => s
  | S _, "" => ""
  | S n', String _ s' => slice_from n' s'
  end.

(** [s.startswith(c)] for a one-character prefix. *)
Definition startswith_char (c : ascii) (s : string) : bool :=
  match s with
  | String c' _ => Ascii.eqb c' c
  | "" => false
  end.

(** [s[-1]] when [s] is not empty. *)
Fixpoint last_char (s : string) : option ascii :=
  match s with
  | "" => None
  | String c "" => Some c
  | String _ s' => last_char s'
  end.

(** [c in s] for a one-character needle. *)
Fixpoint contains_char (c : ascii) (s : string) : bool :=
  match s with
  | "" => false
  | String c' s' => Ascii.eqb c' c || contains_char c s'
  end.

(** [s.split(c, 1)]: the text before the first [c] and, when there is
    one, the text after it. *)
Fixpoint split_once (c : ascii) (s : string) : string * option string :=
  match s with
  | "" => ("", None)
  | String c' s' =>
      if Ascii.eqb c' c then ("", Some s')
      else let (before, after) := split_once c s' in (String c' before, after)
  end.

(** [s.split(c)]: never empty, one more piece than there are [c]. *)
Fixpoint split (c : ascii) (s : string) : list string :=
  match s with
  | "" => [""]
  | String c' s' =>
      if Ascii.eqb c' c then "" :: split c s'
      else match split c s' with
           | piece :: pieces => String c' piece :: pieces
           | [] => [String c' ""]
           end
  end.

(** Characters for which [str.isspace] holds, which are also the ones
    [str.strip()] removes and [\s] matches. *)
Definition isspace (c : ascii) : bool :=
  let n := nat_of_ascii c in
  ((9 <=? n) && (n <=? 13) || (28 <=? n) && (n <=? 32)
   || (n =? 133) || (n =? 160))%nat.

Fixpoint lstrip (s : string) : string :=
  match s with
  | "" => ""
  | String c s' => if isspace c then lstrip s' else s
  end.

Fixpoint rstrip (s : string) : string :=
  match s with
  | "" => ""
  | String c s' =>
      match rstrip s' with
      | "" => if isspace c then "" else String c ""
      | kept => String c kept
      end
  end.

(** [s.strip()] *)
Definition strip (s : string) : string := rstrip (lstrip s).

(** The ASCII decimal digits: what [\d] matches below 256 and what
    [int] accepts as a digit. *)
Definition isdecimal_char (c : ascii) : bool :=
  let n := nat_of_ascii c in ((48 <=? n) && (n <=? 57))%nat.

(** Characters below 256 for which [str.isdigit] holds: the decimal
    digits and the superscript digits of Latin-1. *)
Definition isdigit_char (c : ascii) : bool :=
  let n := nat_of_ascii c in
  (isdecimal_char c || (n =? 178) || (n =? 179) || (n =? 185))%nat.

Fixpoint forallb_string (p : ascii -> bool) (s : string) : bool :=
  match s with
  | "" => true
  | String c s' => p c && forallb_string p s'
  end.

(** [s.isdigit()]: false on the empty string. *)
Definition isdigit (s : string) : bool :=
  match s with
  | "" => false
  | _ => forallb_string isdigit_char s
  end.

(** The lowercase ASCII letters, [[a-z]]. *)
Definition islower_az (c : ascii) : bool :=
  let n := nat_of_ascii c in ((97 <=? n) && (n <=? 122))%nat.

(** The longest prefix whose characters satisfy [p], and the rest. *)
Fixpoint span (p : ascii -> bool) (s : string) : string * string :=
  match s with
  | "" => ("", "")
  | String c s' =>
      if p c then let (taken, rest) := span p s' in (String c taken, rest)
      else ("", s)
  end.

(** Value of a run of decimal digits, most significant first. *)
Fixpoint decimal_value (acc : Z) (s : string) : Z :=
  match s with
  | "" => acc
  | String c s' => decimal_value (10 * acc + (Z.of_nat (nat_of_ascii c) - 48)) s'
  end.

(** [str(n)] and the [{n}] of an f-string, for an integer. *)
Definition str_of_Z (n : Z) : string := NilZero.string_of_int (Z.to_int n).

(** [bin(value)] *)
Fixpoint binary_digits (p : positive) (acc : string) : string :=
  match p with
  | xH => String "1" acc
  | xO p' => binary_digits p' (String "0" acc)
  | xI p' => binary_digits p' (String "1" acc)
  end.

Definition bin (value : Z) : string :=
  match value with
  | Z0 => "0b0"
  | Zpos p => "0b" ++ binary_digits p ""
  | Zneg p => "-0b" ++ binary_digits p ""
  end.

(** [s.zfill(width)]: zeros go after a leading sign. *)
Definition zfill (width : nat) (s : string) : string :=
  let n := String.length s in
  if (width <=? n)%nat then s
  else
    match s with
    | String c rest =>
        if Ascii.eqb c "+" || Ascii.eqb c "-"
        then String c (repeat_char "0" (width - n) ++ rest)
        else repeat_char "0" (width - n) ++ s
    | "" => repeat_char "0" width
    end.

End Py.

(** ** Exceptions and control flow of the loop body *)

Inductive exn := IndexError | ValueError | TypeError | KeyError.

(** What a fragment of the body of the encoding loop does: it goes on
    with a value, it prints a message, advances the address and
    [continue]s, or it raises. *)
Inductive control (A : Type) : Type :=
| Normal (a : A)
| Continue (message : string)
| Raise (e : exn).

Arguments Normal {A} a.
Arguments Continue {A} message.
Arguments Raise {A} e.

Definition bind {A B : Type} (m : control A) (k : A -> control B) : control B :=
  match m with
  | Normal a => k a
  | Continue message => Continue message
  | Raise e => Raise e
  end.

Notation "x <- m ;; k" := (bind m (fun x => k))
  (at level 61, m at next level, right associativity).

(** [sys.get_int_max_str_digits()] as CPython 3.11 starts with it:
    [int] refuses a decimal literal with more digits, leading zeros
    counted and the sign not. *)
Definition int_max_str_digits : nat := 4300.

(** [int(s)] on the literals that reach it in the source: an optional
    minus sign followed by characters that passed [isdigit] or the
    digits of line 191. Python raises [ValueError] unless at least one
    character follows the sign, all of them are decimal digits and there
    are no more of them than the interpreter's limit. *)
Definition py_int (s : string) : control Z :=
  let digits_of (t : string) (k : Z -> Z) : control Z :=
    match t with
    | EmptyString => Raise ValueError
    | _ => if Py.forallb_string Py.isdecimal_char t
           then if (String.length t <=? int_max_str_digits)%nat
                then Normal (k (Py.decimal_value 0 t))
                else Raise ValueError
           else Raise ValueError
    end in
  if Py.startswith_char "-" s then digits_of (Py.slice_from 1 s) Z.opp
  else digits_of s (fun v => v).

(** ** ISA tables *)

Definition dict (V : Type) : Type := list (string * V).

(** [d.get(k)] *)
Fixpoint dict_get {V : Type} (d : dict V) (k : string) : option V :=
  match d with
  | [] => None
  | (k', v) :: d' => if String.eqb k' k then Some v else dict_get d' k
  end.

(** [d[k] = v]: an existing key keeps its place, a new one goes last. *)
Fixpoint dict_set {V : Type} (d : dict V) (k : string) (v : V) : dict V :=
  match d with
  | [] => [(k, v)]
  | (k', v') :: d' =>
      if String.eqb k' k then (k', v) :: d' else (k', v') :: dict_set d' k v
  end.

Definition OPCODES : dict string :=
  [ ("add", "00000"); ("sub", "00001"); ("mul", "00010"); ("div", "00011"); ("mod", "00100");
    ("cmp", "00101"); ("and", "00110"); ("or", "00111"); ("not", "01000"); ("mov", "01001");
    ("addu", "00000"); ("subu", "00001"); ("mulu", "00010"); ("divu", "00011"); ("modu", "00100");
    ("cmpu", "00101"); ("andu", "00110"); ("oru", "00111"); ("notu", "01000"); ("movu", "01001");
    ("addh", "00000"); ("subh", "00001"); ("mulh", "00010"); ("divh", "00011"); ("modh", "00100");
    ("cmph", "00101"); ("andh", "00110"); ("orh", "00111"); ("noth", "01000"); ("movh", "01001");
    ("lsl", "01010"); ("lsr", "01011"); ("asr", "01100"); ("nop", "01101"); ("ld", "01110");
    ("st", "01111"); ("beq", "10000"); ("bgt", "10001"); ("b", "10010"); ("call", "10011");
    ("ret", "10100") ].

Definition MODIFIER_OPCODES : list string :=
  [ "addu"; "subu"; "mulu"; "divu"; "modu";
    "cmpu"; "andu"; "oru"; "notu"; "movu";
    "addh"; "subh"; "mulh"; "divh"; "modh";
    "cmph"; "andh"; "orh"; "noth"; "movh" ].

Definition REGISTERS : dict string :=
  [ ("r0", "0000"); ("r1", "0001"); ("r2", "0010"); ("r3", "0011");
    ("r4", "0100"); ("r5", "0101"); ("r6", "0110"); ("r7", "0111");
    ("r8", "1000"); ("r9", "1001"); ("r10", "1010"); ("r11", "1011");
    ("r12", "1100"); ("r13", "1101"); ("r14", "1110"); ("sp", "1110");
    ("r15", "1111"); ("ra", "1111") ].

(** [x in l] for a list or set of strings. *)
Definition in_list (x : string) (l : list string) : bool :=
  existsb (String.eqb x) l.

(** [REGISTERS.get(name, '0000')] *)
Definition register_bits (name : string) : string :=
  match dict_get REGISTERS name with
  | Some bits => bits
  | None => "0000"
  end.

(** ** Helper functions *)

(** [to_binary(value, bits, signed=False)] *)
Definition to_binary (value : Z) (bits : nat) (signed : bool) : string :=
  if signed then
    let value := if value <? 0 then Z.shiftl 1 (Z.of_nat bits) + value else value in
    Py.zfill bits (Py.slice_from 2 (Py.bin value))
  else
    Py.zfill bits (Py.slice_from 2 (Py.bin value)).

(** The [re.match] of line 75: a group of one or more letters a-z, any
    white space, and a group with the rest of the line. Every quantifier
    is greedy and the pattern is not anchored at the end, so the first
    attempt is the match. *)
Definition match_instruction (s : string) : option (string * string) :=
  let (group1, rest) := Py.span Py.islower_az s in
  match group1 with
  | EmptyString => None
  | _ =>
      let (_, rest) := Py.span Py.isspace rest in
      let (group2, _) := Py.span (fun c => negb (Ascii.eqb c "010")) rest in
      Some (group1, group2)
  end.

(** [s] up to its first closing bracket, as the lazy second group of
    line 191 followed by the bracket matches it: the dot does not cross
    a line feed. *)
Fixpoint until_bracket (s : string) : option string :=
  match s with
  | EmptyString => None
  | String c s' =>
      if Ascii.eqb c "]" then Some EmptyString
      else if Ascii.eqb c "010" then None
      else match until_bracket s' with
           | Some base => Some (String c base)
           | None => None
           end
  end.

(** The [re.match] of line 191: a group with an optional minus sign and
    any decimal digits, an opening bracket, a lazy group and a closing
    bracket. *)
Definition match_mem_operand (s : string) : option (string * string) :=
  let (sign, rest) :=
    if Py.startswith_char "-" s then ("-", Py.slice_from 1 s)
    else (EmptyString, s) in
  let (digits, rest) := Py.span Py.isdecimal_char rest in
  match rest with
  | String "[" rest =>
      match until_bracket rest with
      | Some group2 => Some (sign ++ digits, group2)
      | None => None
      end
  | _ => None
  end.

(** Truth value of a string that may be [None]. *)
Definition truthy (s : option string) : bool :=
  match s with
  | Some (String _ _) => true
  | _ => false
  end.

(** [o is not None] *)
Definition is_some {A : Type} (o : option A) : bool :=
  match o with
  | Some _ => true
  | None => false
  end.

(** [parse_line(line)]: label, mnemonic and operands. *)
Definition parse_line (line : string)
  : option string * option string * option (list string) :=
  let line := Py.strip line in
  if negb (truthy (Some line)) || Py.startswith_char ";" line then
    (None, None, None)
  else
    let instruction_part := Py.strip (fst (Py.split_once ";" line)) in
    let '(label, instruction_part) :=
      if Py.contains_char ":" instruction_part then
        match Py.split_once ":" instruction_part with
        | (label_part, Some instruction_part) =>
            (Some (Py.strip label_part), Py.strip instruction_part)
        | (_, None) => (None, instruction_part)
        end
      else (None, instruction_part) in
    if negb (truthy (Some instruction_part)) then (label, None, None)
    else
      match match_instruction instruction_part with
      | Some (mnemonic, group2) =>
          let operands_str := Py.strip group2 in
          let operands :=
            map Py.strip
              (filter (fun op => truthy (Some (Py.strip op)))
                 (Py.split "," operands_str)) in
          (label, Some mnemonic, Some operands)
      | None => (label, None, None)
      end.

(** ** The assembler *)

(** One element of [processed_lines]. *)
Record entry : Type := {
  line_num : nat;
  label : option string;
  mnemonic : option string;
  operands : option (list string);
  raw_line : string
}.

(** Lines 89-92: the loop over [enumerate(lines)] that fills
    [processed_lines], from line number [n] on. *)
Fixpoint process_lines (n : nat) (lines : list string) : list entry :=
  match lines with
  | [] => []
  | line :: lines' =>
      let '(label, mnemonic, operands) := parse_line line in
      if is_some mnemonic || is_some label then
        {| line_num := n; label := label; mnemonic := mnemonic;
           operands := operands; raw_line := line |}
        :: process_lines (S n) lines'
      else process_lines (S n) lines'
  end.

(** *** Pass 1: the label map *)

(** Lines 98-101: one iteration of the first loop, on the label map and
    the address counter. *)
Definition pass1_step (st : dict Z * Z) (e : entry) : dict Z * Z :=
  let (label_map, current_address) := st in
  let label_map :=
    match label e with
    | Some (String _ _ as l) => dict_set label_map l current_address
    | _ => label_map
    end in
  let current_address :=
    if truthy (mnemonic e) then current_address + 1 else current_address in
  (label_map, current_address).

(** The first loop, from a given label map and address. *)
Definition pass1_from (st : dict Z * Z) (entries : list entry) : dict Z * Z :=
  fold_left pass1_step entries st.

(** Lines 95-101: the first loop, from the empty map and address 0. *)
Definition pass1 (entries : list entry) : dict Z * Z :=
  pass1_from ([], 0) entries.

(** *** Pass 2: encoding *)

(** [operands[i]] *)
Definition operand_at (operands : option (list string)) (i : nat) : control string :=
  match operands with
  | None => Raise TypeError
  | Some l =>
      match nth_error l i with
      | Some operand => Normal operand
      | None => Raise IndexError
      end
  end.

(** [len(operands)] *)
Definition operands_len (operands : option (list string)) : control nat :=
  match operands with
  | None => Raise TypeError
  | Some l => Normal (List.length l)
  end.

(** [x.isdigit() or (x.startswith('-') and x[1:].isdigit())] *)
Definition is_immediate (x : string) : bool :=
  Py.isdigit x || (Py.startswith_char "-" x && Py.isdigit (Py.slice_from 1 x)).

(** The local variables of the immediate/register branch. *)
Record locals : Type := {
  I_bit : string;
  rd_bin : string;
  rs1_bin : string;
  immediate_val : option Z;
  assembled_instruction : option string
}.

(** ['0' * n] *)
Definition zeros (n : nat) : string := Py.repeat_char "0" n.

(** Lines 125-140: branch, call and return. *)
Definition encode_branch (label_map : dict Z) (current_address : Z)
  (mnemonic opcode : string) (operands : option (list string))
  (raw_line : string) : control (option string) :=
  offset_bin <-
    (if String.eqb mnemonic "ret" then Normal (to_binary 0 27 false)
     else
       target_label <- operand_at operands 0 ;;
       match dict_get label_map target_label with
       | None =>
           Continue ("Error: Undefined label '" ++ target_label
                     ++ "' on line: " ++ raw_line)
       | Some target_address =>
           let pc_next := current_address + 1 in
           let offset := target_address - pc_next in
           Normal (to_binary offset 27 true)
       end) ;;
  Normal (Some (opcode ++ offset_bin)).

(** The register-or-immediate last operand shared by lines 151-160,
    165-173 and 177-185; [rs1_field] is what the register form puts in
    the source-1 field. *)
Definition last_operand (opcode : string) (operands : option (list string))
  (i : nat) (rs1_field : string) (l : locals) : control locals :=
  n <- operands_len operands ;;
  if (i <? n)%nat then
    x <- operand_at operands i ;;
    if is_immediate x then
      v <- py_int x ;;
      Normal {| I_bit := "1"; rd_bin := rd_bin l; rs1_bin := rs1_bin l;
                immediate_val := Some v;
                assembled_instruction := assembled_instruction l |}
    else
      let rs2_bin := register_bits x in
      Normal {| I_bit := "0"; rd_bin := rd_bin l; rs1_bin := rs1_bin l;
                immediate_val := None;
                assembled_instruction :=
                  Some (opcode ++ "0" ++ rd_bin l ++ rs1_field ++ rs2_bin
                        ++ zeros 14) |}
  else Normal l.

(** The assignment [rd_bin = bits]. *)
Definition set_rd (l : locals) (bits : string) : locals :=
  {| I_bit := I_bit l; rd_bin := bits; rs1_bin := rs1_bin l;
     immediate_val := immediate_val l;
     assembled_instruction := assembled_instruction l |}.

(** The assignment [rs1_bin = bits]. *)
Definition set_rs1 (l : locals) (bits : string) : locals :=
  {| I_bit := I_bit l; rd_bin := rd_bin l; rs1_bin := bits;
     immediate_val := immediate_val l;
     assembled_instruction := assembled_instruction l |}.

(** Lines 149-160: [cmp rs1, rs2/imm]. *)
Definition operands_cmp (opcode : string) (operands : option (list string))
  (l : locals) : control locals :=
  x0 <- operand_at operands 0 ;;
  let l := set_rs1 l (register_bits x0) in
  last_operand opcode operands 1 (rs1_bin l) l.

(** Lines 162-173: [op rd, rs1, rs2/imm]. *)
Definition operands_arith (opcode : string) (operands : option (list string))
  (l : locals) : control locals :=
  x0 <- operand_at operands 0 ;;
  let l := set_rd l (register_bits x0) in
  x1 <- operand_at operands 1 ;;
  let l := set_rs1 l (register_bits x1) in
  last_operand opcode operands 2 (rs1_bin l) l.

(** Lines 175-185: [mov rd, rs2/imm] and [not rd, rs2/imm]. *)
Definition operands_mov (opcode : string) (operands : option (list string))
  (l : locals) : control locals :=
  x0 <- operand_at operands 0 ;;
  let l := set_rd l (register_bits x0) in
  last_operand opcode operands 1 "0000" l.

(** Lines 187-204: [ld rd, imm[rs1]] and [st rd, imm[rs1]]. *)
Definition operands_mem (operands : option (list string)) (raw_line : string)
  (l : locals) : control locals :=
  x0 <- operand_at operands 0 ;;
  let l := set_rd l (register_bits x0) in
  mem_operand <- operand_at operands 1 ;;
  match match_mem_operand mem_operand with
  | Some (offset_str, rs1_name) =>
      v <- (if truthy (Some offset_str) then py_int offset_str else Normal 0) ;;
      Normal {| I_bit := "1"; rd_bin := rd_bin l;
                rs1_bin := register_bits rs1_name;
                immediate_val := Some v;
                assembled_instruction := assembled_instruction l |}
  | None =>
      Continue ("Error: Invalid memory operand '" ++ mem_operand
                ++ "' on line: " ++ raw_line)
  end.

(** Lines 206-217: the immediate form, with its modifier bits. *)
Definition immediate_stage (mnemonic opcode : string) (l : locals) : option string :=
  match immediate_val l, assembled_instruction l with
  | Some immediate_val, None =>
      if String.eqb (I_bit l) "1" then
        let imm_bin := to_binary immediate_val 16 true in
        let imm_field :=
          if in_list mnemonic MODIFIER_OPCODES then
            if match Py.last_char mnemonic with
               | Some c => Ascii.eqb c "u"
               | None => false
               end
            then "01" ++ imm_bin
            else "10" ++ imm_bin
          else "00" ++ imm_bin in
        Some (opcode ++ I_bit l ++ rd_bin l ++ rs1_bin l ++ imm_field)
      else assembled_instruction l
  | _, _ => assembled_instruction l
  end.

(** The mnemonic lists of lines 149, 162, 175 and 187. *)
Definition compare_mnemonics : list string := ["cmp"; "cmpu"; "cmph"].

Definition arithmetic_mnemonics : list string :=
  ["sub"; "add"; "mul"; "and"; "or"; "subu"; "addu"; "mulu";
   "andu"; "oru"; "subh"; "addh"; "mulh"; "andh"; "orh"].

Definition move_mnemonics : list string :=
  ["mov"; "movu"; "movh"; "not"; "notu"; "noth"].

Definition memory_mnemonics : list string := ["ld"; "st"].

(** The condition of line 143. *)
Definition immediate_or_register (mnemonic : string) : bool :=
  in_list mnemonic ["cmp"; "sub"; "add"; "mul"; "mov"; "ld"; "st"; "and"; "or"; "not"]
  || in_list mnemonic MODIFIER_OPCODES.

(** Lines 144-147: the locals before the operands are read. *)
Definition initial_locals : locals :=
  {| I_bit := "1"; rd_bin := "0000"; rs1_bin := "0000";
     immediate_val := Some 0; assembled_instruction := None |}.

(** Lines 143-217. *)
Definition encode_operands (mnemonic opcode : string)
  (operands : option (list string)) (raw_line : string) : control (option string) :=
  let l := initial_locals in
  l <-
    (if in_list mnemonic compare_mnemonics then
       operands_cmp opcode operands l
     else if in_list mnemonic arithmetic_mnemonics then
       operands_arith opcode operands l
     else if in_list mnemonic move_mnemonics then
       operands_mov opcode operands l
     else if in_list mnemonic memory_mnemonics then
       operands_mem operands raw_line l
     else Normal l) ;;
  Normal (immediate_stage mnemonic opcode l).

(** Lines 118-228: the value of [assembled_instruction] when line 230 is
    reached. *)
Definition encode_instruction (label_map : dict Z) (current_address : Z)
  (mnemonic : string) (operands : option (list string)) (raw_line : string)
  : control (option string) :=
  let opcode := dict_get OPCODES mnemonic in
  if negb (truthy opcode) then
    Continue ("Error: Unknown mnemonic '" ++ mnemonic ++ "' on line: " ++ raw_line)
  else
    let opcode := match opcode with Some o => o | None => EmptyString end in
    if in_list mnemonic ["beq"; "bgt"; "b"; "call"; "ret"] then
      encode_branch label_map current_address mnemonic opcode operands raw_line
    else if immediate_or_register mnemonic then
      encode_operands mnemonic opcode operands raw_line
    else if String.eqb mnemonic "nop" then
      match dict_get OPCODES "nop" with
      | Some nop => Normal (Some (nop ++ zeros 27))
      | None => Raise KeyError
      end
    else if String.eqb mnemonic "ret" then
      match dict_get OPCODES "ret" with
      | Some ret => Normal (Some (ret ++ zeros 27))
      | None => Raise KeyError
      end
    else
      Continue ("Warning: Instruction '" ++ mnemonic
                ++ "' not fully implemented in tiny assembler. Skipping: "
                ++ raw_line).

(** One element of [machine_code]. *)
Definition item : Type := nat * string * option string.

(** What the second loop reads and writes. *)
Record state : Type := {
  machine_code : list item;
  current_address : Z;
  stdout : list string
}.

(** Lines 112-238: one iteration of the second loop. *)
Definition pass2_step (label_map : dict Z) (st : state) (e : entry) : state + exn :=
  match mnemonic e with
  | Some (String _ _ as mnemonic) =>
      match encode_instruction label_map (current_address st) mnemonic
              (operands e) (raw_line e) with
      | Raise exception => inr exception
      | Continue message =>
          inl {| machine_code := machine_code st;
                    current_address := current_address st + 1;
                    stdout := stdout st ++ [message] |}
      | Normal assembled =>
          match assembled with
          | Some (String _ _ as assembled) =>
              if negb (String.length assembled =? 32)%nat then
                inl {| machine_code :=
                            machine_code st
                            ++ [(line_num e, raw_line e, Some (zeros 32))];
                          current_address := current_address st + 1;
                          stdout :=
                            stdout st
                            ++ ["Error: Generated instruction length is "
                                ++ Py.str_of_Z (Z.of_nat (String.length assembled))
                                ++ " not 32 for line: " ++ raw_line e] |}
              else
                inl {| machine_code :=
                            machine_code st
                            ++ [(line_num e, raw_line e, Some assembled)];
                          current_address := current_address st + 1;
                          stdout := stdout st |}
          | _ =>
              inl {| machine_code := machine_code st;
                        current_address := current_address st + 1;
                        stdout := stdout st |}
          end
      end
  | _ =>
      inl {| machine_code := machine_code st ++ [(line_num e, raw_line e, None)];
                current_address := current_address st;
                stdout := stdout st |}
  end.

(** The second loop: the state it reaches and the exception that ended
    it, if any. *)
Fixpoint pass2_from (label_map : dict Z) (st : state) (entries : list entry)
  : state * option exn :=
  match entries with
  | [] => (st, None)
  | e :: entries' =>
      match pass2_step label_map st e with
      | inl st' => pass2_from label_map st' entries'
      | inr exception => (st, Some exception)
      end
  end.

(** How a call of [assemble] ends. *)
Inductive outcome : Type :=
| Returns (machine_code : list item)
| Raises (e : exn).

(** Lines 103-106: the report of the label map. *)
Definition label_map_report (label_map : dict Z) : list string :=
  (["--- First Pass: Label Map ---"]
   ++ map (fun '(label, addr) =>
             "Label: " ++ label ++ ", Address: " ++ Py.str_of_Z addr)%string
        label_map
   ++ [Py.repeat_char "-" 30])%list.

(** Lines 94-241, from [processed_lines] on: what is printed and how the
    call ends. *)
Definition assemble_entries (processed_lines : list entry) : list string * outcome :=
  let (label_map, _) := pass1 processed_lines in
  let (st, exception) :=
    pass2_from label_map
      {| machine_code := []; current_address := 0;
         stdout := label_map_report label_map |}
      processed_lines in
  (stdout st,
   match exception with
   | Some e => Raises e
   | None => Returns (machine_code st)
   end).

(** [assemble(assembly_code)] *)
Definition assemble (assembly_code : string) : list string * outcome :=
  assemble_entries (process_lines 0 (Py.split "010" (Py.strip assembly_code))).

(** Lines 244-264: the sample program. *)
Definition factorial_assembly : string :=
  String "010"
  ("b .main" ++ String "010"
  (".factorial: cmp r0,1" ++ String "010"
  ("beq .return" ++ String "010"
  ("bgt .continue" ++ String "010"
  ("b .return" ++ String "010"
  (".continue: sub sp,sp,2" ++ String "010"
  ("st r0,[sp]" ++ String "010"
  ("st ra,1[sp]" ++ String "010"
  ("sub r0,r0,1" ++ String "010"
  ("call .factorial" ++ String "010"
  ("ld r0,[sp]" ++ String "010"
  ("ld ra,1[sp]" ++ String "010"
  ("mul r1,r0,r1" ++ String "010"
  ("add sp,sp,2" ++ String "010"
  ("ret" ++ String "010"
  (".return: mov r1,1" ++ String "010"
  ("ret" ++ String "010"
  (".main: mov r0,10" ++ String "010"
  ("call .factorial" ++ String "010" EmptyString))))))))))))))))))).

(** ** Vocabulary of the properties *)

(** A string of binary digits. *)
Definition is_bitstring (s : string) : bool :=
  Py.forallb_string (fun c => Ascii.eqb c "0" || Ascii.eqb c "1") s.

(** The natural number a bit string writes, as [int(s, 2)] reads it
    (the module's report does so with every word). *)
Fixpoint bits_value (s : string) : Z :=
  match s with
  | EmptyString => 0
  | String c s' =>
      (if Ascii.eqb c "1" then 2 ^ Z.of_nat (String.length s') else 0)
      + bits_value s'
  end.

(** The integer a bit string writes in two's complement over its own
    width. *)
Definition signed_value (s : string) : Z :=
  let width := Z.of_nat (String.length s) in
  if 2 ^ (width - 1) <=? bits_value s then bits_value s - 2 ^ width
  else bits_value s.

(** The values the codec is specified on: the naturals below [2^bits]
    without sign, the two's-complement range of [bits] bits with sign. *)
Definition in_domain (value : Z) (bits : nat) (signed : bool) : Prop :=
  if signed
  then - 2 ^ (Z.of_nat bits - 1) <= value < 2 ^ (Z.of_nat bits - 1)
  else 0 <= value < 2 ^ Z.of_nat bits.

(** Reading a field back, the way it was written. *)
Definition decode (s : string) (signed : bool) : Z :=
  if signed then signed_value s else bits_value s.

(** The digits [bin] writes for a natural number, after the prefix. *)
Definition digits (value : Z) : string := Py.slice_from 2 (Py.bin value).

(** The offset field of a word in branch format. *)
Definition offset_field (word : string) : string := substring 5 27 word.

(** The modifier bits line 209-215 put in front of the immediate. *)
Definition modifier_bits (mnemonic : string) : string :=
  if in_list mnemonic MODIFIER_OPCODES then
    if match Py.last_char mnemonic with
       | Some c => Ascii.eqb c "u"
       | None => false
       end
    then "01" else "10"
  else "00".

(** The modifier bits as the specification words them: by the last
    letter of the mnemonic. *)
Definition modifier_of_suffix (mnemonic : string) : string :=
  match Py.last_char mnemonic with
  | Some "u"%char => "01"
  | Some "h"%char => "10"
  | _ => "00"
  end.

(** A string in register format: opcode, I = 0, three register fields
    and fourteen zeros. *)
Definition register_format (opcode word : string) : Prop :=
  exists rd rs1 rs2 : string,
    String.length rd = 4%nat /\ String.length rs1 = 4%nat
    /\ String.length rs2 = 4%nat
    /\ word = opcode ++ "0" ++ rd ++ rs1 ++ rs2 ++ zeros 14.

(** A string in immediate format: opcode, I = 1, two register fields,
    the modifier bits and the immediate as [to_binary] writes it. *)
Definition immediate_format (mnemonic opcode word : string) : Prop :=
  exists (rd rs1 : string) (v : Z),
    String.length rd = 4%nat /\ String.length rs1 = 4%nat
    /\ word = opcode ++ "1" ++ rd ++ rs1 ++ modifier_bits mnemonic
              ++ to_binary v 16 true.

(** The locals before an instruction string has been built. *)
Definition pending (l : locals) : Prop :=
  I_bit l = "1" /\ immediate_val l <> None /\ assembled_instruction l = None
  /\ String.length (rd_bin l) = 4%nat /\ String.length (rs1_bin l) = 4%nat.

(** The locals once a register-format string has been built. *)
Definition built (opcode : string) (l : locals) : Prop :=
  immediate_val l = None
  /\ exists word, assembled_instruction l = Some word /\ register_format opcode word.

(** An entry that carries an instruction, as both loops test it. *)
Definition instruction_bearing (e : entry) : bool := truthy (mnemonic e).

(** The number of instruction-bearing entries of a list. *)
Definition count_instructions (entries : list entry) : Z :=
  Z.of_nat (List.length (filter instruction_bearing entries)).

(** An entry that defines the label [l]. *)
Definition defines (l : string) (e : entry) : bool :=
  match label e with
  | Some l' => String.eqb l' l
  | None => false
  end.

(** An element of [machine_code] whose word, if any, has 32 characters. *)
Definition word32 (it : item) : Prop :=
  match snd it with
  | Some word => String.length word = 32%nat
  | None => True
  end.

(** A string that is not a word although it has 32 characters: after
    a head of binary digits, its signed field (the 16-bit immediate or
    the 27-bit offset) was written by [to_binary] from a value of the
    half range just below [-2^w], which leaves in it the letter [b] of
    the prefix of [bin]. *)
Definition overflowed (word : string) : Prop :=
  exists (head : string) (v : Z) (w : nat),
    (w = 16 \/ w = 27)%nat
    /\ word = head ++ to_binary v w true
    /\ String.length head = (32 - w)%nat
    /\ is_bitstring head = true
    /\ - 2 ^ Z.of_nat w - 2 ^ (Z.of_nat w - 1) < v < - 2 ^ Z.of_nat w.

(** An element of [machine_code] whose word, if any, is made of binary
    digits or has an overflowed signed field. *)
Definition word_bits (it : item) : Prop :=
  match snd it with
  | Some word => is_bitstring word = true \/ overflowed word
  | None => True
  end.

(** Locals whose register fields are four binary digits each and whose
    instruction string, once built, is made of binary digits. *)
Definition bit_fields (l : locals) : Prop :=
  String.length (rd_bin l) = 4%nat /\ is_bitstring (rd_bin l) = true
  /\ String.length (rs1_bin l) = 4%nat /\ is_bitstring (rs1_bin l) = true
  /\ match assembled_instruction l with
     | Some word => is_bitstring word = true
     | None => True
     end.

(** The four things one iteration of the second loop can do when it does
    not raise. *)
Inductive step_result (e : entry) (st st' : state) : Prop :=
| NoInstruction :
    instruction_bearing e = false ->
    machine_code st' = (machine_code st ++ [(line_num e, raw_line e, None)])%list ->
    stdout st' = stdout st ->
    current_address st' = current_address st ->
    step_result e st st'
| Word (word : string) :
    instruction_bearing e = true ->
    String.length word = 32%nat ->
    is_bitstring word = true \/ overflowed word ->
    machine_code st' = (machine_code st ++ [(line_num e, raw_line e, Some word)])%list ->
    stdout st' = stdout st ->
    current_address st' = current_address st + 1 ->
    step_result e st st'
| Skipped (message : string) :
    instruction_bearing e = true ->
    machine_code st' = machine_code st ->
    stdout st' = (stdout st ++ [message])%list ->
    current_address st' = current_address st + 1 ->
    step_result e st st'
| Placeholder (message : string) :
    instruction_bearing e = true ->
    machine_code st' = (machine_code st ++ [(line_num e, raw_line e, Some (zeros 32))])%list ->
    stdout st' = (stdout st ++ [message])%list ->
    current_address st' = current_address st + 1 ->
    step_result e st st'.

(** A line [parse_line] gives up on at line 59: empty, or a comment,
    once stripped. *)
Definition blank_or_comment (line : string) : bool :=
  let line := Py.strip line in
  negb (truthy (Some line)) || Py.startswith_char ";" line.

(** What the first loop reads of an entry. *)
Definition shape (e : entry) : option string * option string :=
  (label e, mnemonic e).


(** The state a [continue] after a message leaves behind. *)
Definition skipped (st : state) (message : string) : state :=
  {| machine_code := machine_code st;
     current_address := current_address st + 1;
     stdout := stdout st ++ [message] |}.

(** The state of the second loop when it starts. *)
Definition initial (printed : list string) : state :=
  {| machine_code := []; current_address := 0; stdout := printed |}.

(** The state line 232-236 leave behind for a string that is not 32
    characters long. *)
Definition replaced (st : state) (e : entry) (assembled : string) : state :=
  {| machine_code := machine_code st ++ [(line_num e, raw_line e, Some (zeros 32))];
     current_address := current_address st + 1;
     stdout := stdout st
               ++ ["Error: Generated instruction length is "
                   ++ Py.str_of_Z (Z.of_nat (String.length assembled))
                   ++ " not 32 for line: " ++ raw_line e] |}.

(** The state the loop leaves when it appends [word] for the entry and
    prints nothing. *)
Definition appended (st : state) (e : entry) (word : string) : state :=
  {| machine_code := machine_code st ++ [(line_num e, raw_line e, Some word)];
     current_address := current_address st + 1;
     stdout := stdout st |}.

(** The string of line 159, 172 and 184: register format. *)
Definition register_word (opcode rd rs1 rs2 : string) : string :=
  opcode ++ "0" ++ rd ++ rs1 ++ rs2 ++ zeros 14.

(** The string of line 217: immediate format. *)
Definition immediate_word_of (opcode rd rs1 modifier : string) (v : Z) : string :=
  opcode ++ "1" ++ rd ++ rs1 ++ modifier ++ to_binary v 16 true.

(** A state with [out] printed before everything else. *)
Definition printed_before (out : list string) (st : state) : state :=
  {| machine_code := machine_code st;
     current_address := current_address st;
     stdout := out ++ stdout st |}.


(** The entry [e] with other operands. *)
Definition with_operands (e : entry) (ops : list string) : entry :=
  {| line_num := line_num e; label := label e; mnemonic := mnemonic e;
     operands := Some ops; raw_line := raw_line e |}.

(** A program whose first line branches to a label [n + 1] words
    further down. *)
Definition far_program (n : nat) : list string :=
  ("b .far" :: repeat "nop" n ++ [".far: nop"])%list.

(** ** Vocabulary of the further properties *)

(** Lines 65-81 of [parse_line]: what it returns once the comment is
    cut off and the rest stripped. *)
Definition parse_instruction_part (instruction_part : string)
  : option string * option string * option (list string) :=
  let '(label, instruction_part) :=
    if Py.contains_char ":" instruction_part then
      match Py.split_once ":" instruction_part with
      | (label_part, Some instruction_part) =>
          (Some (Py.strip label_part), Py.strip instruction_part)
      | (_, None) => (None, instruction_part)
      end
    else (None, instruction_part) in
  if negb (truthy (Some instruction_part)) then (label, None, None)
  else
    match match_instruction instruction_part with
    | Some (mnemonic, group2) =>
        let operands_str := Py.strip group2 in
        let operands :=
          map Py.strip
            (filter (fun op => truthy (Some (Py.strip op)))
               (Py.split "," operands_str)) in
        (label, Some mnemonic, Some operands)
    | None => (label, None, None)
    end.

(** Every character of [a] occurs in [b]. *)
Definition within (a b : string) : Prop :=
  forall c, Py.contains_char c a = true -> Py.contains_char c b = true.

(** An operand as [parse_line] returns it: not empty, stripped, and
    free of the two delimiters. *)
Definition clean_operand (op : string) : Prop :=
  op <> EmptyString /\ Py.strip op = op
  /\ Py.contains_char "," op = false /\ Py.contains_char ";" op = false.

(** The line number and the text of an element of [machine_code]. *)
Definition item_line (it : item) : nat := fst (fst it).

Definition item_text (it : item) : string := snd (fst it).

(** [a] is [b] with some elements left out. *)
Inductive subseq {A : Type} : list A -> list A -> Prop :=
| SubNil : subseq [] []
| SubSkip (x : A) (a b : list A) : subseq a b -> subseq a (x :: b)
| SubTake (x : A) (a b : list A) : subseq a b -> subseq (x :: a) (x :: b).

(** The line number and the text of an entry of [processed_lines]. *)
Definition entry_key (e : entry) : nat * string := (line_num e, raw_line e).

Definition item_key (it : item) : nat * string := (item_line it, item_text it).

(** A fragment of the loop body that raises neither [TypeError] nor
    [KeyError]. *)
Definition benign {A : Type} (c : control A) : Prop :=
  c <> Raise TypeError /\ c <> Raise KeyError.

(** The mnemonics of the opcode table that reach line 226. *)
Definition unimplemented_mnemonics : list string :=
  ["div"; "mod"; "lsl"; "lsr"; "asr"].

(** The mnemonics for which no operand is ever read. *)
Definition operand_free_mnemonics : list string :=
  ["nop"; "ret"; "divu"; "modu"; "divh"; "modh"].

(** The operand list [ops] of a mnemonic [m] has the literal [x] where
    the code looks for an immediate: third for the arithmetic mnemonics,
    second for the compare and move ones; [rd] and [rs1] are the
    register fields the other operands give. *)
Definition immediate_operands (m : string) (ops : list string) (x rd rs1 : string)
  : Prop :=
  (in_list m arithmetic_mnemonics = true
   /\ exists x0 x1 rest,
       ops = x0 :: x1 :: x :: rest /\ rd = register_bits x0 /\ rs1 = register_bits x1)
  \/ (in_list m compare_mnemonics = true
      /\ exists x0 rest, ops = x0 :: x :: rest /\ rd = "0000" /\ rs1 = register_bits x0)
  \/ (in_list m move_mnemonics = true
      /\ exists x0 rest, ops = x0 :: x :: rest /\ rd = register_bits x0 /\ rs1 = "0000").

(** Lines 194-197: the offset a memory operand stands for, from the
    first group of its match. *)
Definition offset_value (offset_str : string) : control Z :=
  if truthy (Some offset_str) then py_int offset_str else Normal 0.

(** The superscript digits of Latin-1: [isdigit] holds for them and
    [int] rejects them. *)
Definition superscript_digit (c : ascii) : bool :=
  let n := nat_of_ascii c in ((n =? 178) || (n =? 179) || (n =? 185))%nat.

Definition has_superscript (s : string) : bool :=
  negb (Py.forallb_string (fun c => negb (superscript_digit c)) s).

(** What follows the minus sign of a literal, if it has one. *)
Definition literal_digits (x : string) : string :=
  if Py.startswith_char "-" x then Py.slice_from 1 x else x.

(** The number of operands the code reads with a subscript before any
    test of the length of the list (lines 129, 150, 163-164, 176 and
    188-189). *)
Definition subscripted_operands (m : string) : nat :=
  if in_list m ["beq"; "bgt"; "b"; "call"] then 1
  else if in_list m compare_mnemonics then 1
  else if in_list m arithmetic_mnemonics then 2
  else if in_list m move_mnemonics then 1
  else if in_list m memory_mnemonics then 2
  else 0.

(** The entry makes the second loop raise [ex], whatever the label map
    and the address. *)
Definition raises (e : entry) (ex : exn) : Prop :=
  exists m,
    mnemonic e = Some m
    /\ forall label_map address,
         encode_instruction label_map address m (operands e) (raw_line e) = Raise ex.

(** A line of the output that reports a line of the source. *)
Definition diagnostic (line : string) : Prop :=
  String.prefix "Error: " line = true \/ String.prefix "Warning: " line = true.

(** A fragment of the loop body whose [continue], if any, follows the
    print of a diagnostic. *)
Definition reported {A : Type} (c : control A) : Prop :=
  forall message, c = Continue message -> diagnostic message.

(** ** The bit-field codec *)

Section Codec.

Lemma length_append (s t : string) :
  String.length (s ++ t) = (String.length s + String.length t)%nat.
Proof. induction s as [|c s IH]; simpl; [reflexivity | now rewrite IH]. Qed.

Lemma append_empty_r (s : string) : s ++ EmptyString = s.
Proof. induction s as [|c s IH]; simpl; [reflexivity | now rewrite IH]. Qed.

Lemma length_repeat_char (c : ascii) (n : nat) :
  String.length (Py.repeat_char c n) = n.
Proof. induction n as [|n IH]; simpl; [reflexivity | now rewrite IH]. Qed.

Lemma length_zeros (n : nat) : String.length (zeros n) = n.
Proof. apply length_repeat_char. Qed.

Lemma forallb_string_append (p : ascii -> bool) (s t : string) :
  Py.forallb_string p (s ++ t) = Py.forallb_string p s && Py.forallb_string p t.
Proof.
  induction s as [|c s IH]; simpl; [reflexivity|].
  rewrite IH. now rewrite andb_assoc.
Qed.

Lemma is_bitstring_zeros (n : nat) : is_bitstring (zeros n) = true.
Proof. induction n as [|n IH]; simpl; [reflexivity | exact IH]. Qed.

Lemma bits_value_append (s t : string) :
  bits_value (s ++ t) = bits_value s * 2 ^ Z.of_nat (String.length t) + bits_value t.
Proof.
  induction s as [|c s IH]; simpl bits_value; simpl append.
  - lia.
  - simpl bits_value. rewrite IH, length_append, Nat2Z.inj_add, Z.pow_add_r by lia.
    destruct (Ascii.eqb c "1"); lia.
Qed.

Lemma bits_value_zeros (n : nat) : bits_value (zeros n) = 0.
Proof. induction n as [|n IH]; simpl; [reflexivity | exact IH]. Qed.

Lemma length_binary_digits (p : positive) (acc : string) :
  String.length (Py.binary_digits p acc) = (Pos.size_nat p + String.length acc)%nat.
Proof.
  revert acc. induction p as [p IH|p IH|]; intros acc; simpl.
  - rewrite IH. simpl. lia.
  - rewrite IH. simpl. lia.
  - reflexivity.
Qed.

Lemma is_bitstring_binary_digits (p : positive) (acc : string) :
  is_bitstring acc = true -> is_bitstring (Py.binary_digits p acc) = true.
Proof.
  revert acc. induction p as [p IH|p IH|]; intros acc Hacc; simpl.
  - apply IH. exact Hacc.
  - apply IH. exact Hacc.
  - exact Hacc.
Qed.

Lemma bits_value_binary_digits (p : positive) (acc : string) :
  bits_value (Py.binary_digits p acc)
  = Z.pos p * 2 ^ Z.of_nat (String.length acc) + bits_value acc.
Proof.
  revert acc. induction p as [p IH|p IH|]; intros acc.
  - simpl Py.binary_digits. rewrite IH. simpl bits_value. simpl String.length.
    rewrite Nat2Z.inj_succ, Z.pow_succ_r by lia. lia.
  - simpl Py.binary_digits. rewrite IH. simpl bits_value. simpl String.length.
    rewrite Nat2Z.inj_succ, Z.pow_succ_r by lia. lia.
  - change (Py.binary_digits 1 acc) with (String "1" acc).
    change (bits_value (String "1" acc))
      with (2 ^ Z.of_nat (String.length acc) + bits_value acc).
    lia.
Qed.

Lemma size_nat_bound (p : positive) (w : nat) :
  Z.pos p < 2 ^ Z.of_nat w -> (Pos.size_nat p <= w)%nat.
Proof.
  revert w. induction p as [p IH|p IH|]; intros w Hp; destruct w as [|w];
    try (simpl in Hp; lia); simpl Pos.size_nat.
  - apply le_n_S, IH. rewrite Nat2Z.inj_succ, Z.pow_succ_r in Hp by lia. lia.
  - apply le_n_S, IH. rewrite Nat2Z.inj_succ, Z.pow_succ_r in Hp by lia. lia.
  - lia.
Qed.

Lemma digits_spec (value : Z) (w : nat) :
  (0 < w)%nat -> 0 <= value < 2 ^ Z.of_nat w ->
  (String.length (digits value) <= w)%nat
  /\ (0 < String.length (digits value))%nat
  /\ is_bitstring (digits value) = true
  /\ bits_value (digits value) = value.
Proof.
  intros Hw [Hlo Hhi]. destruct value as [|p|p]; [| |lia].
  - cbn. repeat split; try lia.
  - unfold digits. cbn [Py.bin append Py.slice_from].
    rewrite length_binary_digits, bits_value_binary_digits. cbn [String.length bits_value].
    repeat split.
    + pose proof (size_nat_bound p w Hhi). lia.
    + destruct p; simpl; lia.
    + now apply is_bitstring_binary_digits.
    + lia.
Qed.

Lemma zfill_bitstring (w : nat) (s : string) :
  (String.length s <= w)%nat -> is_bitstring s = true ->
  Py.zfill w s = zeros (w - String.length s) ++ s.
Proof.
  intros Hlen Hbits. unfold Py.zfill.
  destruct (Nat.leb_spec w (String.length s)) as [Hle|Hlt].
  - replace (w - String.length s)%nat with 0%nat by lia. reflexivity.
  - destruct s as [|c s].
    { simpl String.length. now rewrite Nat.sub_0_r, append_empty_r. }
    simpl in Hbits. apply andb_true_iff in Hbits as [Hc _].
    apply orb_true_iff in Hc as [Hc|Hc]; apply Ascii.eqb_eq in Hc; subst c; reflexivity.
Qed.

Lemma to_binary_unsigned (value : Z) (w : nat) :
  (0 < w)%nat -> 0 <= value < 2 ^ Z.of_nat w ->
  String.length (to_binary value w false) = w
  /\ is_bitstring (to_binary value w false) = true
  /\ bits_value (to_binary value w false) = value.
Proof.
  intros Hw Hv. destruct (digits_spec value w Hw Hv) as (Hlen & Hpos & Hbits & Hval).
  unfold to_binary. fold (digits value). rewrite zfill_bitstring by assumption.
  rewrite length_append, length_zeros, bits_value_append, bits_value_zeros.
  unfold is_bitstring in *. rewrite forallb_string_append.
  fold (is_bitstring (zeros (w - String.length (digits value)))).
  rewrite is_bitstring_zeros, Hbits, Hval. repeat split; lia.
Qed.

Lemma to_binary_signed_unfold (value : Z) (w : nat) :
  to_binary value w true
  = to_binary (if value <? 0 then 2 ^ Z.of_nat w + value else value) w false.
Proof. unfold to_binary. now rewrite Z.shiftl_1_l. Qed.

Lemma pow2_half (w : nat) :
  (0 < w)%nat -> 2 ^ Z.of_nat w = 2 * 2 ^ (Z.of_nat w - 1).
Proof.
  intros Hw. rewrite <- Z.pow_succ_r by lia. f_equal. lia.
Qed.

Lemma to_binary_signed (value : Z) (w : nat) :
  (0 < w)%nat -> - 2 ^ (Z.of_nat w - 1) <= value < 2 ^ (Z.of_nat w - 1) ->
  String.length (to_binary value w true) = w
  /\ is_bitstring (to_binary value w true) = true
  /\ signed_value (to_binary value w true) = value.
Proof.
  intros Hw Hv. pose proof (pow2_half w Hw) as Hhalf.
  rewrite to_binary_signed_unfold.
  set (v := if value <? 0 then 2 ^ Z.of_nat w + value else value).
  assert (Hrange : 0 <= v < 2 ^ Z.of_nat w).
  { subst v. destruct (Z.ltb_spec value 0); lia. }
  destruct (to_binary_unsigned v w Hw Hrange) as (Hlen & Hbits & Hval).
  repeat split; try assumption.
  unfold signed_value. rewrite Hlen, Hval. subst v.
  destruct (Z.ltb_spec value 0);
    destruct (Z.leb_spec (2 ^ (Z.of_nat w - 1)) (2 ^ Z.of_nat w + value));
    destruct (Z.leb_spec (2 ^ (Z.of_nat w - 1)) value); lia.
Qed.

Lemma to_binary_in_range27 (offset : Z) :
  in_domain offset 27 true ->
  String.length (to_binary offset 27 true) = 27%nat
  /\ signed_value (to_binary offset 27 true) = offset.
Proof.
  intros Hdom. destruct (to_binary_signed offset 27) as (Hlen & _ & Hval);
    [lia | exact Hdom | now split].
Qed.

(** C7, as the code has it. For every positive width and every value of
    the mode's domain ([0 <= value < 2^bits] without sign,
    [-2^(bits-1) <= value < 2^(bits-1)] with sign) [to_binary] returns a
    string of exactly [bits] binary digits that reads back as [value];
    with sign, a negative value is written as [(1 << bits) + value] is
    without sign. There is no range check: the function never fails. *)
Theorem to_binary_in_domain (value : Z) (bits : nat) (signed : bool) :
  (0 < bits)%nat ->
  in_domain value bits signed ->
  String.length (to_binary value bits signed) = bits
  /\ is_bitstring (to_binary value bits signed) = true
  /\ decode (to_binary value bits signed) signed = value
  /\ (signed = true -> value < 0 ->
      to_binary value bits signed
      = to_binary (Z.shiftl 1 (Z.of_nat bits) + value) bits false).
Proof.
  intros Hbits Hdom. destruct signed; unfold in_domain, decode in *.
  - destruct (to_binary_signed value bits Hbits Hdom) as (Hlen & Hbit & Hval).
    repeat split; try assumption.
    intros _ Hneg. unfold to_binary.
    destruct (Z.ltb_spec value 0); [reflexivity | lia].
  - destruct (to_binary_unsigned value bits Hbits Hdom) as (Hlen & Hbit & Hval).
    repeat split; try assumption. discriminate.
Qed.

Lemma to_binary_in_domain_witness :
  (0 < 27)%nat /\ in_domain (-3) 27 true
  /\ String.length (to_binary (-3) 27 true) = 27%nat
  /\ decode (to_binary (-3) 27 true) true = -3.
Proof.
  assert (Hbits : (0 < 27)%nat) by lia.
  assert (Hdom : in_domain (-3) 27 true) by (unfold in_domain; simpl; lia).
  destruct (to_binary_in_domain (-3) 27 true Hbits Hdom) as (Hlen & _ & Hval & _).
  exact (conj Hbits (conj Hdom (conj Hlen Hval))).
Defined.

(** C7 as the specification words it fails without sign on a value of
    three bits and a width of two: nothing is raised and the string
    returned has three characters. *)
Lemma to_binary_no_range_check :
  to_binary 4 2 false = "100" /\ String.length (to_binary 4 2 false) <> 2%nat.
Proof. split; [reflexivity | discriminate]. Qed.

End Codec.

(** ** Branch offsets *)

Section Branches.

Lemma substring_all (s : string) : substring 0 (String.length s) s = s.
Proof. induction s as [|c s IH]; simpl; [reflexivity | now rewrite IH]. Qed.

Lemma substring_append_skip (s t : string) (m : nat) :
  substring (String.length s) m (s ++ t) = substring 0 m t.
Proof. induction s as [|c s IH]; simpl; [reflexivity | exact IH]. Qed.

Lemma substring_prefix (p s : string) :
  substring 0 (String.length p) (p ++ s) = p.
Proof.
  induction p as [|c p IH]; simpl; [now destruct s | now rewrite IH].
Qed.

Lemma substring_inside (a b s : string) :
  substring (String.length a) (String.length b) (a ++ b ++ s) = b.
Proof. rewrite substring_append_skip. apply substring_prefix. Qed.

Lemma substring_field (s t : string) (n m : nat) :
  String.length s = n -> String.length t = m -> substring n m (s ++ t) = t.
Proof.
  intros <- <-. rewrite substring_append_skip. apply substring_all.
Qed.

Lemma in_list_In (x : string) (l : list string) :
  in_list x l = true <-> In x l.
Proof.
  unfold in_list. rewrite existsb_exists. split.
  - intros (y & Hin & Heq). apply String.eqb_eq in Heq. now subst.
  - intros Hin. exists x. split; [exact Hin | apply String.eqb_refl].
Qed.

Lemma branch_opcode (mnemonic : string) :
  in_list mnemonic ["beq"; "bgt"; "b"; "call"] = true ->
  exists opcode,
    dict_get OPCODES mnemonic = Some opcode
    /\ String.length opcode = 5%nat
    /\ in_list mnemonic ["beq"; "bgt"; "b"; "call"; "ret"] = true
    /\ String.eqb mnemonic "ret" = false.
Proof.
  intros Hin. apply in_list_In in Hin. simpl in Hin.
  destruct Hin as [<-|[<-|[<-|[<-|[]]]]]; eexists; repeat split; reflexivity.
Qed.

Lemma encode_branch_resolved (label_map : dict Z) (current_address : Z)
  (mnemonic : string) (target_label : string) (rest : list string)
  (raw_line : string) (target_address : Z) :
  in_list mnemonic ["beq"; "bgt"; "b"; "call"] = true ->
  dict_get label_map target_label = Some target_address ->
  exists opcode,
    dict_get OPCODES mnemonic = Some opcode
    /\ String.length opcode = 5%nat
    /\ encode_instruction label_map current_address mnemonic
         (Some (target_label :: rest)) raw_line
       = Normal (Some (opcode
                       ++ to_binary (target_address - (current_address + 1)) 27 true)).
Proof.
  intros Hin Hget. destruct (branch_opcode mnemonic Hin) as (opcode & Hop & Hlen & Hcls & Hret).
  exists opcode. repeat split; try assumption.
  unfold encode_instruction. rewrite Hop, Hcls.
  destruct opcode as [|c opcode]; [discriminate|].
  cbn [truthy negb]. unfold encode_branch. rewrite Hret.
  cbn [operand_at nth_error bind]. rewrite Hget. reflexivity.
Qed.

(** C1, as the code has it. For a [beq], [bgt], [b] or [call] whose
    target label is bound and whose offset
    [targetAddress - (currentAddress + 1)] lies in the signed 27-bit
    range, the word is the opcode followed by that offset in 27 bits,
    the offset field reads back as the offset, and adding
    [branchAddress + 1] to it gives the target address again. *)
Theorem branch_offset_roundtrip (label_map : dict Z) (current_address : Z)
  (mnemonic : string) (target_label : string) (rest : list string)
  (raw_line : string) (target_address : Z) :
  in_list mnemonic ["beq"; "bgt"; "b"; "call"] = true ->
  dict_get label_map target_label = Some target_address ->
  in_domain (target_address - (current_address + 1)) 27 true ->
  exists opcode word,
    dict_get OPCODES mnemonic = Some opcode
    /\ encode_instruction label_map current_address mnemonic
         (Some (target_label :: rest)) raw_line
       = Normal (Some word)
    /\ word = opcode ++ to_binary (target_address - (current_address + 1)) 27 true
    /\ String.length word = 32%nat
    /\ signed_value (offset_field word) = target_address - (current_address + 1)
    /\ signed_value (offset_field word) + (current_address + 1) = target_address.
Proof.
  intros Hin Hget Hdom.
  destruct (encode_branch_resolved label_map current_address mnemonic target_label
              rest raw_line target_address Hin Hget) as (opcode & Hop & Hlen & Henc).
  destruct (to_binary_in_range27 _ Hdom) as (Hw & Hval).
  exists opcode, (opcode ++ to_binary (target_address - (current_address + 1)) 27 true).
  unfold offset_field. rewrite (substring_field _ _ 5 27 Hlen Hw), length_append, Hlen, Hw, Hval.
  repeat split; try assumption; lia.
Qed.

Lemma branch_offset_roundtrip_witness :
  exists word,
    encode_instruction [(".main", 17)] 0 "b" (Some [".main"]) "b .main"
    = Normal (Some word)
    /\ signed_value (offset_field word) + (0 + 1) = 17.
Proof.
  assert (Hin : in_list "b" ["beq"; "bgt"; "b"; "call"] = true) by reflexivity.
  assert (Hget : dict_get [(".main", 17)] ".main" = Some 17) by reflexivity.
  assert (Hdom : in_domain (17 - (0 + 1)) 27 true) by (unfold in_domain; simpl; lia).
  destruct (branch_offset_roundtrip [(".main", 17)] 0 "b" ".main" [] "b .main" 17
              Hin Hget Hdom) as (opcode & word & _ & Henc & _ & _ & _ & Hback).
  exists word. exact (conj Henc Hback).
Defined.

(** C1 as the specification words it fails on a bound label that is
    2^26 words ahead: 32 bits come out, and their offset field reads
    back as -2^26. *)
Lemma branch_offset_out_of_range :
  exists word,
    dict_get [(".far", 67108865)] ".far" = Some 67108865
    /\ encode_instruction [(".far", 67108865)] 0 "b" (Some [".far"]) "b .far"
       = Normal (Some word)
    /\ String.length word = 32%nat
    /\ signed_value (offset_field word) = - 67108864
    /\ signed_value (offset_field word) <> 67108865 - (0 + 1)
    /\ signed_value (offset_field word) + (0 + 1) <> 67108865.
Proof.
  eexists. split; [reflexivity|]. split; [vm_compute; reflexivity|].
  vm_compute. repeat split; discriminate.
Qed.

End Branches.


(** A goal about every mnemonic of one of the source's lists is proved
    mnemonic by mnemonic. *)
Ltac each_mnemonic H tac :=
  apply in_list_In in H; simpl in H;
  repeat (destruct H as [<-|H]; [tac|]); destruct H.

(** ** Shape of the encoded strings *)

Section Shapes.

Lemma dict_get_Forall {V : Type} (P : V -> Prop) (d : dict V) (k : string) (v : V) :
  Forall (fun kv => P (snd kv)) d -> dict_get d k = Some v -> P v.
Proof.
  induction 1 as [|[k' v'] d Hhd _ IH]; simpl; [discriminate|].
  destruct (String.eqb k' k); [intros [= <-]; exact Hhd | exact IH].
Qed.

Lemma length_register_bits (name : string) :
  String.length (register_bits name) = 4%nat.
Proof.
  unfold register_bits. destruct (dict_get REGISTERS name) as [bits|] eqn:Hget.
  - revert Hget. apply (dict_get_Forall (fun b => String.length b = 4%nat)).
    repeat constructor.
  - reflexivity.
Qed.

Lemma pending_set_rd (l : locals) (name : string) :
  pending l -> pending (set_rd l (register_bits name)).
Proof.
  intros (HI & Hv & Ha & Hrd & Hrs). unfold pending. simpl.
  now rewrite length_register_bits.
Qed.

Lemma pending_set_rs1 (l : locals) (name : string) :
  pending l -> pending (set_rs1 l (register_bits name)).
Proof.
  intros (HI & Hv & Ha & Hrd & Hrs). unfold pending. simpl.
  now rewrite length_register_bits.
Qed.

Lemma last_operand_shape (opcode : string) (operands : option (list string))
  (i : nat) (rs1_field : string) (l l' : locals) :
  String.length rs1_field = 4%nat -> pending l ->
  last_operand opcode operands i rs1_field l = Normal l' ->
  pending l' \/ built opcode l'.
Proof.
  intros Hfield Hl. pose proof Hl as (HI & Hv & Ha & Hrd & Hrs).
  unfold last_operand.
  destruct (operands_len operands) as [n| |]; cbn [bind]; try discriminate.
  destruct (i <? n)%nat; [|intros [= <-]; now left].
  destruct (operand_at operands i) as [x| |]; cbn [bind]; try discriminate.
  destruct (is_immediate x).
  - destruct (py_int x) as [v| |]; cbn [bind]; try discriminate.
    intros [= <-]. left. unfold pending. simpl. repeat split; try assumption.
    discriminate.
  - intros [= <-]. right. split; [reflexivity|]. simpl. eexists. split; [reflexivity|].
    exists (rd_bin l), rs1_field, (register_bits x).
    repeat split; try assumption. apply length_register_bits.
Qed.

Lemma operands_mem_shape (operands : option (list string)) (raw_line : string)
  (l l' : locals) :
  pending l -> operands_mem operands raw_line l = Normal l' -> pending l'.
Proof.
  intros Hl. unfold operands_mem.
  destruct (operand_at operands 0) as [x0| |]; cbn [bind]; try discriminate.
  destruct (operand_at operands 1) as [x1| |]; cbn [bind]; try discriminate.
  destruct (match_mem_operand x1) as [[offset_str rs1_name]|]; try discriminate.
  destruct (if truthy (Some offset_str) then py_int offset_str else Normal 0)
    as [v| |]; cbn [bind]; try discriminate.
  intros [= <-]. destruct (pending_set_rd l x0 Hl) as (HI & Hv & Ha & Hrd & Hrs).
  simpl in Ha. unfold pending. simpl. rewrite !length_register_bits.
  repeat split; try assumption. discriminate.
Qed.

Lemma immediate_stage_shape (mnemonic opcode : string) (l : locals) :
  pending l \/ built opcode l ->
  exists word,
    immediate_stage mnemonic opcode l = Some word
    /\ (register_format opcode word \/ immediate_format mnemonic opcode word).
Proof.
  unfold immediate_stage. intros [(HI & Hv & Ha & Hrd & Hrs)|(Hv & word & Ha & Hreg)].
  - rewrite Ha, HI. destruct (immediate_val l) as [v|]; [|congruence].
    cbn [String.eqb Ascii.eqb Bool.eqb]. eexists. split; [reflexivity|]. right.
    exists (rd_bin l), (rs1_bin l), v. repeat split; try assumption.
    unfold modifier_bits. destruct (in_list mnemonic MODIFIER_OPCODES); [|reflexivity].
    destruct (match Py.last_char mnemonic with Some c => Ascii.eqb c "u" | None => false end);
      reflexivity.
  - rewrite Hv, Ha. exists word. split; [reflexivity | now left].
Qed.

Lemma encode_operands_shape (mnemonic opcode : string)
  (operands : option (list string)) (raw_line : string) (r : option string) :
  encode_operands mnemonic opcode operands raw_line = Normal r ->
  exists word,
    r = Some word
    /\ (register_format opcode word \/ immediate_format mnemonic opcode word).
Proof.
  unfold encode_operands.
  set (l0 := initial_locals).
  assert (Hl0 : pending l0) by (unfold pending; simpl; repeat split; discriminate).
  match goal with
  | |- bind ?m _ = _ -> _ => destruct m as [l| |] eqn:Hstage
  end; cbn [bind]; try discriminate.
  intros [= <-].
  assert (Hl : pending l \/ built opcode l).
  { revert Hstage.
    destruct (in_list mnemonic compare_mnemonics).
    { unfold operands_cmp.
      destruct (operand_at operands 0) as [x0| |]; cbn [bind]; try discriminate.
      apply last_operand_shape; [|now apply pending_set_rs1].
      simpl. apply length_register_bits. }
    destruct (in_list mnemonic _).
    { unfold operands_arith.
      destruct (operand_at operands 0) as [x0| |]; cbn [bind]; try discriminate.
      destruct (operand_at operands 1) as [x1| |]; cbn [bind]; try discriminate.
      apply last_operand_shape;
        [|now apply pending_set_rs1, pending_set_rd].
      simpl. apply length_register_bits. }
    destruct (in_list mnemonic _).
    { unfold operands_mov.
      destruct (operand_at operands 0) as [x0| |]; cbn [bind]; try discriminate.
      apply last_operand_shape; [reflexivity | now apply pending_set_rd]. }
    destruct (in_list mnemonic _).
    { intros H. left. revert H. now apply operands_mem_shape. }
    intros [= <-]. now left. }
  destruct (immediate_stage_shape mnemonic opcode l Hl) as (word & Hw & Hshape).
  exists word. now split.
Qed.

End Shapes.

(** ** Binary digits of the encoded strings *)

Section WordBits.

Lemma size_nat_bound_inv (p : positive) (w : nat) :
  (Pos.size_nat p <= w)%nat -> Z.pos p < 2 ^ Z.of_nat w.
Proof.
  revert w. induction p as [p IH|p IH|]; intros [|w] Hp; simpl in Hp; try lia;
    rewrite Nat2Z.inj_succ, Z.pow_succ_r by lia.
  - specialize (IH w ltac:(lia)). lia.
  - specialize (IH w ltac:(lia)). lia.
  - pose proof (Z.pow_pos_nonneg 2 (Z.of_nat w)). lia.
Qed.

Lemma digits_nonnegative (value : Z) :
  0 <= value ->
  is_bitstring (digits value) = true
  /\ bits_value (digits value) = value
  /\ (0 < String.length (digits value))%nat
  /\ forall w, (0 < w)%nat ->
       ((String.length (digits value) <= w)%nat <-> value < 2 ^ Z.of_nat w).
Proof.
  intros Hv. destruct value as [|p|p]; [| |lia].
  - split; [reflexivity|]. split; [reflexivity|]. split; [cbn; lia|].
    intros w Hw. change (String.length (digits 0)) with 1%nat.
    pose proof (Z.pow_pos_nonneg 2 (Z.of_nat w)). lia.
  - unfold digits. cbn [Py.bin append Py.slice_from].
    rewrite length_binary_digits, bits_value_binary_digits.
    cbn [String.length bits_value]. rewrite Nat.add_0_r.
    split; [now apply is_bitstring_binary_digits|]. split; [lia|].
    split; [destruct p; simpl; lia|].
    intros w _. split; [apply size_nat_bound_inv | apply size_nat_bound].
Qed.

Lemma zfill_bits (w : nat) (s : string) :
  is_bitstring s = true -> Py.zfill w s = zeros (w - String.length s) ++ s.
Proof.
  intros Hbits. destruct (Nat.le_gt_cases (String.length s) w) as [Hle|Hgt].
  - now apply zfill_bitstring.
  - unfold Py.zfill. replace (w <=? String.length s)%nat with true
      by (symmetry; apply Nat.leb_le; lia).
    now replace (w - String.length s)%nat with 0%nat by lia.
Qed.

Lemma to_binary_nonnegative (value : Z) (bits : nat) (signed : bool) :
  0 <= value ->
  to_binary value bits signed
  = zeros (bits - String.length (digits value)) ++ digits value.
Proof.
  intros Hv. destruct (digits_nonnegative value Hv) as (Hbits & _).
  unfold to_binary. replace (value <? 0) with false by (symmetry; apply Z.ltb_ge; lia).
  fold (digits value). destruct signed; now apply zfill_bits.
Qed.

Lemma to_binary_negative (p : positive) (bits : nat) :
  Py.zfill bits (Py.slice_from 2 (Py.bin (Z.neg p)))
  = zeros (bits - S (Pos.size_nat p)) ++ String "b" (Py.binary_digits p EmptyString).
Proof.
  cbn [Py.bin append Py.slice_from]. unfold Py.zfill.
  cbn [String.length]. rewrite length_binary_digits. cbn [String.length].
  rewrite Nat.add_0_r.
  destruct (Nat.leb_spec bits (S (Pos.size_nat p))) as [Hle|Hlt].
  - now replace (bits - S (Pos.size_nat p))%nat with 0%nat by lia.
  - reflexivity.
Qed.

Lemma is_bitstring_with_b (n : nat) (s : string) :
  is_bitstring (zeros n ++ String "b" s) = false.
Proof.
  unfold is_bitstring. rewrite forallb_string_append.
  cbn [Py.forallb_string]. change (Ascii.eqb "b" "0" || Ascii.eqb "b" "1") with false.
  apply andb_false_r.
Qed.

Lemma string_app_assoc (a b c : string) : (a ++ b) ++ c = a ++ b ++ c.
Proof. induction a as [|x a IH]; simpl; [reflexivity | now rewrite IH]. Qed.

Lemma is_bitstring_append (a b : string) :
  is_bitstring (a ++ b) = is_bitstring a && is_bitstring b.
Proof. unfold is_bitstring. apply forallb_string_append. Qed.

Lemma is_bitstring_zero (s : string) : is_bitstring (String "0" s) = is_bitstring s.
Proof. reflexivity. Qed.

Lemma is_bitstring_one (s : string) : is_bitstring (String "1" s) = is_bitstring s.
Proof. reflexivity. Qed.

Lemma to_binary_signed_bits (v : Z) (w : nat) :
  - 2 ^ Z.of_nat w <= v -> is_bitstring (to_binary v w true) = true.
Proof.
  intros Hv. rewrite to_binary_signed_unfold.
  set (v' := if v <? 0 then 2 ^ Z.of_nat w + v else v).
  assert (Hv' : 0 <= v') by (subst v'; destruct (Z.ltb_spec v 0); lia).
  rewrite (to_binary_nonnegative v' w false Hv'), is_bitstring_append, is_bitstring_zeros.
  now destruct (digits_nonnegative v' Hv') as (-> & _).
Qed.

Lemma to_binary_signed_window (v : Z) (w : nat) :
  (0 < w)%nat -> v < - 2 ^ Z.of_nat w ->
  String.length (to_binary v w true) = w ->
  - 2 ^ Z.of_nat w - 2 ^ (Z.of_nat w - 1) < v.
Proof.
  intros Hw Hv. unfold to_binary. rewrite Z.shiftl_1_l.
  pose proof (Z.pow_pos_nonneg 2 (Z.of_nat w)) as Hpow.
  replace (v <? 0) with true by (symmetry; apply Z.ltb_lt; lia).
  destruct (2 ^ Z.of_nat w + v) as [|p|p] eqn:Hp; try lia.
  rewrite to_binary_negative, length_append, length_zeros. cbn [String.length].
  rewrite length_binary_digits. cbn [String.length]. rewrite Nat.add_0_r. intros Hlen.
  assert (Hsize : (Pos.size_nat p <= w - 1)%nat) by lia.
  apply size_nat_bound_inv in Hsize.
  replace (Z.of_nat (w - 1)) with (Z.of_nat w - 1) in Hsize by lia. lia.
Qed.

Lemma signed_field (head : string) (v : Z) (w : nat) :
  (w = 16 \/ w = 27)%nat ->
  is_bitstring head = true -> String.length head = (32 - w)%nat ->
  String.length (head ++ to_binary v w true) = 32%nat ->
  is_bitstring (head ++ to_binary v w true) = true
  \/ overflowed (head ++ to_binary v w true).
Proof.
  intros Hw Hhead Hlen Hword.
  destruct (Z_lt_le_dec v (- 2 ^ Z.of_nat w)) as [Hlow|Hok].
  - right. exists head, v, w. split; [exact Hw|]. split; [reflexivity|].
    split; [exact Hlen|]. split; [exact Hhead|]. split; [|exact Hlow].
    apply to_binary_signed_window; [lia | exact Hlow|].
    rewrite length_append, Hlen in Hword. lia.
  - left. now rewrite is_bitstring_append, Hhead, to_binary_signed_bits.
Qed.

Lemma is_bitstring_register_bits (name : string) :
  is_bitstring (register_bits name) = true.
Proof.
  unfold register_bits. destruct (dict_get REGISTERS name) as [bits|] eqn:Hget.
  - revert Hget. apply (dict_get_Forall (fun b => is_bitstring b = true)).
    repeat constructor.
  - reflexivity.
Qed.

Lemma opcode_bits (m opcode : string) :
  dict_get OPCODES m = Some opcode ->
  String.length opcode = 5%nat /\ is_bitstring opcode = true.
Proof.
  apply (dict_get_Forall (fun b => String.length b = 5%nat /\ is_bitstring b = true)).
  repeat constructor.
Qed.

Lemma bit_fields_last_operand (opcode : string) (operands : option (list string))
  (i : nat) (rs1_field : string) (l l' : locals) :
  is_bitstring opcode = true -> is_bitstring rs1_field = true -> bit_fields l ->
  last_operand opcode operands i rs1_field l = Normal l' -> bit_fields l'.
Proof.
  intros Hop Hfield Hl. pose proof Hl as (Hrd & Hrdb & Hrs & Hrsb & Hasm).
  unfold last_operand.
  destruct (operands_len operands) as [n| |]; cbn [bind]; try discriminate.
  destruct (i <? n)%nat; [|intros [= <-]; exact Hl].
  destruct (operand_at operands i) as [x| |]; cbn [bind]; try discriminate.
  destruct (is_immediate x).
  - destruct (py_int x) as [v| |]; cbn [bind]; try discriminate.
    intros [= <-]. exact Hl.
  - intros [= <-]. unfold bit_fields. cbn [rd_bin rs1_bin assembled_instruction].
    split; [exact Hrd|]. split; [exact Hrdb|]. split; [exact Hrs|].
    split; [exact Hrsb|].
    rewrite is_bitstring_append, is_bitstring_zero, !is_bitstring_append, Hop, Hrdb,
      Hfield, is_bitstring_register_bits.
    now rewrite is_bitstring_zeros.
Qed.

Lemma bit_fields_set_rd (l : locals) (name : string) :
  bit_fields l -> bit_fields (set_rd l (register_bits name)).
Proof.
  intros (Hrd & Hrdb & Hrs & Hrsb & Hasm). unfold bit_fields.
  cbn [set_rd rd_bin rs1_bin assembled_instruction].
  now rewrite length_register_bits, is_bitstring_register_bits.
Qed.

Lemma bit_fields_set_rs1 (l : locals) (name : string) :
  bit_fields l -> bit_fields (set_rs1 l (register_bits name)).
Proof.
  intros (Hrd & Hrdb & Hrs & Hrsb & Hasm). unfold bit_fields.
  cbn [set_rs1 rd_bin rs1_bin assembled_instruction].
  now rewrite length_register_bits, is_bitstring_register_bits.
Qed.

Lemma bit_fields_operands_mem (operands : option (list string)) (raw_line : string)
  (l l' : locals) :
  bit_fields l -> operands_mem operands raw_line l = Normal l' -> bit_fields l'.
Proof.
  intros Hl. unfold operands_mem.
  destruct (operand_at operands 0) as [x0| |]; cbn [bind]; try discriminate.
  destruct (operand_at operands 1) as [x1| |]; cbn [bind]; try discriminate.
  destruct (match_mem_operand x1) as [[offset_str rs1_name]|]; try discriminate.
  destruct (if truthy (Some offset_str) then py_int offset_str else Normal 0)
    as [v| |]; cbn [bind]; try discriminate.
  intros [= <-]. destruct Hl as (_ & _ & _ & _ & Hasm).
  unfold bit_fields. cbn [set_rd rd_bin rs1_bin assembled_instruction].
  rewrite !length_register_bits, !is_bitstring_register_bits.
  repeat split. exact Hasm.
Qed.

Lemma imm_field_modifier (mnemonic imm : string) :
  (if in_list mnemonic MODIFIER_OPCODES then
     if match Py.last_char mnemonic with
        | Some c => Ascii.eqb c "u"
        | None => false
        end
     then "01" ++ imm
     else "10" ++ imm
   else "00" ++ imm)
  = modifier_bits mnemonic ++ imm.
Proof.
  unfold modifier_bits. destruct (in_list mnemonic MODIFIER_OPCODES); [|reflexivity].
  destruct (match Py.last_char mnemonic with Some c => Ascii.eqb c "u" | None => false end);
    reflexivity.
Qed.

Lemma modifier_bits_field (mnemonic : string) :
  String.length (modifier_bits mnemonic) = 2%nat
  /\ is_bitstring (modifier_bits mnemonic) = true.
Proof.
  unfold modifier_bits. destruct (in_list mnemonic MODIFIER_OPCODES); [|now split].
  destruct (match Py.last_char mnemonic with Some c => Ascii.eqb c "u" | None => false end);
    now split.
Qed.

Lemma immediate_stage_bits (mnemonic opcode : string) (l : locals) (word : string) :
  is_bitstring opcode = true -> bit_fields l ->
  immediate_stage mnemonic opcode l = Some word ->
  is_bitstring word = true
  \/ exists head v,
       word = head ++ to_binary v 16 true
       /\ is_bitstring head = true
       /\ String.length head = (String.length opcode + 11)%nat.
Proof.
  intros Hop (Hrd & Hrdb & Hrs & Hrsb & Hasm). unfold immediate_stage.
  destruct (immediate_val l) as [v|];
    destruct (assembled_instruction l) as [built_word|].
  - intros [= <-]. now left.
  - destruct (String.eqb_spec (I_bit l) "1") as [HI|_]; [|discriminate].
    cbv zeta. rewrite imm_field_modifier, HI.
    destruct (modifier_bits_field mnemonic) as (Hmod & Hmodb).
    remember (to_binary v 16 true) as imm eqn:Himm. intros Hword.
    assert (Heq : word = (opcode ++ "1" ++ rd_bin l ++ rs1_bin l
                          ++ modifier_bits mnemonic) ++ imm).
    { injection Hword as <-. now rewrite !string_app_assoc. }
    right. exists (opcode ++ "1" ++ rd_bin l ++ rs1_bin l ++ modifier_bits mnemonic), v.
    rewrite <- Himm. split; [exact Heq|]. split.
    + now rewrite !is_bitstring_append, Hop, Hrdb, Hrsb, Hmodb.
    + rewrite !length_append, Hrd, Hrs, Hmod. cbn [String.length]. lia.
  - intros [= <-]. now left.
  - discriminate.
Qed.

Lemma encode_operands_bits (mnemonic opcode : string)
  (operands : option (list string)) (raw_line word : string) :
  is_bitstring opcode = true ->
  encode_operands mnemonic opcode operands raw_line = Normal (Some word) ->
  is_bitstring word = true
  \/ exists head v,
       word = head ++ to_binary v 16 true
       /\ is_bitstring head = true
       /\ String.length head = (String.length opcode + 11)%nat.
Proof.
  intros Hop. unfold encode_operands.
  set (l0 := initial_locals).
  assert (Hl0 : bit_fields l0) by (unfold bit_fields; simpl; repeat split).
  match goal with
  | |- bind ?m _ = _ -> _ => destruct m as [l| |] eqn:Hstage
  end; cbn [bind]; try discriminate.
  intros [= Hword]. apply (immediate_stage_bits mnemonic opcode l word Hop); [|exact Hword].
  revert Hstage.
  destruct (in_list mnemonic compare_mnemonics).
  { unfold operands_cmp.
    destruct (operand_at operands 0) as [x0| |]; cbn [bind]; try discriminate.
    apply bit_fields_last_operand; [exact Hop | | now apply bit_fields_set_rs1].
    cbn [set_rs1 rs1_bin]. apply is_bitstring_register_bits. }
  destruct (in_list mnemonic _).
  { unfold operands_arith.
    destruct (operand_at operands 0) as [x0| |]; cbn [bind]; try discriminate.
    destruct (operand_at operands 1) as [x1| |]; cbn [bind]; try discriminate.
    apply bit_fields_last_operand;
      [exact Hop | | now apply bit_fields_set_rs1, bit_fields_set_rd].
    cbn [set_rs1 rs1_bin]. apply is_bitstring_register_bits. }
  destruct (in_list mnemonic _).
  { unfold operands_mov.
    destruct (operand_at operands 0) as [x0| |]; cbn [bind]; try discriminate.
    apply bit_fields_last_operand; [exact Hop | reflexivity | now apply bit_fields_set_rd]. }
  destruct (in_list mnemonic _).
  { now apply bit_fields_operands_mem. }
  now intros [= <-].
Qed.

Lemma encode_instruction_word (label_map : dict Z) (address : Z) (m : string)
  (ops : option (list string)) (raw word : string) :
  encode_instruction label_map address m ops raw = Normal (Some word) ->
  String.length word = 32%nat ->
  is_bitstring word = true \/ overflowed word.
Proof.
  unfold encode_instruction.
  destruct (dict_get OPCODES m) as [opcode|] eqn:Hop; [|discriminate].
  destruct (opcode_bits m opcode Hop) as (Hlen & Hbits).
  destruct opcode as [|c opcode']; [discriminate|]. cbn [truthy negb].
  remember (String c opcode') as opcode eqn:Hopcode. clear Hopcode c opcode'.
  destruct (in_list m ["beq"; "bgt"; "b"; "call"; "ret"]).
  { unfold encode_branch. destruct (String.eqb m "ret"); cbn [bind].
    - remember (to_binary 0 27 false) as offset_bin eqn:Hoffset.
      intros [= <-] _. left. now rewrite is_bitstring_append, Hbits, Hoffset.
    - destruct (operand_at ops 0) as [target| |]; cbn [bind]; try discriminate.
      destruct (dict_get label_map target) as [target_address|]; cbn [bind];
        [|discriminate].
      remember (target_address - (address + 1)) as offset eqn:Hoffset.
      intros Hword. assert (Heq : word = opcode ++ to_binary offset 27 true)
        by (remember (to_binary offset 27 true) as offset_bin; now injection Hword).
      rewrite Heq. apply signed_field; [now right | exact Hbits | exact Hlen]. }
  destruct (immediate_or_register m).
  { intros Henc Hword.
    destruct (encode_operands_bits m opcode ops raw word Hbits Henc)
      as [Hw|(head & v & -> & Hhead & Hheadlen)]; [now left|].
    apply signed_field; [now left | exact Hhead | | exact Hword].
    rewrite Hheadlen, Hlen. reflexivity. }
  destruct (String.eqb m "nop"); [intros [= <-] _; now left|].
  destruct (String.eqb m "ret"); [intros [= <-] _; now left | discriminate].
Qed.

End WordBits.

(** ** The two loops *)

Section Loops.

Lemma encode_instruction_truthy (label_map : dict Z) (address : Z)
  (mnemonic : string) (operands : option (list string)) (raw_line : string)
  (r : option string) :
  encode_instruction label_map address mnemonic operands raw_line = Normal r ->
  exists c word, r = Some (String c word).
Proof.
  unfold encode_instruction.
  destruct (dict_get OPCODES mnemonic) as [[|c opcode]|]; cbn [truthy negb];
    try discriminate.
  destruct (in_list mnemonic ["beq"; "bgt"; "b"; "call"; "ret"]).
  { unfold encode_branch.
    match goal with
    | |- bind ?m _ = _ -> _ => destruct m as [offset_bin| |]
    end; cbn [bind]; try discriminate.
    intros [= <-]. now exists c, (opcode ++ offset_bin). }
  destruct (immediate_or_register mnemonic).
  { intros H. apply encode_operands_shape in H as (word & -> & [Hreg|Himm]).
    - destruct Hreg as (rd & rs1 & rs2 & _ & _ & _ & ->).
      do 2 eexists. cbn [append]. reflexivity.
    - destruct Himm as (rd & rs1 & v & _ & _ & ->).
      do 2 eexists. cbn [append]. reflexivity. }
  destruct (String.eqb mnemonic "nop"); [vm_compute; intros [= <-]; eauto|].
  destruct (String.eqb mnemonic "ret"); [vm_compute; intros [= <-]; eauto|].
  discriminate.
Qed.

Lemma pass2_step_result (label_map : dict Z) (st st' : state) (e : entry) :
  pass2_step label_map st e = inl st' -> step_result e st st'.
Proof.
  unfold pass2_step. destruct (mnemonic e) as [[|c m]|] eqn:Hm;
    try (intros [= <-]; apply NoInstruction; unfold instruction_bearing;
         try rewrite Hm; reflexivity).
  assert (Hbear : instruction_bearing e = true)
    by (unfold instruction_bearing; now rewrite Hm).
  destruct (encode_instruction label_map (current_address st) (String c m)
              (operands e) (raw_line e)) as [r|message|exception] eqn:Henc;
    try discriminate.
  - destruct (encode_instruction_truthy _ _ _ _ _ _ Henc) as (c' & word & ->).
    destruct (Nat.eqb_spec (String.length (String c' word)) 32) as [Hlen|Hlen];
      cbn [negb]; intros [= <-].
    + apply (Word e st _ (String c' word)); try reflexivity; try assumption.
      exact (encode_instruction_word _ _ _ _ _ _ Henc Hlen).
    + now eapply Placeholder.
  - intros [= <-]. now eapply Skipped.
Qed.

Lemma count_instructions_app (a b : list entry) :
  count_instructions (a ++ b) = count_instructions a + count_instructions b.
Proof.
  unfold count_instructions. rewrite filter_app, length_app. lia.
Qed.

Lemma count_instructions_cons (e : entry) (es : list entry) :
  count_instructions (e :: es)
  = (if instruction_bearing e then 1 else 0) + count_instructions es.
Proof.
  unfold count_instructions. cbn [filter].
  destruct (instruction_bearing e); cbn [List.length]; lia.
Qed.


Lemma pass2_from_address (label_map : dict Z) (st st' : state) (entries : list entry) :
  pass2_from label_map st entries = (st', None) ->
  current_address st' = current_address st + count_instructions entries.
Proof.
  revert st. induction entries as [|e entries IH]; intros st; simpl.
  - intros [= <-]. unfold count_instructions. simpl. lia.
  - destruct (pass2_step label_map st e) as [st1|exception] eqn:Hstep; [|discriminate].
    intros Hrest. apply IH in Hrest. rewrite Hrest, count_instructions_cons.
    destruct (pass2_step_result _ _ _ _ Hstep) as [Hb _ _ Ha|w Hb _ _ _ _ Ha|m Hb _ _ Ha|m Hb _ _ Ha];
      rewrite Hb, Ha; lia.
Qed.

Lemma pass1_from_app (st : dict Z * Z) (a b : list entry) :
  pass1_from st (a ++ b) = pass1_from (pass1_from st a) b.
Proof. apply fold_left_app. Qed.

Lemma pass1_from_address (label_map : dict Z) (address : Z) (entries : list entry) :
  snd (pass1_from (label_map, address) entries) = address + count_instructions entries.
Proof.
  revert label_map address. induction entries as [|e entries IH]; intros label_map address.
  - unfold count_instructions. simpl. lia.
  - change (pass1_from (label_map, address) (e :: entries))
      with (pass1_from (pass1_step (label_map, address) e) entries).
    destruct (pass1_step (label_map, address) e) as [label_map' address'] eqn:Hstep.
    rewrite IH, count_instructions_cons.
    unfold pass1_step in Hstep. injection Hstep as _ <-.
    unfold instruction_bearing. destruct (truthy (mnemonic e)); lia.
Qed.

Lemma dict_get_set_same {V : Type} (d : dict V) (k : string) (v : V) :
  dict_get (dict_set d k v) k = Some v.
Proof.
  induction d as [|[k' v'] d IH]; simpl.
  - now rewrite String.eqb_refl.
  - destruct (String.eqb k' k) eqn:Hk; simpl; rewrite Hk; [reflexivity | exact IH].
Qed.

Lemma dict_get_set_other {V : Type} (d : dict V) (k k' : string) (v : V) :
  k <> k' -> dict_get (dict_set d k v) k' = dict_get d k'.
Proof.
  intros Hne. induction d as [|[k0 v0] d IH]; simpl.
  - apply String.eqb_neq in Hne. now rewrite Hne.
  - destruct (String.eqb k0 k) eqn:Hk; simpl.
    + apply String.eqb_eq in Hk. subst k0. apply String.eqb_neq in Hne. now rewrite Hne.
    + destruct (String.eqb k0 k'); [reflexivity | exact IH].
Qed.

Lemma pass1_step_defines (label_map : dict Z) (address : Z) (e : entry) (l : string) :
  label e = Some l -> l <> EmptyString ->
  dict_get (fst (pass1_step (label_map, address) e)) l = Some address.
Proof.
  intros Hl Hne. unfold pass1_step. rewrite Hl.
  destruct l as [|c l]; [congruence|]. simpl. apply dict_get_set_same.
Qed.

Lemma pass1_step_other (label_map : dict Z) (address : Z) (e : entry) (l : string) :
  defines l e = false ->
  dict_get (fst (pass1_step (label_map, address) e)) l = dict_get label_map l.
Proof.
  unfold defines, pass1_step. destruct (label e) as [[|c l']|]; simpl; try reflexivity.
  intros Hne. apply dict_get_set_other. now apply String.eqb_neq.
Qed.

Lemma pass1_from_other (st : dict Z * Z) (entries : list entry) (l : string) :
  existsb (defines l) entries = false ->
  dict_get (fst (pass1_from st entries)) l = dict_get (fst st) l.
Proof.
  revert st. induction entries as [|e entries IH]; intros [label_map address]; simpl;
    [reflexivity|].
  intros H. apply orb_false_iff in H as [He Hrest].
  change (pass1_from (label_map, address) (e :: entries))
    with (pass1_from (pass1_step (label_map, address) e) entries).
  rewrite (IH _ Hrest). now apply pass1_step_other.
Qed.

End Loops.

(** ** Pass 1 *)

Section SymbolTable.

Lemma parse_line_blank (line : string) :
  blank_or_comment line = true -> parse_line line = (None, None, None).
Proof.
  unfold blank_or_comment, parse_line. cbv zeta. now intros ->.
Qed.

Lemma process_lines_app (n : nat) (a b : list string) :
  process_lines n (a ++ b)
  = (process_lines n a ++ process_lines (n + List.length a) b)%list.
Proof.
  revert n. induction a as [|line a IH]; intros n; simpl.
  - now rewrite Nat.add_0_r.
  - rewrite IH. replace (S n + List.length a)%nat with (n + S (List.length a))%nat by lia.
    destruct (parse_line line) as [[l m] ops]. now destruct (is_some m || is_some l).
Qed.

Lemma process_lines_shape (n m : nat) (lines : list string) :
  map shape (process_lines n lines) = map shape (process_lines m lines).
Proof.
  revert n m. induction lines as [|line lines IH]; intros n m; simpl; [reflexivity|].
  destruct (parse_line line) as [[l mn] ops].
  destruct (is_some mn || is_some l); simpl; [f_equal|]; apply IH.
Qed.

Lemma pass1_step_shape (st : dict Z * Z) (e e' : entry) :
  shape e = shape e' -> pass1_step st e = pass1_step st e'.
Proof.
  unfold shape, pass1_step. intros [= Hl Hm]. now rewrite Hl, Hm.
Qed.

Lemma pass1_from_shape (st : dict Z * Z) (es es' : list entry) :
  map shape es = map shape es' -> pass1_from st es = pass1_from st es'.
Proof.
  revert st es'. induction es as [|e es IH]; intros st [|e' es']; simpl;
    try discriminate; [reflexivity|].
  intros Hmap. assert (He : shape e = shape e') by congruence.
  assert (Hes : map shape es = map shape es') by congruence.
  unfold pass1_from in *. simpl.
  rewrite (pass1_step_shape st e e' He). now apply IH.
Qed.

Lemma pass1_skips_blank (n : nat) (before after : list string) (line : string) :
  blank_or_comment line = true ->
  pass1 (process_lines n (before ++ line :: after))
  = pass1 (process_lines n (before ++ after)).
Proof.
  intros Hblank. unfold pass1. apply pass1_from_shape.
  rewrite !process_lines_app, !map_app. f_equal.
  simpl. rewrite (parse_line_blank line Hblank). simpl.
  apply process_lines_shape.
Qed.

Lemma count_instructions_none (entries : list entry) :
  forallb (fun e => negb (instruction_bearing e)) entries = true ->
  count_instructions entries = 0.
Proof.
  induction entries as [|e entries IH]; simpl; [reflexivity|].
  intros H. apply andb_true_iff in H as [He Hrest].
  rewrite count_instructions_cons, (IH Hrest).
  now destruct (instruction_bearing e).
Qed.

Lemma pass1_address (entries : list entry) :
  snd (pass1 entries) = count_instructions entries.
Proof. unfold pass1. rewrite pass1_from_address. lia. Qed.

Lemma pass1_binds (pre : list entry) (e : entry) (l : string) :
  label e = Some l -> l <> EmptyString ->
  dict_get (fst (pass1 (pre ++ [e]))) l = Some (count_instructions pre).
Proof.
  intros Hl Hne. pose proof (pass1_address pre) as Haddr.
  unfold pass1 in Haddr |- *. rewrite pass1_from_app.
  destruct (pass1_from ([], 0) pre) as [label_map address].
  cbn [snd] in Haddr.
  change (pass1_from (label_map, address) [e])
    with (pass1_step (label_map, address) e).
  rewrite (pass1_step_defines _ _ _ _ Hl Hne). f_equal. exact Haddr.
Qed.

Lemma pass1_last_binding (pre post : list entry) (e : entry) (l : string) :
  label e = Some l -> l <> EmptyString ->
  existsb (defines l) post = false ->
  dict_get (fst (pass1 (pre ++ e :: post))) l = Some (count_instructions pre).
Proof.
  intros Hl Hne Hpost.
  change (pre ++ e :: post)%list with (pre ++ [e] ++ post)%list.
  rewrite app_assoc. unfold pass1. rewrite pass1_from_app.
  rewrite (pass1_from_other _ _ _ Hpost). now apply pass1_binds.
Qed.

(** C2. Pass 1 binds a label to the number of instruction-bearing
    entries before the entry that carries it: that is the value in the
    table right after the entry, and the value in the finished table
    when no later entry defines the label again. The address counter is
    the number of instruction-bearing entries read so far, an entry
    without a mnemonic leaves it as it is, and blank and comment-only
    lines give no entry at all; so a label on a mnemonic-less entry has
    the address that both passes give the next instruction-bearing
    entry. *)
Theorem pass1_label_address (pre : list entry) (e : entry) (post : list entry)
  (l : string) :
  label e = Some l -> l <> EmptyString ->
  dict_get (fst (pass1 (pre ++ [e]))) l = Some (count_instructions pre)
  /\ (existsb (defines l) post = false ->
      dict_get (fst (pass1 (pre ++ e :: post))) l = Some (count_instructions pre))
  /\ snd (pass1 pre) = count_instructions pre
  /\ (forall e', instruction_bearing e' = false ->
      snd (pass1 (pre ++ [e'])) = snd (pass1 pre))
  /\ (forall n before line after, blank_or_comment line = true ->
      parse_line line = (None, None, None)
      /\ pass1 (process_lines n (before ++ line :: after))
         = pass1 (process_lines n (before ++ after)))
  /\ (instruction_bearing e = false ->
      forall mid,
        forallb (fun x => negb (instruction_bearing x)) mid = true ->
        snd (pass1 (pre ++ e :: mid)) = count_instructions pre
        /\ forall label_map st,
            pass2_from label_map
              {| machine_code := []; current_address := 0; stdout := [] |}
              (pre ++ e :: mid) = (st, None) ->
            current_address st = count_instructions pre).
Proof.
  intros Hl Hne. split; [now apply pass1_binds|].
  split; [now apply pass1_last_binding|].
  split; [apply pass1_address|].
  split.
  { intros e' He'. rewrite !pass1_address, count_instructions_app,
      count_instructions_cons, He'. unfold count_instructions at 2. simpl. lia. }
  split.
  { intros n before line after Hblank.
    split; [now apply parse_line_blank | now apply pass1_skips_blank]. }
  intros He mid Hmid.
  assert (Hcount : count_instructions (pre ++ e :: mid) = count_instructions pre).
  { rewrite count_instructions_app, count_instructions_cons, He,
      (count_instructions_none mid Hmid). lia. }
  split; [now rewrite pass1_address|].
  intros label_map st Hrun. apply pass2_from_address in Hrun.
  rewrite Hrun, Hcount. simpl. lia.
Qed.

Lemma pass1_label_address_witness :
  let nop := {| line_num := 0; label := None; mnemonic := Some "nop";
                operands := Some []; raw_line := "nop" |} in
  let here := {| line_num := 1; label := Some ".here"; mnemonic := None;
                 operands := None; raw_line := ".here:" |} in
  label here = Some ".here" /\ ".here" <> EmptyString
  /\ dict_get (fst (pass1 ([nop] ++ here :: [nop]))) ".here" = Some 1.
Proof.
  intros nop here.
  assert (Hl : label here = Some ".here") by reflexivity.
  assert (Hne : ".here" <> EmptyString) by discriminate.
  destruct (pass1_label_address [nop] here [nop] ".here" Hl Hne) as (_ & Hlast & _).
  exact (conj Hl (conj Hne (Hlast eq_refl))).
Defined.

End SymbolTable.

(** ** Pass 2 *)

Section Encoder.






Lemma pass2_step_skip (label_map : dict Z) (st : state) (e : entry) (m message : string) :
  mnemonic e = Some m ->
  encode_instruction label_map (current_address st) m (operands e) (raw_line e)
  = Continue message ->
  instruction_bearing e = true ->
  pass2_step label_map st e = inl (skipped st message).
Proof.
  unfold instruction_bearing, pass2_step. intros -> Henc Hm.
  destruct m as [|c m]; [discriminate|]. now rewrite Henc.
Qed.




Lemma pass2_step_word32 (label_map : dict Z) (st st' : state) (e : entry) :
  Forall word32 (machine_code st) ->
  pass2_step label_map st e = inl st' ->
  Forall word32 (machine_code st').
Proof.
  intros Hst Hstep.
  destruct (pass2_step_result _ _ _ _ Hstep)
    as [_ Hmc _ _|word _ Hlen _ Hmc _ _|message _ Hmc _ _|message _ Hmc _ _];
    rewrite Hmc; try assumption; apply Forall_app; split; try assumption;
    repeat constructor; assumption.
Qed.

Lemma pass2_from_word32 (label_map : dict Z) (st st' : state) (entries : list entry)
  (exception : option exn) :
  Forall word32 (machine_code st) ->
  pass2_from label_map st entries = (st', exception) ->
  Forall word32 (machine_code st').
Proof.
  revert st. induction entries as [|e entries IH]; intros st Hst; simpl.
  - now intros [= <- _].
  - destruct (pass2_step label_map st e) as [st1|exception'] eqn:Hstep.
    + apply IH. now apply (pass2_step_word32 label_map st st1 e).
    + now intros [= <- _].
Qed.

Lemma pass2_step_word_bits (label_map : dict Z) (st st' : state) (e : entry) :
  Forall word_bits (machine_code st) ->
  pass2_step label_map st e = inl st' ->
  Forall word_bits (machine_code st').
Proof.
  intros Hst Hstep.
  destruct (pass2_step_result _ _ _ _ Hstep)
    as [_ Hmc _ _|word _ _ Hbits Hmc _ _|message _ Hmc _ _|message _ Hmc _ _];
    rewrite Hmc; try assumption; apply Forall_app; (split; [assumption|]);
    (constructor; [|constructor]); unfold word_bits; cbn [snd].
  - exact I.
  - exact Hbits.
  - left. reflexivity.
Qed.

Lemma pass2_from_word_bits (label_map : dict Z) (st st' : state) (entries : list entry)
  (exception : option exn) :
  Forall word_bits (machine_code st) ->
  pass2_from label_map st entries = (st', exception) ->
  Forall word_bits (machine_code st').
Proof.
  revert st. induction entries as [|e entries IH]; intros st Hst; simpl.
  - now intros [= <- _].
  - destruct (pass2_step label_map st e) as [st1|exception'] eqn:Hstep.
    + apply IH. now apply (pass2_step_word_bits label_map st st1 e).
    + now intros [= <- _].
Qed.

Lemma pass2_step_replaced (label_map : dict Z) (st : state) (e : entry)
  (m assembled : string) :
  mnemonic e = Some m ->
  encode_instruction label_map (current_address st) m (operands e) (raw_line e)
  = Normal (Some assembled) ->
  String.length assembled <> 32%nat ->
  pass2_step label_map st e = inl (replaced st e assembled).
Proof.
  intros Hm Henc Hlen. unfold pass2_step. rewrite Hm.
  destruct m as [|c m]; [discriminate|]. rewrite Henc.
  destruct (encode_instruction_truthy _ _ _ _ _ _ Henc) as (c' & word & [= ->]).
  apply Nat.eqb_neq in Hlen. now rewrite Hlen.
Qed.

(** C4, as the code has it. Every word in the list [assemble] returns
    has exactly 32 characters, and they are binary digits unless the
    signed field of the word, the 16-bit immediate or the 27-bit offset,
    was written from a value of the half range just below [-2^w], [w]
    the width of the field. A string of another length that the encoder
    builds is not padded or cut: the loop prints the length error and
    appends the placeholder of 32 zeros for that line. *)
Theorem output_words_have_32_bits (entries : list entry) (out : list string)
  (code : list item) :
  assemble_entries entries = (out, Returns code) ->
  Forall word32 code
  /\ Forall word_bits code
  /\ forall label_map st e m assembled,
       mnemonic e = Some m ->
       encode_instruction label_map (current_address st) m (operands e) (raw_line e)
       = Normal (Some assembled) ->
       String.length assembled <> 32%nat ->
       pass2_step label_map st e = inl (replaced st e assembled).
Proof.
  intros Hrun. unfold assemble_entries in Hrun.
  destruct (pass1 entries) as [label_map address].
  destruct (pass2_from label_map _ entries) as [st exception] eqn:Hloop.
  destruct exception as [exception|]; [discriminate|].
  injection Hrun as _ <-.
  split; [refine (pass2_from_word32 _ _ _ _ _ _ Hloop); constructor|].
  split; [refine (pass2_from_word_bits _ _ _ _ _ _ Hloop); constructor|].
  now apply pass2_step_replaced.
Qed.

Lemma output_words_have_32_bits_witness :
  Forall word32
    [(0%nat, "add r1, r2, 3", Some "00000100010010000000000000000011")]
  /\ Forall word_bits
       [(0%nat, "add r1, r2, 3", Some "00000100010010000000000000000011")].
Proof.
  assert (Hrun :
    assemble_entries (process_lines 0 ["add r1, r2, 3"])
    = (["--- First Pass: Label Map ---"; "------------------------------"],
       Returns [(0%nat, "add r1, r2, 3", Some "00000100010010000000000000000011")]))
    by reflexivity.
  destruct (output_words_have_32_bits _ _ _ Hrun) as (Hlength & Hbits & _).
  exact (conj Hlength Hbits).
Defined.

(** C4 as the specification words it fails on [add r1, r2, 70000]: the
    33 characters built for it are reported, and the line still has a
    word in the output, the placeholder. *)
Lemma width_mismatch_leaves_a_word :
  assemble "add r1, r2, 70000"
  = (["--- First Pass: Label Map ---"; "------------------------------";
      "Error: Generated instruction length is 33 not 32 for line: add r1, r2, 70000"],
     Returns [(0%nat, "add r1, r2, 70000", Some (zeros 32))])
  /\ encode_instruction [] 0 "add" (Some ["r1"; "r2"; "70000"]) "add r1, r2, 70000"
     = Normal (Some ("00000" ++ "1" ++ "0001" ++ "0010" ++ "00" ++ "10001000101110000")).
Proof. split; reflexivity. Qed.

(** The exception of C4 is met: the immediate of [add r1, r2, -70000]
    lies in the half range just below [-2^16], and the line gets 32
    characters with the letter [b] among them and no message. *)
Lemma overflowed_word_is_output :
  assemble "add r1, r2, -70000"
  = (["--- First Pass: Label Map ---"; "------------------------------"],
     Returns [(0%nat, "add r1, r2, -70000", Some "000001000100100000b1000101110000")])
  /\ overflowed "000001000100100000b1000101110000"
  /\ is_bitstring "000001000100100000b1000101110000" = false.
Proof.
  split; [reflexivity|]. split; [|reflexivity].
  exists "0000010001001000", (-70000), 16%nat.
  split; [now left|]. split; [reflexivity|]. split; [reflexivity|].
  split; [reflexivity|]. simpl. lia.
Qed.

End Encoder.

(** ** Duplicate labels *)

Section Duplicates.

Lemma pass2_step_frame (label_map : dict Z) (out : list string) (st : state) (e : entry) :
  pass2_step label_map (printed_before out st) e
  = match pass2_step label_map st e with
    | inl st' => inl (printed_before out st')
    | inr exception => inr exception
    end.
Proof.
  unfold pass2_step, printed_before. cbn [machine_code current_address stdout].
  destruct (mnemonic e) as [[|c m]|]; try reflexivity.
  destruct (encode_instruction label_map (current_address st) (String c m)
              (operands e) (raw_line e)) as [[[|c' word]|]|message|exception];
    try reflexivity.
  - destruct (negb (String.length (String c' word) =? 32)%nat);
      cbn [machine_code current_address stdout]; [now rewrite app_assoc | reflexivity].
  - cbn [machine_code current_address stdout]. now rewrite app_assoc.
Qed.

Lemma pass2_from_frame (label_map : dict Z) (out : list string) (st : state)
  (entries : list entry) :
  pass2_from label_map (printed_before out st) entries
  = (printed_before out (fst (pass2_from label_map st entries)),
     snd (pass2_from label_map st entries)).
Proof.
  revert st. induction entries as [|e entries IH]; intros st; simpl; [reflexivity|].
  rewrite pass2_step_frame.
  destruct (pass2_step label_map st e) as [st'|exception]; [apply IH | reflexivity].
Qed.

Lemma dict_set_keys {V : Type} (d : dict V) (k : string) (v : V) :
  map fst (dict_set d k v)
  = if in_list k (map fst d) then map fst d else (map fst d ++ [k])%list.
Proof.
  unfold in_list. induction d as [|[k' v'] d IH]; simpl; [reflexivity|].
  rewrite (String.eqb_sym k k'). destruct (String.eqb k' k); simpl; [reflexivity|].
  rewrite IH. now destruct (existsb (String.eqb k) (map fst d)).
Qed.

Lemma dict_set_NoDup {V : Type} (d : dict V) (k : string) (v : V) :
  NoDup (map fst d) -> NoDup (map fst (dict_set d k v)).
Proof.
  intros Hd. rewrite dict_set_keys.
  destruct (in_list k (map fst d)) eqn:Hin; [exact Hd|].
  apply NoDup_app; [exact Hd | repeat constructor; intros [] |].
  intros x Hx [<-|[]]. apply in_list_In in Hx. congruence.
Qed.

Lemma pass1_from_NoDup (st : dict Z * Z) (entries : list entry) :
  NoDup (map fst (fst st)) -> NoDup (map fst (fst (pass1_from st entries))).
Proof.
  revert st. induction entries as [|e entries IH]; intros [label_map address] Hst;
    [exact Hst|].
  change (pass1_from (label_map, address) (e :: entries))
    with (pass1_from (pass1_step (label_map, address) e) entries).
  apply IH. unfold pass1_step.
  destruct (label e) as [[|c l]|]; cbn [fst]; try exact Hst.
  now apply dict_set_NoDup.
Qed.

Lemma assemble_entries_stdout (entries : list entry) :
  fst (assemble_entries entries)
  = (label_map_report (fst (pass1 entries))
     ++ stdout (fst (pass2_from (fst (pass1 entries)) (initial []) entries)))%list.
Proof.
  unfold assemble_entries. destruct (pass1 entries) as [label_map address].
  cbn [fst].
  assert (Hinit :
    {| machine_code := []; current_address := 0;
       stdout := label_map_report label_map |}
    = printed_before (label_map_report label_map) (initial []))
    by (unfold printed_before, initial; simpl; now rewrite app_nil_r).
  rewrite Hinit, pass2_from_frame.
  destruct (pass2_from label_map (initial []) entries) as [st exception].
  reflexivity.
Qed.

(** C5, as the code has it. When a label is defined more than once the
    last definition wins: the finished table binds the label to the
    number of instruction-bearing entries before the last entry that
    carries it, and every [beq], [bgt], [b] and [call] that names the
    label is encoded against that address. The first loop prints
    nothing: all that [assemble] prints is the report of the finished
    table, in which every label has one line, followed by the messages
    of the second loop. *)
Theorem duplicate_label_last_wins (pre : list entry) (e : entry) (post : list entry)
  (l : string) :
  label e = Some l -> l <> EmptyString ->
  existsb (defines l) post = false ->
  let entries := (pre ++ e :: post)%list in
  let label_map := fst (pass1 entries) in
  dict_get label_map l = Some (count_instructions pre)
  /\ NoDup (map fst label_map)
  /\ (forall address m rest raw,
        in_list m ["beq"; "bgt"; "b"; "call"] = true ->
        exists opcode,
          dict_get OPCODES m = Some opcode
          /\ encode_instruction label_map address m (Some (l :: rest)) raw
             = Normal (Some (opcode
                             ++ to_binary (count_instructions pre - (address + 1))
                                  27 true)))
  /\ fst (assemble_entries entries)
     = (label_map_report label_map
        ++ stdout (fst (pass2_from label_map (initial []) entries)))%list.
Proof.
  intros Hl Hne Hpost entries label_map.
  assert (Hget : dict_get label_map l = Some (count_instructions pre))
    by now apply pass1_last_binding.
  split; [exact Hget|].
  split; [apply pass1_from_NoDup; constructor|].
  split; [|apply assemble_entries_stdout].
  intros address m rest raw Hin.
  destruct (encode_branch_resolved label_map address m l rest raw _ Hin Hget)
    as (opcode & Hop & _ & Henc).
  exists opcode. split; [exact Hop | exact Henc].
Qed.

Lemma duplicate_label_last_wins_witness :
  let first := {| line_num := 0; label := Some "x"; mnemonic := Some "nop";
                  operands := Some []; raw_line := "x: nop" |} in
  let second := {| line_num := 1; label := Some "x"; mnemonic := Some "nop";
                   operands := Some []; raw_line := "x: nop" |} in
  label second = Some "x" /\ "x" <> EmptyString
  /\ dict_get (fst (pass1 ([first] ++ second :: []))) "x" = Some 1.
Proof.
  intros first second.
  assert (Hl : label second = Some "x") by reflexivity.
  assert (Hne : "x" <> EmptyString) by discriminate.
  assert (Hpost : existsb (defines "x") [] = false) by reflexivity.
  destruct (duplicate_label_last_wins [first] second [] "x" Hl Hne Hpost) as (Hget & _).
  exact (conj Hl (conj Hne Hget)).
Defined.

(** C5 as the specification words it fails on a label defined at
    addresses 0 and 1 and used at address 2: nothing about the label is
    printed, and the branch is encoded against 1, not against 0. *)
Lemma duplicate_label_first_binding_lost :
  assemble ("x: nop" ++ String "010" ("x: nop" ++ String "010" "b x"))
  = (["--- First Pass: Label Map ---"; "Label: x, Address: 1";
      "------------------------------"],
     Returns [(0%nat, "x: nop", Some "01101000000000000000000000000000");
              (1%nat, "x: nop", Some "01101000000000000000000000000000");
              (2%nat, "b x", Some ("10010" ++ to_binary (1 - (2 + 1)) 27 true))])
  /\ to_binary (1 - (2 + 1)) 27 true <> to_binary (0 - (2 + 1)) 27 true.
Proof.
  split; [vm_compute; reflexivity | intros H; vm_compute in H; discriminate].
Qed.

End Duplicates.

(** ** Missing operands *)

Section Failures.

(** C9, at the input on which the code leaves it. A branch without an
    operand makes [assemble] raise [IndexError]: no message is printed
    for the line and the lines after it are not assembled. The same
    happens for a memory operand whose offset is a bare minus sign, with
    [ValueError]. *)
Theorem missing_operand_raises :
  assemble ("b" ++ String "010" "nop")
  = (["--- First Pass: Label Map ---"; "------------------------------"],
     Raises IndexError)
  /\ assemble "ld r1"
     = (["--- First Pass: Label Map ---"; "------------------------------"],
        Raises IndexError)
  /\ assemble "ld r1, -[sp]"
     = (["--- First Pass: Label Map ---"; "------------------------------"],
        Raises ValueError).
Proof. split; [|split]; vm_compute; reflexivity. Qed.

End Failures.

(** ** Instruction formats *)

Section Formats.

Lemma length_4 (s : string) :
  String.length s = 4%nat ->
  exists a b c d, s = String a (String b (String c (String d EmptyString))).
Proof.
  intros H. do 4 (destruct s as [|? s]; [discriminate|]).
  destruct s; [|discriminate]. eauto.
Qed.

Lemma length_5 (s : string) :
  String.length s = 5%nat ->
  exists a b c d e,
    s = String a (String b (String c (String d (String e EmptyString)))).
Proof.
  intros H. do 5 (destruct s as [|? s]; [discriminate|]).
  destruct s; [|discriminate]. eauto 6.
Qed.

Lemma modifier_bits_suffix (m : string) :
  immediate_or_register m = true -> modifier_bits m = modifier_of_suffix m.
Proof.
  unfold immediate_or_register. intros H. apply orb_true_iff in H.
  destruct H as [H|H]; each_mnemonic H ltac:(reflexivity).
Qed.

Lemma encode_instruction_class (m : string) :
  immediate_or_register m = true ->
  exists opcode,
    dict_get OPCODES m = Some opcode
    /\ String.length opcode = 5%nat
    /\ forall label_map address ops raw,
         encode_instruction label_map address m ops raw
         = encode_operands m opcode ops raw.
Proof.
  unfold immediate_or_register. intros H. apply orb_true_iff in H.
  destruct H as [H|H];
    each_mnemonic H
      ltac:(eexists; split; [reflexivity|]; split; [reflexivity|];
            intros; reflexivity).
Qed.







End Formats.

(** ** Single instructions *)

Section Compare.

Lemma encode_compare (m : string) :
  in_list m compare_mnemonics = true ->
  forall label_map address ops raw,
    encode_instruction label_map address m ops raw
    = (l <- operands_cmp "00101" ops initial_locals ;;
       Normal (immediate_stage m "00101" l)).
Proof.
  intros H. each_mnemonic H ltac:(intros; reflexivity).
Qed.

Lemma operands_cmp_rd (opcode : string) (ops : option (list string)) (l : locals) :
  operands_cmp opcode ops initial_locals = Normal l ->
  rd_bin l = "0000"
  /\ (assembled_instruction l = None
      \/ exists rest, assembled_instruction l = Some (opcode ++ "0" ++ "0000" ++ rest)).
Proof.
  unfold operands_cmp, last_operand.
  destruct (operand_at ops 0) as [x0| |]; cbn [bind]; try discriminate.
  destruct (operands_len ops) as [n| |]; cbn [bind]; try discriminate.
  destruct (1 <? n)%nat; [|intros [= <-]; split; [reflexivity | now left]].
  destruct (operand_at ops 1) as [x1| |]; cbn [bind]; try discriminate.
  destruct (is_immediate x1).
  - destruct (py_int x1) as [v| |]; cbn [bind]; try discriminate.
    intros [= <-]. split; [reflexivity | now left].
  - intros [= <-]. split; [reflexivity|]. right. eexists. reflexivity.
Qed.

Lemma compare_rd_zero (label_map : dict Z) (address : Z) (m : string)
  (ops : option (list string)) (raw word : string) :
  in_list m compare_mnemonics = true ->
  encode_instruction label_map address m ops raw = Normal (Some word) ->
  substring 0 5 word = "00101" /\ substring 6 4 word = "0000".
Proof.
  intros Hin. rewrite (encode_compare m Hin).
  destruct (operands_cmp "00101" ops initial_locals) as [l| |] eqn:Hl; cbn [bind];
    try discriminate.
  destruct (operands_cmp_rd _ _ _ Hl) as (Hrd & Hasm).
  unfold immediate_stage. rewrite Hrd.
  destruct Hasm as [Hasm|(rest & Hasm)]; rewrite Hasm.
  - destruct (immediate_val l) as [v|]; [|discriminate].
    destruct (String.eqb_spec (I_bit l) "1") as [HI|_]; [|discriminate].
    rewrite HI. cbv zeta.
    match goal with
    | |- Normal (Some (_ ++ _ ++ _ ++ ?fields)) = _ -> _ => generalize fields
    end.
    intros fields [= <-]. split.
    + exact (substring_prefix "00101" _).
    + exact (substring_inside "001011" "0000" _).
  - assert (Hword : word = "00101" ++ "0" ++ "0000" ++ rest ->
                    substring 0 5 word = "00101" /\ substring 6 4 word = "0000").
    { intros ->. split.
      - exact (substring_prefix "00101" _).
      - exact (substring_inside "001010" "0000" _). }
    destruct (immediate_val l); intros [= <-]; now apply Hword.
Qed.

(** C8. The line [cmp r1, 5] parses to the mnemonic [cmp] with the
    operands [r1] and [5], and whatever the label map, the address and
    the words before it, the second pass appends for it the word made of
    opcode 00101, I = 1, rd = 0000, rs1 = 0001 (the code of r1),
    modifier 00 and the 16-bit two's complement of 5, prints nothing and
    advances the address by one. The destination field does not depend
    on the operands: every string built for a compare mnemonic has
    opcode 00101 and rd = 0000. *)
Theorem cmp_r1_5 (label_map : dict Z) (st : state) (n : nat) :
  let word := "00101" ++ "1" ++ "0000" ++ "0001" ++ "00" ++ "0000000000000101" in
  let e := {| line_num := n; label := None; mnemonic := Some "cmp";
              operands := Some ["r1"; "5"]; raw_line := "cmp r1, 5" |} in
  process_lines n ["cmp r1, 5"] = [e]
  /\ dict_get OPCODES "cmp" = Some "00101"
  /\ register_bits "r1" = "0001"
  /\ to_binary 5 16 true = "0000000000000101"
  /\ signed_value "0000000000000101" = 5
  /\ String.length word = 32%nat
  /\ encode_instruction label_map (current_address st) "cmp" (Some ["r1"; "5"])
       "cmp r1, 5" = Normal (Some word)
  /\ pass2_step label_map st e
     = inl {| machine_code := machine_code st ++ [(n, "cmp r1, 5", Some word)];
              current_address := current_address st + 1;
              stdout := stdout st |}
  /\ (forall address m ops raw assembled,
        in_list m compare_mnemonics = true ->
        encode_instruction label_map address m ops raw = Normal (Some assembled) ->
        substring 0 5 assembled = "00101" /\ substring 6 4 assembled = "0000").
Proof.
  intros word e. do 8 (split; [reflexivity|]).
  intros address m ops raw assembled. apply compare_rd_zero.
Qed.

Lemma cmp_r1_5_witness :
  in_list "cmph" compare_mnemonics = true
  /\ encode_instruction [] 0 "cmph" (Some ["r3"; "r4"]) "cmph r3, r4"
     = Normal (Some "00101000000011010000000000000000")
  /\ substring 6 4 "00101000000011010000000000000000" = "0000".
Proof.
  assert (Hin : in_list "cmph" compare_mnemonics = true) by reflexivity.
  assert (Henc :
    encode_instruction [] 0 "cmph" (Some ["r3"; "r4"]) "cmph r3, r4"
    = Normal (Some "00101000000011010000000000000000")) by reflexivity.
  destruct (cmp_r1_5 [] (initial []) 0) as (_ & _ & _ & _ & _ & _ & _ & _ & Hrd).
  exact (conj Hin (conj Henc (proj2 (Hrd 0 "cmph" _ _ _ Hin Henc)))).
Defined.

End Compare.

(** ** Register operands *)

Section Registers.

Variable tok : string.
Hypothesis tok_unknown : dict_get REGISTERS tok = None.

Lemma register_bits_unknown : register_bits tok = "0000".
Proof. unfold register_bits. now rewrite tok_unknown. Qed.

Lemma encode_arithmetic (m : string) :
  in_list m arithmetic_mnemonics = true ->
  exists opcode, forall label_map address ops raw,
    encode_instruction label_map address m ops raw
    = (l <- operands_arith opcode ops initial_locals ;;
       Normal (immediate_stage m opcode l)).
Proof.
  intros H. each_mnemonic H ltac:(eexists; intros; reflexivity).
Qed.

Lemma encode_move (m : string) :
  in_list m move_mnemonics = true ->
  exists opcode, forall label_map address ops raw,
    encode_instruction label_map address m ops raw
    = (l <- operands_mov opcode ops initial_locals ;;
       Normal (immediate_stage m opcode l)).
Proof.
  intros H. each_mnemonic H ltac:(eexists; intros; reflexivity).
Qed.

Lemma encode_memory (m : string) :
  in_list m memory_mnemonics = true ->
  exists opcode, forall label_map address ops raw,
    encode_instruction label_map address m ops raw
    = (l <- operands_mem ops raw initial_locals ;;
       Normal (immediate_stage m opcode l)).
Proof.
  intros H. each_mnemonic H ltac:(eexists; intros; reflexivity).
Qed.

Lemma last_operand_unknown (opcode : string) (pre rest : list string)
  (field : string) (l : locals) :
  is_immediate tok = false ->
  last_operand opcode (Some (pre ++ tok :: rest)%list) (List.length pre) field l
  = last_operand opcode (Some (pre ++ "r0" :: rest)%list) (List.length pre) field l.
Proof.
  intros Himm. unfold last_operand. cbn [operands_len operand_at bind].
  rewrite !length_app. cbn [List.length].
  destruct (List.length pre <? List.length pre + S (List.length rest))%nat;
    [|reflexivity].
  rewrite !nth_error_app2, Nat.sub_diag by lia. cbn [nth_error bind].
  rewrite Himm. change (is_immediate "r0") with false. cbv iota.
  now rewrite register_bits_unknown.
Qed.

Lemma pass2_step_operands (label_map : dict Z) (st : state) (e : entry) (m : string)
  (ops ops' : list string) :
  mnemonic e = Some m ->
  encode_instruction label_map (current_address st) m (Some ops) (raw_line e)
  = encode_instruction label_map (current_address st) m (Some ops') (raw_line e) ->
  pass2_step label_map st (with_operands e ops)
  = pass2_step label_map st (with_operands e ops').
Proof.
  intros Hm Henc. unfold pass2_step, with_operands.
  cbn [mnemonic operands raw_line line_num]. rewrite Hm.
  destruct m as [|c m]; [reflexivity|]. now rewrite Henc.
Qed.

Lemma span_all (p : ascii -> bool) (s d r : string) :
  Py.span p s = (d, r) -> Py.forallb_string p d = true.
Proof.
  revert d r. induction s as [|c s IH]; intros d r; simpl.
  - now intros [= <- _].
  - destruct (p c) eqn:Hc; [|now intros [= <- _]].
    destruct (Py.span p s) as [d' r']. intros [= <- _]. simpl.
    now rewrite Hc, (IH d' r').
Qed.

Lemma span_bracket (d t : string) :
  Py.forallb_string Py.isdecimal_char d = true ->
  Py.span Py.isdecimal_char (d ++ String "[" t) = (d, String "[" t).
Proof.
  induction d as [|c d IH]; simpl; [reflexivity|].
  intros H. apply andb_true_iff in H as [Hc Hd]. now rewrite Hc, (IH Hd).
Qed.

Lemma match_mem_operand_base (x off : string) :
  match_mem_operand x = Some (off, tok) ->
  match_mem_operand (off ++ "[r0]") = Some (off, "r0").
Proof.
  unfold match_mem_operand.
  destruct (Py.startswith_char "-" x) eqn:Hsign.
  - destruct (Py.span Py.isdecimal_char (Py.slice_from 1 x)) as [d r] eqn:Hspan.
    destruct r as [|c r]; [discriminate|].
    destruct (Ascii.eqb_spec c "["); [subst c | destruct c as [[] [] [] [] [] [] [] []];
      try discriminate; congruence].
    destruct (until_bracket r); [|discriminate]. intros [= <- _].
    cbn [append Py.startswith_char Py.slice_from]. change (Ascii.eqb "-" "-") with true.
    cbv iota. rewrite (span_bracket d "r0]" (span_all _ _ _ _ Hspan)). reflexivity.
  - destruct (Py.span Py.isdecimal_char x) as [d r] eqn:Hspan.
    destruct r as [|c r]; [discriminate|].
    destruct (Ascii.eqb_spec c "["); [subst c | destruct c as [[] [] [] [] [] [] [] []];
      try discriminate; congruence].
    destruct (until_bracket r); [|discriminate]. intros [= <- _].
    cbn [append]. pose proof (span_all _ _ _ _ Hspan) as Hd.
    assert (Hstart : Py.startswith_char "-" (d ++ "[r0]") = false).
    { destruct d as [|c d]; [reflexivity|]. simpl in Hd.
      apply andb_true_iff in Hd as [Hc _]. simpl.
      destruct (Ascii.eqb_spec c "-"); [subst c; discriminate | reflexivity]. }
    rewrite Hstart, (span_bracket d "r0]" Hd). reflexivity.
Qed.

Lemma operands_arith_rd (opcode : string) (rest : list string) (l : locals) :
  operands_arith opcode (Some (tok :: rest)) l
  = operands_arith opcode (Some ("r0" :: rest)) l.
Proof.
  unfold operands_arith. cbn [operand_at nth_error bind].
  now rewrite register_bits_unknown.
Qed.

Lemma operands_arith_rs1 (opcode x0 : string) (rest : list string) (l : locals) :
  operands_arith opcode (Some (x0 :: tok :: rest)) l
  = operands_arith opcode (Some (x0 :: "r0" :: rest)) l.
Proof.
  unfold operands_arith. cbn [operand_at nth_error bind].
  now rewrite register_bits_unknown.
Qed.

Lemma operands_arith_rs2 (opcode x0 x1 : string) (rest : list string) (l : locals) :
  is_immediate tok = false ->
  operands_arith opcode (Some (x0 :: x1 :: tok :: rest)) l
  = operands_arith opcode (Some (x0 :: x1 :: "r0" :: rest)) l.
Proof.
  intros Himm. unfold operands_arith. cbn [operand_at nth_error bind].
  exact (last_operand_unknown opcode [x0; x1] rest _ _ Himm).
Qed.

Lemma operands_cmp_rs1 (opcode : string) (rest : list string) (l : locals) :
  operands_cmp opcode (Some (tok :: rest)) l
  = operands_cmp opcode (Some ("r0" :: rest)) l.
Proof.
  unfold operands_cmp. cbn [operand_at nth_error bind].
  now rewrite register_bits_unknown.
Qed.

Lemma operands_cmp_rs2 (opcode x0 : string) (rest : list string) (l : locals) :
  is_immediate tok = false ->
  operands_cmp opcode (Some (x0 :: tok :: rest)) l
  = operands_cmp opcode (Some (x0 :: "r0" :: rest)) l.
Proof.
  intros Himm. unfold operands_cmp. cbn [operand_at nth_error bind].
  exact (last_operand_unknown opcode [x0] rest _ _ Himm).
Qed.

Lemma operands_mov_rd (opcode : string) (rest : list string) (l : locals) :
  operands_mov opcode (Some (tok :: rest)) l
  = operands_mov opcode (Some ("r0" :: rest)) l.
Proof.
  unfold operands_mov. cbn [operand_at nth_error bind].
  now rewrite register_bits_unknown.
Qed.

Lemma operands_mov_rs2 (opcode x0 : string) (rest : list string) (l : locals) :
  is_immediate tok = false ->
  operands_mov opcode (Some (x0 :: tok :: rest)) l
  = operands_mov opcode (Some (x0 :: "r0" :: rest)) l.
Proof.
  intros Himm. unfold operands_mov. cbn [operand_at nth_error bind].
  exact (last_operand_unknown opcode [x0] rest _ _ Himm).
Qed.

Lemma operands_mem_rd (raw : string) (rest : list string) (l : locals) :
  operands_mem (Some (tok :: rest)) raw l
  = operands_mem (Some ("r0" :: rest)) raw l.
Proof.
  unfold operands_mem. cbn [operand_at nth_error bind].
  now rewrite register_bits_unknown.
Qed.

Lemma operands_mem_base (raw x0 x1 off : string) (rest : list string) (l : locals) :
  match_mem_operand x1 = Some (off, tok) ->
  operands_mem (Some (x0 :: x1 :: rest)) raw l
  = operands_mem (Some (x0 :: (off ++ "[r0]") :: rest)) raw l.
Proof.
  intros Hmatch. unfold operands_mem. cbn [operand_at nth_error bind].
  rewrite Hmatch, (match_mem_operand_base x1 off Hmatch).
  now rewrite register_bits_unknown.
Qed.

(** Writing a token that is not a register name where a register is
    expected leaves the second loop in the state that [r0] leaves it
    in, whatever the rest of the line does. *)
Lemma unknown_register_like_r0 (label_map : dict Z) (st : state)
  (e : entry) (m : string) :
  mnemonic e = Some m ->
  let step ops := pass2_step label_map st (with_operands e ops) in
  register_bits tok = "0000"
  /\ register_bits "r0" = "0000"
  /\ (in_list m arithmetic_mnemonics = true ->
      (forall rest, step (tok :: rest) = step ("r0" :: rest))
      /\ (forall x0 rest, step (x0 :: tok :: rest) = step (x0 :: "r0" :: rest))
      /\ (is_immediate tok = false ->
          forall x0 x1 rest,
            step (x0 :: x1 :: tok :: rest) = step (x0 :: x1 :: "r0" :: rest)))
  /\ (in_list m compare_mnemonics = true ->
      (forall rest, step (tok :: rest) = step ("r0" :: rest))
      /\ (is_immediate tok = false ->
          forall x0 rest, step (x0 :: tok :: rest) = step (x0 :: "r0" :: rest)))
  /\ (in_list m move_mnemonics = true ->
      (forall rest, step (tok :: rest) = step ("r0" :: rest))
      /\ (is_immediate tok = false ->
          forall x0 rest, step (x0 :: tok :: rest) = step (x0 :: "r0" :: rest)))
  /\ (in_list m memory_mnemonics = true ->
      (forall rest, step (tok :: rest) = step ("r0" :: rest))
      /\ (forall x0 x1 off rest,
            match_mem_operand x1 = Some (off, tok) ->
            step (x0 :: x1 :: rest) = step (x0 :: (off ++ "[r0]") :: rest))).
Proof.
  intros Hm step. split; [apply register_bits_unknown|]. split; [reflexivity|].
  split; [|split; [|split]]; intros Hin.
  - destruct (encode_arithmetic m Hin) as (opcode & Heq).
    repeat split; intros; apply (pass2_step_operands _ _ _ m); try assumption;
      rewrite !Heq.
    + now rewrite operands_arith_rd.
    + now rewrite operands_arith_rs1.
    + now rewrite operands_arith_rs2.
  - pose proof (encode_compare m Hin) as Heq.
    repeat split; intros; apply (pass2_step_operands _ _ _ m); try assumption;
      rewrite !Heq.
    + now rewrite operands_cmp_rs1.
    + now rewrite operands_cmp_rs2.
  - destruct (encode_move m Hin) as (opcode & Heq).
    repeat split; intros; apply (pass2_step_operands _ _ _ m); try assumption;
      rewrite !Heq.
    + now rewrite operands_mov_rd.
    + now rewrite operands_mov_rs2.
  - destruct (encode_memory m Hin) as (opcode & Heq).
    repeat split; intros; apply (pass2_step_operands _ _ _ m); try assumption;
      rewrite !Heq.
    + now rewrite operands_mem_rd.
    + match goal with
      | H : match_mem_operand _ = Some _ |- _ => now rewrite (operands_mem_base _ _ _ _ _ _ H)
      end.
Qed.

End Registers.


(** ** A branch out of range *)

Section FarBranch.

Lemma process_nops_shape (k n : nat) :
  map shape (process_lines k (repeat "nop" n)) = repeat (None, Some "nop") n.
Proof.
  revert k. induction n as [|n IH]; intros k; [reflexivity|].
  change (repeat "nop" (S n)) with ("nop" :: repeat "nop" n).
  change (process_lines k ("nop" :: repeat "nop" n))
    with ({| line_num := k; label := None; mnemonic := Some "nop";
             operands := Some []; raw_line := "nop" |}
          :: process_lines (S k) (repeat "nop" n)).
  cbn [map repeat]. now rewrite IH.
Qed.

Lemma count_instructions_shape (es : list entry) (n : nat) :
  map shape es = repeat (None, Some "nop") n -> count_instructions es = Z.of_nat n.
Proof.
  revert n. induction es as [|e es IH]; intros [|n]; try discriminate.
  - reflexivity.
  - cbn [map repeat]. intros H.
    assert (He : shape e = (None, Some "nop")) by congruence.
    assert (Hes : map shape es = repeat (None, Some "nop") n) by congruence.
    rewrite count_instructions_cons, (IH n Hes). unfold instruction_bearing.
    unfold shape in He. injection He as _ ->. cbn [truthy]. lia.
Qed.

Lemma pass2_step_nop (label_map : dict Z) (st : state) (e : entry) :
  mnemonic e = Some "nop" ->
  pass2_step label_map st e
  = inl {| machine_code :=
             machine_code st
             ++ [(line_num e, raw_line e, Some "01101000000000000000000000000000")];
           current_address := current_address st + 1;
           stdout := stdout st |}.
Proof. unfold pass2_step. intros ->. reflexivity. Qed.

Lemma pass2_from_nops (label_map : dict Z) (es : list entry) (st : state) :
  Forall (fun e => mnemonic e = Some "nop") es ->
  exists st',
    pass2_from label_map st es = (st', None)
    /\ exists items, machine_code st' = (machine_code st ++ items)%list.
Proof.
  intros Hes. revert st. induction Hes as [|e es He _ IH]; intros st.
  - exists st. split; [reflexivity|]. exists []. now rewrite app_nil_r.
  - cbn [pass2_from]. rewrite (pass2_step_nop label_map st e He).
    match goal with
    | |- context [pass2_from label_map ?st1 es] =>
        destruct (IH st1) as (st' & Hrun & items & Hitems)
    end.
    exists st'. split; [exact Hrun|]. eexists. rewrite Hitems.
    cbn [machine_code]. now rewrite <- app_assoc.
Qed.

Lemma Forall_nop_shape (es es' : list entry) :
  map shape es = map shape es' ->
  Forall (fun e => mnemonic e = Some "nop") es ->
  Forall (fun e => mnemonic e = Some "nop") es'.
Proof.
  intros Hshape Hes. revert es' Hshape.
  induction Hes as [|e es He _ IH]; intros [|e' es'] Hshape; try discriminate;
    constructor.
  - cbn [map] in Hshape. unfold shape in Hshape. congruence.
  - apply IH. cbn [map] in Hshape. congruence.
Qed.

Lemma process_nops_mnemonic (k n : nat) (tail : list string) :
  Forall (fun e => mnemonic e = Some "nop") (process_lines k tail) ->
  Forall (fun e => mnemonic e = Some "nop")
    (process_lines k (repeat "nop" n) ++ process_lines (k + n) tail).
Proof.
  intros Htail. apply Forall_app. split.
  - clear Htail. revert k. induction n as [|n IH]; intros k; [constructor|].
    change (process_lines k (repeat "nop" (S n)))
      with ({| line_num := k; label := None; mnemonic := Some "nop";
               operands := Some []; raw_line := "nop" |}
            :: process_lines (S k) (repeat "nop" n)).
    constructor; [reflexivity | apply IH].
  - apply (Forall_nop_shape (process_lines k tail)); [|exact Htail].
    apply process_lines_shape.
Qed.

Lemma far_program_entries (n : nat) :
  exists nops target,
    process_lines 0 (far_program n)
    = ({| line_num := 0; label := None; mnemonic := Some "b";
          operands := Some [".far"]; raw_line := "b .far" |} :: nops ++ [target])%list
    /\ label target = Some ".far"
    /\ count_instructions nops = Z.of_nat n
    /\ Forall (fun e => mnemonic e = Some "nop") (nops ++ [target]).
Proof.
  exists (process_lines 1 (repeat "nop" n)),
    {| line_num := 1 + n; label := Some ".far"; mnemonic := Some "nop";
       operands := Some []; raw_line := ".far: nop" |}.
  assert (Htail : forall k,
    process_lines k [".far: nop"]
    = [{| line_num := k; label := Some ".far"; mnemonic := Some "nop";
          operands := Some []; raw_line := ".far: nop" |}]) by reflexivity.
  split; [|split; [reflexivity|split]].
  - unfold far_program.
    change (process_lines 0 ("b .far" :: repeat "nop" n ++ [".far: nop"]))
      with ({| line_num := 0; label := None; mnemonic := Some "b";
               operands := Some [".far"]; raw_line := "b .far" |}
            :: process_lines 1 (repeat "nop" n ++ [".far: nop"])).
    now rewrite process_lines_app, repeat_length, Htail.
  - apply (count_instructions_shape _ n), process_nops_shape.
  - rewrite <- (Htail (1 + n)%nat). apply process_nops_mnemonic.
    rewrite Htail. now repeat constructor.
Qed.

(** C1 on a whole program: with 2^26 instructions between a branch and
    its label, the label is bound to 2^26 + 1, the branch at address 0
    gets a 32-bit word, and the offset field of that word reads back as
    -2^26, so that adding 1 to it does not give the address of the
    label. *)
Lemma far_branch_wraps :
  let entries := process_lines 0 (far_program (Z.to_nat 67108864)) in
  exists word rest out,
    dict_get (fst (pass1 entries)) ".far" = Some 67108865
    /\ assemble_entries entries = (out, Returns ((0%nat, "b .far", Some word) :: rest))
    /\ String.length word = 32%nat
    /\ signed_value (offset_field word) = - 67108864
    /\ signed_value (offset_field word) + (0 + 1) <> 67108865.
Proof.
  remember (Z.to_nat 67108864) as n eqn:Hn.
  assert (Hz : Z.of_nat n = 67108864) by (subst n; apply Z2Nat.id; lia).
  clear Hn. intros entries. subst entries.
  destruct (far_program_entries n) as (nops & target & -> & Hlabel & Hcount & Hnops).
  set (branch := {| line_num := 0; label := None; mnemonic := Some "b";
                    operands := Some [".far"]; raw_line := "b .far" |}).
  assert (Hget : dict_get (fst (pass1 (branch :: nops ++ [target]))) ".far"
                 = Some 67108865).
  { change (branch :: nops ++ [target])%list
      with ((branch :: nops) ++ target :: [])%list.
    rewrite (pass1_last_binding (branch :: nops) [] target ".far" Hlabel);
      [|discriminate|reflexivity].
    rewrite count_instructions_cons, Hcount, Hz. reflexivity. }
  exists ("10010" ++ "1" ++ zeros 26).
  unfold assemble_entries.
  destruct (pass1 (branch :: nops ++ [target])) as [label_map address].
  cbn [fst] in Hget. cbn [pass2_from].
  assert (Hstep :
    pass2_step label_map
      {| machine_code := []; current_address := 0;
         stdout := label_map_report label_map |} branch
    = inl {| machine_code := [(0%nat, "b .far", Some ("10010" ++ "1" ++ zeros 26))];
             current_address := 1;
             stdout := label_map_report label_map |}).
  { unfold pass2_step, branch. cbn [mnemonic operands raw_line line_num current_address].
    unfold encode_instruction.
    change (dict_get OPCODES "b") with (Some "10010").
    cbn [truthy negb]. change (in_list "b" ["beq"; "bgt"; "b"; "call"; "ret"]) with true.
    cbv iota. unfold encode_branch. change (String.eqb "b" "ret") with false.
    cbn [operand_at nth_error bind]. rewrite Hget. cbn [bind].
    change (to_binary (67108865 - (0 + 1)) 27 true) with ("1" ++ zeros 26).
    reflexivity. }
  rewrite Hstep.
  destruct (pass2_from_nops label_map (nops ++ [target])
              {| machine_code := [(0%nat, "b .far", Some ("10010" ++ "1" ++ zeros 26))];
                 current_address := 1;
                 stdout := label_map_report label_map |} Hnops)
    as (st' & Hrun & items & Hitems).
  rewrite Hrun. cbn [machine_code] in Hitems. rewrite Hitems.
  exists items, (stdout st').
  split; [exact Hget|]. split; [reflexivity|].
  vm_compute. repeat split; discriminate.
Qed.

End FarBranch.

(** ** The sample program *)

Section Sample.

Example factorial_label_map :
  fst (pass1 (process_lines 0 (Py.split "010" (Py.strip factorial_assembly))))
  = [(".factorial", 1); (".continue", 5); (".return", 15); (".main", 17)].
Proof. vm_compute. reflexivity. Qed.

Example factorial_machine_code :
  snd (assemble factorial_assembly)
  = Returns
      [(0%nat, "b .main", Some "10010000000000000000000000010000");
       (1%nat, ".factorial: cmp r0,1", Some "00101100000000000000000000000001");
       (2%nat, "beq .return", Some "10000000000000000000000000001100");
       (3%nat, "bgt .continue", Some "10001000000000000000000000000001");
       (4%nat, "b .return", Some "10010000000000000000000000001010");
       (5%nat, ".continue: sub sp,sp,2", Some "00001111101110000000000000000010");
       (6%nat, "st r0,[sp]", Some "01111100001110000000000000000000");
       (7%nat, "st ra,1[sp]", Some "01111111111110000000000000000001");
       (8%nat, "sub r0,r0,1", Some "00001100000000000000000000000001");
       (9%nat, "call .factorial", Some "10011111111111111111111111110111");
       (10%nat, "ld r0,[sp]", Some "01110100001110000000000000000000");
       (11%nat, "ld ra,1[sp]", Some "01110111111110000000000000000001");
       (12%nat, "mul r1,r0,r1", Some "00010000010000000100000000000000");
       (13%nat, "add sp,sp,2", Some "00000111101110000000000000000010");
       (14%nat, "ret", Some "10100000000000000000000000000000");
       (15%nat, ".return: mov r1,1", Some "01001100010000000000000000000001");
       (16%nat, "ret", Some "10100000000000000000000000000000");
       (17%nat, ".main: mov r0,10", Some "01001100000000000000000000001010");
       (18%nat, "call .factorial", Some "10011111111111111111111111101110")].
Proof. vm_compute. reflexivity. Qed.

Example mov_r1_1 :
  encode_instruction [] 15 "mov" (Some ["r1"; "1"]) ".return: mov r1,1"
  = Normal (Some ("01001" ++ "1" ++ "0001" ++ "0000" ++ "00" ++ "0000000000000001")).
Proof. reflexivity. Qed.

Example sub_sp_sp_2 :
  encode_instruction [] 5 "sub" (Some ["sp"; "sp"; "2"]) ".continue: sub sp,sp,2"
  = Normal (Some ("00001" ++ "1" ++ "1110" ++ "1110" ++ "00" ++ "0000000000000010")).
Proof. reflexivity. Qed.

Example undefined_label_is_skipped :
  assemble ("b .nowhere" ++ String "010" "nop")
  = (["--- First Pass: Label Map ---"; "------------------------------";
      "Error: Undefined label '.nowhere' on line: b .nowhere"],
     Returns [(1%nat, "nop", Some "01101000000000000000000000000000")]).
Proof. vm_compute. reflexivity. Qed.

Example to_binary_negative_without_sign : to_binary (-5) 8 false = "0000b101".
Proof. reflexivity. Qed.

End Sample.

(** ** The codec outside its domain *)

Section CodecEdges.

(** Without a sign bit to spend, nothing is ever cut off: for every
    value that is not negative and every positive width, in both modes,
    [to_binary] returns binary digits that read back as the value, at
    least [bits] of them, and exactly [bits] of them when and only when
    the value is below [2^bits]. *)
Theorem to_binary_never_truncates (value : Z) (bits : nat) (signed : bool) :
  0 <= value -> (0 < bits)%nat ->
  is_bitstring (to_binary value bits signed) = true
  /\ bits_value (to_binary value bits signed) = value
  /\ (bits <= String.length (to_binary value bits signed))%nat
  /\ (String.length (to_binary value bits signed) = bits <-> value < 2 ^ Z.of_nat bits).
Proof.
  intros Hv Hbits. rewrite (to_binary_nonnegative value bits signed Hv).
  destruct (digits_nonnegative value Hv) as (Hdig & Hval & Hpos & Hlen).
  unfold is_bitstring in *. rewrite forallb_string_append.
  fold (is_bitstring (zeros (bits - String.length (digits value)))).
  rewrite is_bitstring_zeros, Hdig, bits_value_append, bits_value_zeros,
    length_append, length_zeros, Hval.
  repeat split; try lia.
  - intros H. apply (Hlen bits Hbits). lia.
  - intros H. apply (Hlen bits Hbits) in H. lia.
Qed.

Lemma to_binary_never_truncates_witness :
  0 <= 70000 /\ (0 < 16)%nat
  /\ bits_value (to_binary 70000 16 true) = 70000
  /\ (16 <= String.length (to_binary 70000 16 true))%nat.
Proof.
  assert (Hv : 0 <= 70000) by lia. assert (Hbits : (0 < 16)%nat) by lia.
  destruct (to_binary_never_truncates 70000 16 true Hv Hbits) as (_ & Hval & Hlen & _).
  exact (conj Hv (conj Hbits (conj Hval Hlen))).
Defined.

(** [to_binary] returns a string of binary digits exactly when the
    value is not negative (without sign) or not below [-2^bits] (with
    sign); otherwise the letter [b] of the prefix that [bin] writes is
    left in the string. *)
Theorem to_binary_bitstring_iff (value : Z) (bits : nat) (signed : bool) :
  is_bitstring (to_binary value bits signed) = true
  <-> (if signed then - 2 ^ Z.of_nat bits <= value else 0 <= value).
Proof.
  assert (Hneg : forall v, v < 0 ->
            is_bitstring (Py.zfill bits (Py.slice_from 2 (Py.bin v))) = false).
  { intros [|p|p] Hv; try lia. rewrite to_binary_negative. apply is_bitstring_with_b. }
  assert (Hpos : forall v, 0 <= v ->
            is_bitstring (Py.zfill bits (Py.slice_from 2 (Py.bin v))) = true).
  { intros v Hv. destruct (digits_nonnegative v Hv) as (Hdig & _).
    fold (digits v). rewrite (zfill_bits bits _ Hdig).
    unfold is_bitstring in *. rewrite forallb_string_append, Hdig.
    fold (is_bitstring (zeros (bits - String.length (digits v)))).
    now rewrite is_bitstring_zeros. }
  unfold to_binary. destruct signed.
  - rewrite Z.shiftl_1_l. destruct (Z.ltb_spec value 0) as [Hlt|Hge].
    + destruct (Z.lt_ge_cases (2 ^ Z.of_nat bits + value) 0) as [H|H].
      * rewrite (Hneg _ H). split; [discriminate | lia].
      * rewrite (Hpos _ H). split; [lia | reflexivity].
    + rewrite (Hpos _ Hge). pose proof (Z.pow_pos_nonneg 2 (Z.of_nat bits)).
      split; [lia | reflexivity].
  - destruct (Z.lt_ge_cases value 0) as [H|H].
    + rewrite (Hneg _ H). split; [discriminate | lia].
    + rewrite (Hpos _ H). split; [lia | reflexivity].
Qed.

(** With sign, on the whole range [-2^bits <= value < 2^bits] the
    string has exactly [bits] binary digits and writes the value modulo
    [2^bits]: a value from [2^(bits-1)] up is written like the negative
    value [2^bits] below it. *)
Theorem to_binary_signed_wraps (value : Z) (bits : nat) :
  (0 < bits)%nat -> - 2 ^ Z.of_nat bits <= value < 2 ^ Z.of_nat bits ->
  String.length (to_binary value bits true) = bits
  /\ is_bitstring (to_binary value bits true) = true
  /\ bits_value (to_binary value bits true) = value mod 2 ^ Z.of_nat bits
  /\ (0 <= value ->
      to_binary value bits true = to_binary (value - 2 ^ Z.of_nat bits) bits true).
Proof.
  intros Hbits Hv. pose proof (Z.pow_pos_nonneg 2 (Z.of_nat bits)) as Hpow.
  rewrite to_binary_signed_unfold.
  set (v := if value <? 0 then 2 ^ Z.of_nat bits + value else value).
  assert (Hrange : 0 <= v < 2 ^ Z.of_nat bits)
    by (subst v; destruct (Z.ltb_spec value 0); lia).
  assert (Hmod : value mod 2 ^ Z.of_nat bits = v).
  { symmetry. subst v. destruct (Z.ltb_spec value 0).
    - apply (Z.mod_unique _ _ (-1)); lia.
    - apply (Z.mod_unique _ _ 0); lia. }
  destruct (to_binary_unsigned v bits Hbits Hrange) as (Hlen & Hdig & Hval).
  rewrite Hmod. repeat split; try assumption.
  intros Hpos. rewrite to_binary_signed_unfold. subst v.
  destruct (Z.ltb_spec value 0); [lia|].
  destruct (Z.ltb_spec (value - 2 ^ Z.of_nat bits) 0); [|lia].
  f_equal. lia.
Qed.

Lemma to_binary_signed_wraps_witness :
  (0 < 16)%nat /\ - 2 ^ Z.of_nat 16 <= 65535 < 2 ^ Z.of_nat 16
  /\ to_binary 65535 16 true = to_binary (-1) 16 true.
Proof.
  assert (Hbits : (0 < 16)%nat) by lia.
  assert (Hv : - 2 ^ Z.of_nat 16 <= 65535 < 2 ^ Z.of_nat 16) by (simpl; lia).
  destruct (to_binary_signed_wraps 65535 16 Hbits Hv) as (_ & _ & _ & Halias).
  exact (conj Hbits (conj Hv (Halias ltac:(lia)))).
Defined.

Lemma to_binary_below_range (value : Z) (bits : nat) :
  (0 < bits)%nat ->
  - 2 ^ Z.of_nat bits - 2 ^ (Z.of_nat bits - 1) < value < - 2 ^ Z.of_nat bits ->
  String.length (to_binary value bits true) = bits
  /\ is_bitstring (to_binary value bits true) = false.
Proof.
  intros Hbits Hv. pose proof (pow2_half bits Hbits) as Hhalf.
  pose proof (Z.pow_pos_nonneg 2 (Z.of_nat bits)) as Hpow.
  unfold to_binary. rewrite Z.shiftl_1_l.
  replace (value <? 0) with true by (symmetry; apply Z.ltb_lt; lia).
  destruct (2 ^ Z.of_nat bits + value) as [|p|p] eqn:Hp; try lia.
  rewrite to_binary_negative. split; [|apply is_bitstring_with_b].
  rewrite length_append, length_zeros. cbn [String.length].
  rewrite length_binary_digits. cbn [String.length].
  assert (Hsize : (Pos.size_nat p <= bits - 1)%nat).
  { apply size_nat_bound. replace (Z.of_nat (bits - 1)) with (Z.of_nat bits - 1) by lia.
    lia. }
  lia.
Qed.

(** With sign, a value in the half range just below [-2^bits] gives a
    string of the requested length that is not made of binary digits:
    the length test of the caller cannot tell it from a word. *)
Theorem to_binary_signed_b_window (value : Z) (bits : nat) :
  (0 < bits)%nat ->
  - 2 ^ Z.of_nat bits - 2 ^ (Z.of_nat bits - 1) < value < - 2 ^ Z.of_nat bits ->
  String.length (to_binary value bits true) = bits
  /\ is_bitstring (to_binary value bits true) = false.
Proof. exact (to_binary_below_range value bits). Qed.

Lemma to_binary_signed_b_window_witness :
  (0 < 16)%nat
  /\ - 2 ^ Z.of_nat 16 - 2 ^ (Z.of_nat 16 - 1) < - 70000 < - 2 ^ Z.of_nat 16
  /\ String.length (to_binary (-70000) 16 true) = 16%nat
  /\ is_bitstring (to_binary (-70000) 16 true) = false.
Proof.
  assert (Hbits : (0 < 16)%nat) by lia.
  assert (Hv : - 2 ^ Z.of_nat 16 - 2 ^ (Z.of_nat 16 - 1) < - 70000 < - 2 ^ Z.of_nat 16)
    by (simpl; lia).
  exact (conj Hbits (conj Hv (to_binary_signed_b_window (-70000) 16 Hbits Hv))).
Defined.

End CodecEdges.

(** ** The line parser *)

Section Parser.

Lemma parse_line_unfold (line : string) :
  parse_line line
  = if blank_or_comment line then (None, None, None)
    else parse_instruction_part
           (Py.strip (fst (Py.split_once ";" (Py.strip line)))).
Proof. reflexivity. Qed.

Lemma rstrip_cons (c : ascii) (s : string) :
  Py.isspace c = false -> Py.rstrip (String c s) = String c (Py.rstrip s).
Proof. intros Hc. cbn [Py.rstrip]. rewrite Hc. now destruct (Py.rstrip s). Qed.

Lemma lstrip_head (s : string) :
  Py.lstrip s = EmptyString
  \/ exists c r, Py.lstrip s = String c r /\ Py.isspace c = false.
Proof.
  induction s as [|c s IH]; [now left|]. cbn [Py.lstrip].
  destruct (Py.isspace c) eqn:Hc; [exact IH | right; eauto].
Qed.

Lemma lstrip_fixed (c : ascii) (s : string) :
  Py.isspace c = false -> Py.lstrip (String c s) = String c s.
Proof. intros Hc. cbn [Py.lstrip]. now rewrite Hc. Qed.

Lemma rstrip_idempotent (s : string) : Py.rstrip (Py.rstrip s) = Py.rstrip s.
Proof.
  induction s as [|c s IH]; [reflexivity|]. cbn [Py.rstrip].
  destruct (Py.rstrip s) as [|k kept] eqn:Hs.
  - destruct (Py.isspace c) eqn:Hc; [reflexivity|]. cbn [Py.rstrip]. now rewrite Hc.
  - change (Py.rstrip (String c (String k kept)))
      with (match Py.rstrip (String k kept) with
            | EmptyString => if Py.isspace c then EmptyString else String c EmptyString
            | kept' => String c kept'
            end).
    now rewrite IH.
Qed.

Lemma strip_head (s : string) :
  Py.strip s = EmptyString
  \/ exists c r, Py.strip s = String c r /\ Py.isspace c = false.
Proof.
  unfold Py.strip. destruct (lstrip_head s) as [->|(c & r & -> & Hc)]; [now left|].
  right. rewrite (rstrip_cons c r Hc). eauto.
Qed.

Lemma strip_idempotent (s : string) : Py.strip (Py.strip s) = Py.strip s.
Proof.
  destruct (strip_head s) as [->|(c & r & Hs & Hc)]; [reflexivity|].
  unfold Py.strip at 1. rewrite Hs, (lstrip_fixed c r Hc), <- Hs.
  unfold Py.strip. apply rstrip_idempotent.
Qed.

Lemma within_refl (a : string) : within a a.
Proof. now intros c. Qed.

Lemma within_trans (a b c : string) : within a b -> within b c -> within a c.
Proof. intros Hab Hbc d Hd. now apply Hbc, Hab. Qed.

Lemma within_tail (c : ascii) (a b : string) : within a b -> within a (String c b).
Proof.
  intros H d Hd. cbn [Py.contains_char]. rewrite (H d Hd). apply orb_true_r.
Qed.

Lemma within_cons (c : ascii) (a b : string) :
  within a b -> within (String c a) (String c b).
Proof.
  intros H d Hd. cbn [Py.contains_char] in *.
  apply orb_true_iff in Hd as [Hd|Hd]; [now rewrite Hd | rewrite (H d Hd); apply orb_true_r].
Qed.

Lemma within_lstrip (s : string) : within (Py.lstrip s) s.
Proof.
  induction s as [|c s IH]; [apply within_refl|]. cbn [Py.lstrip].
  destruct (Py.isspace c); [now apply within_tail | apply within_refl].
Qed.

Lemma within_rstrip (s : string) : within (Py.rstrip s) s.
Proof.
  induction s as [|c s IH]; [apply within_refl|]. cbn [Py.rstrip].
  destruct (Py.rstrip s) as [|k kept].
  - destruct (Py.isspace c); [intros d; discriminate|].
    apply within_cons. intros d; discriminate.
  - now apply within_cons.
Qed.

Lemma within_strip (s : string) : within (Py.strip s) s.
Proof.
  unfold Py.strip. eapply within_trans; [apply within_rstrip | apply within_lstrip].
Qed.

Lemma within_absent (c : ascii) (a b : string) :
  within a b -> Py.contains_char c b = false -> Py.contains_char c a = false.
Proof.
  intros H Hb. destruct (Py.contains_char c a) eqn:Ha; [|reflexivity].
  now rewrite (H c Ha) in Hb.
Qed.

Lemma split_once_parts (c : ascii) (s : string) :
  Py.contains_char c (fst (Py.split_once c s)) = false
  /\ within (fst (Py.split_once c s)) s
  /\ (forall rest, snd (Py.split_once c s) = Some rest -> within rest s)
  /\ (Py.contains_char c s = false -> Py.split_once c s = (s, None))
  /\ (Py.contains_char c s = true -> snd (Py.split_once c s) <> None).
Proof.
  induction s as [|a s (IH1 & IH2 & IH3 & IH4 & IH5)].
  { repeat split; try reflexivity; try discriminate; try apply within_refl. }
  cbn [Py.split_once Py.contains_char].
  destruct (Ascii.eqb a c) eqn:Ha.
  - cbn [fst snd orb].
    split; [reflexivity|]. split; [intros d; discriminate|].
    split; [intros rest [= <-]; apply within_tail, within_refl|].
    split; discriminate.
  - destruct (Py.split_once c s) as [before after]. cbn [fst snd orb] in *.
    split; [cbn [Py.contains_char]; now rewrite Ha, IH1|].
    split; [now apply within_cons|].
    split; [intros rest Hrest; now apply within_tail, IH3|].
    split; [|exact IH5].
    intros Hs. specialize (IH4 Hs). now injection IH4 as -> ->.
Qed.

Lemma span_parts (p : ascii -> bool) (s : string) :
  Py.forallb_string p (fst (Py.span p s)) = true
  /\ within (fst (Py.span p s)) s /\ within (snd (Py.span p s)) s.
Proof.
  induction s as [|c s (IH1 & IH2 & IH3)].
  { repeat split; try reflexivity; try apply within_refl. }
  cbn [Py.span]. destruct (p c) eqn:Hc.
  - destruct (Py.span p s) as [taken rest]. cbn [fst snd] in *. repeat split.
    + cbn [Py.forallb_string]. now rewrite Hc, IH1.
    + now apply within_cons.
    + now apply within_tail.
  - cbn [fst snd]. repeat split; [intros d; discriminate | apply within_refl].
Qed.

Lemma split_pieces (c : ascii) (s : string) :
  Forall (fun piece => Py.contains_char c piece = false /\ within piece s)
    (Py.split c s).
Proof.
  induction s as [|a s IH]; cbn [Py.split].
  { repeat constructor. apply within_refl. }
  destruct (Ascii.eqb a c) eqn:Ha.
  - constructor; [split; [reflexivity | intros d; discriminate]|].
    eapply Forall_impl; [|exact IH]. intros piece [H1 H2].
    split; [exact H1 | now apply within_tail].
  - destruct (Py.split c s) as [|piece pieces].
    + repeat constructor.
      * cbn [Py.contains_char]. now rewrite Ha.
      * apply within_cons. intros d; discriminate.
    + inversion IH as [|? ? [H1 H2] Hrest]; subst. constructor.
      * split; [cbn [Py.contains_char]; now rewrite Ha, H1 | now apply within_cons].
      * eapply Forall_impl; [|exact Hrest]. intros q [Hq1 Hq2].
        split; [exact Hq1 | now apply within_tail].
Qed.

Lemma match_instruction_parts (s g1 g2 : string) :
  match_instruction s = Some (g1, g2) ->
  g1 <> EmptyString /\ Py.forallb_string Py.islower_az g1 = true /\ within g2 s.
Proof.
  unfold match_instruction.
  pose proof (span_parts Py.islower_az s) as (Hlow & _ & Hrest).
  destruct (Py.span Py.islower_az s) as [group1 rest]. cbn [fst snd] in *.
  destruct group1 as [|c group1]; [discriminate|].
  pose proof (span_parts Py.isspace rest) as (_ & _ & Hrest').
  destruct (Py.span Py.isspace rest) as [spaces rest']. cbn [snd] in Hrest'.
  pose proof (span_parts (fun c => negb (Ascii.eqb c "010")) rest') as (_ & Hg2 & _).
  destruct (Py.span (fun c => negb (Ascii.eqb c "010")) rest') as [group2 rest''].
  cbn [fst] in Hg2. intros [= <- <-].
  split; [discriminate|]. split; [exact Hlow|].
  eapply within_trans; [exact Hg2|]. eapply within_trans; [exact Hrest' | exact Hrest].
Qed.

Lemma operands_clean (group2 : string) :
  Py.contains_char ";" group2 = false ->
  Forall clean_operand
    (map Py.strip
       (filter (fun op => truthy (Some (Py.strip op)))
          (Py.split "," (Py.strip group2)))).
Proof.
  intros Hsemi. pose proof (split_pieces "," (Py.strip group2)) as Hpieces.
  induction Hpieces as [|piece pieces [Hcomma Hin] _ IH]; [constructor|].
  cbn [filter]. destruct (Py.strip piece) as [|c r] eqn:Hp; cbn [truthy]; [exact IH|].
  cbn [map]. constructor; [|exact IH]. rewrite Hp.
  split; [discriminate|]. rewrite <- Hp. split; [apply strip_idempotent|].
  split.
  - exact (within_absent _ _ _ (within_strip piece) Hcomma).
  - apply (within_absent _ _ group2); [|exact Hsemi].
    eapply within_trans; [apply within_strip|].
    eapply within_trans; [exact Hin | apply within_strip].
Qed.

Lemma parse_instruction_part_invariants (part : string)
  (label mnemonic : option string) (operands : option (list string)) :
  Py.contains_char ";" part = false ->
  parse_instruction_part part = (label, mnemonic, operands) ->
  (mnemonic = None <-> operands = None)
  /\ (forall m, mnemonic = Some m ->
        m <> EmptyString /\ Py.forallb_string Py.islower_az m = true)
  /\ (forall ops, operands = Some ops -> Forall clean_operand ops)
  /\ (forall l, label = Some l ->
        Py.strip l = l /\ Py.contains_char ":" l = false
        /\ Py.contains_char ";" l = false).
Proof.
  intros Hsemi. unfold parse_instruction_part.
  pose proof (split_once_parts ":" part) as (Hb1 & Hb2 & Hb3 & _ & Hb5).
  set (split := if Py.contains_char ":" part
                then match Py.split_once ":" part with
                     | (label_part, Some rest) =>
                         (Some (Py.strip label_part), Py.strip rest)
                     | (_, None) => (None, part)
                     end
                else (None, part)).
  assert (Hsplit :
    within (snd split) part
    /\ forall l, fst split = Some l ->
         Py.strip l = l /\ Py.contains_char ":" l = false
         /\ Py.contains_char ";" l = false).
  { subst split. destruct (Py.contains_char ":" part) eqn:Hcolon.
    - destruct (Py.split_once ":" part) as [label_part [rest|]]; cbn [fst snd] in *.
      + split; [eapply within_trans; [apply within_strip | now apply Hb3]|].
        intros l [= <-]. split; [apply strip_idempotent|]. split.
        * exact (within_absent _ _ _ (within_strip label_part) Hb1).
        * apply (within_absent _ _ part); [|exact Hsemi].
          eapply within_trans; [apply within_strip | exact Hb2].
      + split; [apply within_refl | discriminate].
    - split; [apply within_refl | discriminate]. }
  destruct split as [lbl rest]. cbn [fst snd] in Hsplit. destruct Hsplit as (Hrest & Hlbl).
  destruct (negb (truthy (Some rest))).
  { intros [= <- <- <-]. split; [now split|].
    split; [discriminate|]. split; [discriminate | exact Hlbl]. }
  destruct (match_instruction rest) as [[g1 g2]|] eqn:Hmatch.
  - intros [= <- <- <-].
    destruct (match_instruction_parts _ _ _ Hmatch) as (Hne & Hlow & Hg2).
    split; [split; discriminate|]. split; [now intros m [= <-]|].
    split; [|exact Hlbl].
    intros ops [= <-]. apply operands_clean.
    apply (within_absent _ _ part); [|exact Hsemi].
    eapply within_trans; [exact Hg2 | exact Hrest].
  - intros [= <- <- <-]. split; [now split|].
    split; [discriminate|]. split; [discriminate | exact Hlbl].
Qed.

Lemma parse_line_shape (line : string)
  (label mnemonic : option string) (operands : option (list string)) :
  parse_line line = (label, mnemonic, operands) ->
  (mnemonic = None <-> operands = None)
  /\ (forall m, mnemonic = Some m ->
        m <> EmptyString /\ Py.forallb_string Py.islower_az m = true)
  /\ (forall ops, operands = Some ops -> Forall clean_operand ops)
  /\ (forall l, label = Some l ->
        Py.strip l = l /\ Py.contains_char ":" l = false
        /\ Py.contains_char ";" l = false).
Proof.
  rewrite parse_line_unfold. destruct (blank_or_comment line).
  { intros [= <- <- <-]. split; [now split|].
    split; [discriminate|]. split; discriminate. }
  apply parse_instruction_part_invariants.
  pose proof (split_once_parts ";" (Py.strip line)) as (Hsemi & _).
  exact (within_absent _ _ _ (within_strip _) Hsemi).
Qed.

(** What [parse_line] returns, for every line: operands exactly when
    there is a mnemonic; a mnemonic that is a non-empty run of the
    letters a-z; operands that are non-empty, stripped and free of
    commas and semicolons; a label that is stripped and free of colons
    and semicolons. *)
Theorem parse_line_invariants (line : string)
  (label mnemonic : option string) (operands : option (list string)) :
  parse_line line = (label, mnemonic, operands) ->
  (mnemonic = None <-> operands = None)
  /\ (forall m, mnemonic = Some m ->
        m <> EmptyString /\ Py.forallb_string Py.islower_az m = true)
  /\ (forall ops, operands = Some ops -> Forall clean_operand ops)
  /\ (forall l, label = Some l ->
        Py.strip l = l /\ Py.contains_char ":" l = false
        /\ Py.contains_char ";" l = false).
Proof. exact (parse_line_shape line label mnemonic operands). Qed.

Lemma parse_line_invariants_witness :
  parse_line "  loop:  addu r1 , r2,, -7  ; next"
  = (Some "loop", Some "addu", Some ["r1"; "r2"; "-7"])
  /\ Forall clean_operand ["r1"; "r2"; "-7"].
Proof.
  assert (H : parse_line "  loop:  addu r1 , r2,, -7  ; next"
              = (Some "loop", Some "addu", Some ["r1"; "r2"; "-7"])) by reflexivity.
  destruct (parse_line_invariants _ _ _ _ H) as (_ & _ & Hops & _).
  exact (conj H (Hops _ eq_refl)).
Defined.

End Parser.

(** ** Comments, white space and line numbers *)

Section Lines.

Lemma lstrip_app_blank (s x : string) :
  Py.lstrip s = EmptyString -> Py.lstrip (s ++ x) = Py.lstrip x.
Proof.
  induction s as [|c s IH]; [reflexivity|]. cbn [Py.lstrip append].
  destruct (Py.isspace c); [exact IH | discriminate].
Qed.

Lemma lstrip_app_head (s x : string) (a : ascii) (r : string) :
  Py.lstrip s = String a r -> Py.lstrip (s ++ x) = String a r ++ x.
Proof.
  induction s as [|c s IH]; [discriminate|]. cbn [Py.lstrip append].
  destruct (Py.isspace c); [exact IH | now intros [= -> ->]].
Qed.

Lemma rstrip_app_tail (u x : string) :
  Py.rstrip x <> EmptyString -> Py.rstrip (u ++ x) = u ++ Py.rstrip x.
Proof.
  intros Hx. induction u as [|c u IH]; [reflexivity|].
  cbn [append Py.rstrip]. rewrite IH.
  destruct (u ++ Py.rstrip x) as [|k kept] eqn:Hu; [|reflexivity].
  destruct u; [now cbn in Hu | discriminate].
Qed.

Lemma rstrip_app_blank (s ws : string) :
  Py.forallb_string Py.isspace ws = true -> Py.rstrip (s ++ ws) = Py.rstrip s.
Proof.
  intros Hws. induction s as [|c s IH].
  - cbn [append]. induction ws as [|w ws IHws]; [reflexivity|].
    cbn [Py.forallb_string] in Hws. apply andb_true_iff in Hws as [Hw Hws].
    cbn [Py.rstrip]. now rewrite (IHws Hws), Hw.
  - cbn [append Py.rstrip]. now rewrite IH.
Qed.

Lemma lstrip_blank_app (ws s : string) :
  Py.forallb_string Py.isspace ws = true -> Py.lstrip (ws ++ s) = Py.lstrip s.
Proof.
  induction ws as [|w ws IH]; [reflexivity|]. cbn [Py.forallb_string append Py.lstrip].
  intros H. apply andb_true_iff in H as [-> H]. now apply IH.
Qed.

Lemma strip_surrounded (before s after : string) :
  Py.forallb_string Py.isspace before = true ->
  Py.forallb_string Py.isspace after = true ->
  Py.strip (before ++ s ++ after) = Py.strip s.
Proof.
  intros Hb Ha. unfold Py.strip. rewrite (lstrip_blank_app before _ Hb).
  destruct (Py.lstrip s) as [|a r] eqn:Hs.
  - rewrite (lstrip_app_blank s after Hs). pose proof (lstrip_blank_app after EmptyString Ha) as H.
    rewrite append_empty_r in H. now rewrite H.
  - rewrite (lstrip_app_head s after a r Hs). now apply rstrip_app_blank.
Qed.

Lemma split_once_app (c : ascii) (u x : string) :
  Py.contains_char c u = false -> Py.split_once c (u ++ String c x) = (u, Some x).
Proof.
  induction u as [|a u IH]; cbn [append Py.split_once Py.contains_char].
  - now rewrite Ascii.eqb_refl.
  - intros H. apply orb_false_iff in H as [Ha Hu]. now rewrite Ha, (IH Hu).
Qed.

(** A comment after the code of a line does not change what the line
    parses to. *)
Theorem parse_line_ignores_comment (code comment : string) :
  Py.contains_char ";" code = false ->
  parse_line (code ++ String ";" comment) = parse_line code.
Proof.
  intros Hsemi. rewrite !parse_line_unfold. unfold blank_or_comment, Py.strip.
  assert (Hcomment : Py.rstrip (String ";" comment) = String ";" (Py.rstrip comment))
    by now apply rstrip_cons.
  destruct (Py.lstrip code) as [|a r] eqn:Hcode.
  - rewrite (lstrip_app_blank code _ Hcode).
    change (Py.lstrip (String ";" comment)) with (String ";" comment).
    rewrite Hcomment. reflexivity.
  - rewrite (lstrip_app_head code _ a r Hcode).
    assert (Hspace : Py.isspace a = false).
    { destruct (lstrip_head code) as [H|(c & r' & H & Hc)]; congruence. }
    assert (Hin : Py.contains_char ";" (String a r) = false).
    { rewrite <- Hcode. exact (within_absent _ _ _ (within_lstrip code) Hsemi). }
    assert (Ha : Ascii.eqb a ";" = false).
    { cbn [Py.contains_char] in Hin. now apply orb_false_iff in Hin. }
    rewrite rstrip_app_tail by (rewrite Hcomment; discriminate).
    rewrite Hcomment, (rstrip_cons a r Hspace).
    cbn [append truthy negb Py.startswith_char orb]. rewrite Ha.
    change (String a (r ++ String ";" (Py.rstrip comment)))
      with (String a r ++ String ";" (Py.rstrip comment)).
    rewrite (split_once_app ";" (String a r) _ Hin). cbn [fst].
    assert (Hkept : Py.contains_char ";" (String a (Py.rstrip r)) = false).
    { rewrite <- (rstrip_cons a r Hspace).
      exact (within_absent _ _ _ (within_rstrip _) Hin). }
    destruct (split_once_parts ";" (String a (Py.rstrip r))) as (_ & _ & _ & Hnone & _).
    rewrite (Hnone Hkept). cbn [fst].
    rewrite (lstrip_fixed a r Hspace), (rstrip_cons a r Hspace).
    rewrite (lstrip_fixed a (Py.rstrip r) Hspace), <- (rstrip_cons a r Hspace).
    now rewrite rstrip_idempotent.
Qed.

Lemma parse_line_ignores_comment_witness :
  Py.contains_char ";" "st r0, 4[sp] " = false
  /\ parse_line ("st r0, 4[sp] " ++ String ";" " save r0")
     = parse_line "st r0, 4[sp] ".
Proof.
  assert (H : Py.contains_char ";" "st r0, 4[sp] " = false) by reflexivity.
  exact (conj H (parse_line_ignores_comment "st r0, 4[sp] " " save r0" H)).
Defined.

(** White space, blank lines included, before and after a program does
    not change what [assemble] prints and returns: the line numbers
    count from the first line that is not blank. *)
Theorem assemble_ignores_surrounding_space (before code after : string) :
  Py.forallb_string Py.isspace before = true ->
  Py.forallb_string Py.isspace after = true ->
  assemble (before ++ code ++ after) = assemble code.
Proof.
  intros Hb Ha. unfold assemble. now rewrite (strip_surrounded before code after Hb Ha).
Qed.

Lemma assemble_ignores_surrounding_space_witness :
  Py.forallb_string Py.isspace (String "010" (String "010" "  ")) = true
  /\ Py.forallb_string Py.isspace (String "010" EmptyString) = true
  /\ assemble (String "010" (String "010" "  ") ++ "nop" ++ String "010" EmptyString)
     = assemble "nop".
Proof.
  assert (Hb : Py.forallb_string Py.isspace (String "010" (String "010" "  ")) = true)
    by reflexivity.
  assert (Ha : Py.forallb_string Py.isspace (String "010" EmptyString) = true)
    by reflexivity.
  exact (conj Hb (conj Ha (assemble_ignores_surrounding_space _ "nop" _ Hb Ha))).
Defined.

Lemma process_lines_blank (n : nat) (lines : list string) :
  forallb blank_or_comment lines = true -> process_lines n lines = [].
Proof.
  revert n. induction lines as [|line lines IH]; intros n; [reflexivity|].
  cbn [forallb process_lines]. intros H. apply andb_true_iff in H as [Hline Hrest].
  rewrite (parse_line_blank line Hline). cbn [is_some orb]. now apply IH.
Qed.

(** A program in which every line is blank or a comment, the empty
    program included, assembles to an empty list: only the frame of the
    label map report is printed. *)
Theorem assemble_blank_program (code : string) :
  forallb blank_or_comment (Py.split "010" (Py.strip code)) = true ->
  assemble code
  = (["--- First Pass: Label Map ---"; "------------------------------"], Returns []).
Proof.
  intros H. unfold assemble. now rewrite (process_lines_blank 0 _ H).
Qed.

Lemma assemble_blank_program_witness :
  forallb blank_or_comment
    (Py.split "010" (Py.strip ("; header" ++ String "010" ("   " ++ String "010" ";"))))
  = true
  /\ assemble EmptyString
     = (["--- First Pass: Label Map ---"; "------------------------------"], Returns [])
  /\ assemble ("; header" ++ String "010" ("   " ++ String "010" ";"))
     = (["--- First Pass: Label Map ---"; "------------------------------"], Returns []).
Proof.
  assert (H : forallb blank_or_comment
                (Py.split "010"
                   (Py.strip ("; header" ++ String "010" ("   " ++ String "010" ";"))))
              = true) by reflexivity.
  exact (conj H (conj (assemble_blank_program EmptyString eq_refl)
                      (assemble_blank_program _ H))).
Defined.

Lemma process_lines_from (n : nat) (lines : list string) :
  Forall (fun e =>
            (n <= line_num e)%nat
            /\ nth_error lines (line_num e - n) = Some (raw_line e)
            /\ parse_line (raw_line e) = (label e, mnemonic e, operands e)
            /\ is_some (mnemonic e) || is_some (label e) = true)
    (process_lines n lines).
Proof.
  revert n. induction lines as [|line lines IH]; intros n; [constructor|].
  assert (Hrest : Forall (fun e =>
            (n <= line_num e)%nat
            /\ nth_error (line :: lines) (line_num e - n) = Some (raw_line e)
            /\ parse_line (raw_line e) = (label e, mnemonic e, operands e)
            /\ is_some (mnemonic e) || is_some (label e) = true)
          (process_lines (S n) lines)).
  { eapply Forall_impl; [|exact (IH (S n))]. intros e (Hle & Hnth & Hparse & Hsome).
    split; [lia|]. split; [|now split].
    replace (line_num e - n)%nat with (S (line_num e - S n)) by lia. exact Hnth. }
  cbn [process_lines]. destruct (parse_line line) as [[l m] ops] eqn:Hparse.
  destruct (is_some m || is_some l) eqn:Hsome; [|exact Hrest].
  constructor; [|exact Hrest]. cbn [line_num raw_line label mnemonic operands].
  rewrite Nat.sub_diag. now repeat split.
Qed.

Lemma process_lines_sorted (n : nat) (lines : list string) :
  StronglySorted lt (map line_num (process_lines n lines)).
Proof.
  revert n. induction lines as [|line lines IH]; intros n; [constructor|].
  cbn [process_lines]. destruct (parse_line line) as [[l m] ops].
  destruct (is_some m || is_some l); [|apply IH].
  cbn [map line_num]. constructor; [apply IH|].
  apply Forall_map. eapply Forall_impl; [|exact (process_lines_from (S n) lines)].
  intros e (Hle & _). cbn. lia.
Qed.

Lemma process_lines_parsed (lines : list string) :
  Forall (fun e =>
            nth_error lines (line_num e) = Some (raw_line e)
            /\ parse_line (raw_line e) = (label e, mnemonic e, operands e)
            /\ is_some (mnemonic e) || is_some (label e) = true)
    (process_lines 0 lines)
  /\ StronglySorted lt (map line_num (process_lines 0 lines)).
Proof.
  split; [|apply process_lines_sorted].
  eapply Forall_impl; [|exact (process_lines_from 0 lines)].
  intros e (_ & Hnth & Hparse & Hsome). rewrite Nat.sub_0_r in Hnth. now repeat split.
Qed.

(** Every entry of [processed_lines] records a line of the input: its
    number is the index of its text among the lines, its label, mnemonic
    and operands are what [parse_line] returns for that text, one of the
    first two is present, and the numbers increase along the list. *)
Theorem process_lines_entries (lines : list string) :
  Forall (fun e =>
            nth_error lines (line_num e) = Some (raw_line e)
            /\ parse_line (raw_line e) = (label e, mnemonic e, operands e)
            /\ is_some (mnemonic e) || is_some (label e) = true)
    (process_lines 0 lines)
  /\ StronglySorted lt (map line_num (process_lines 0 lines)).
Proof. exact (process_lines_parsed lines). Qed.

End Lines.

(** ** The label map *)

Section LabelMap.

Lemma existsb_last {A : Type} (f : A -> bool) (l : list A) :
  existsb f l = true ->
  exists pre x post, l = (pre ++ x :: post)%list /\ f x = true /\ existsb f post = false.
Proof.
  induction l as [|a l IH]; [discriminate|]. cbn [existsb].
  destruct (existsb f l) eqn:Hl.
  - intros _. destruct (IH eq_refl) as (pre & x & post & -> & Hx & Hpost).
    now exists (a :: pre), x, post.
  - rewrite orb_false_r. intros Ha. now exists [], a, l.
Qed.

Lemma pass1_step_empty_label (st : dict Z * Z) (e : entry) :
  dict_get (fst st) EmptyString = None ->
  dict_get (fst (pass1_step st e)) EmptyString = None.
Proof.
  destruct st as [label_map address]. unfold pass1_step. cbn [fst].
  destruct (label e) as [[|c l]|]; try easy.
  intros H. now rewrite dict_get_set_other.
Qed.

Lemma pass1_from_empty_label (st : dict Z * Z) (entries : list entry) :
  dict_get (fst st) EmptyString = None ->
  dict_get (fst (pass1_from st entries)) EmptyString = None.
Proof.
  revert st. induction entries as [|e entries IH]; intros st Hst; [exact Hst|].
  change (pass1_from st (e :: entries)) with (pass1_from (pass1_step st e) entries).
  now apply IH, pass1_step_empty_label.
Qed.

(** The keys of the label map are exactly the non-empty labels of the
    program: a label that no entry carries is not in the map, a label
    that some entry carries is, and the empty label (a line that starts
    with a colon) never is. *)
Theorem label_map_domain (entries : list entry) (l : string) :
  dict_get (fst (pass1 entries)) EmptyString = None
  /\ (l <> EmptyString ->
      (dict_get (fst (pass1 entries)) l = None
       <-> existsb (defines l) entries = false)).
Proof.
  split; [now apply pass1_from_empty_label|].
  intros Hne. split.
  - intros Hget. destruct (existsb (defines l) entries) eqn:Hex; [|reflexivity].
    destruct (existsb_last _ _ Hex) as (pre & e & post & -> & He & Hpost).
    assert (Hl : label e = Some l).
    { unfold defines in He. destruct (label e) as [l'|]; [|discriminate].
      apply String.eqb_eq in He. now subst. }
    rewrite (pass1_last_binding pre post e l Hl Hne Hpost) in Hget. discriminate.
  - intros Hex. unfold pass1. now rewrite (pass1_from_other _ _ _ Hex).
Qed.

Lemma label_map_domain_witness :
  let entries := process_lines 0 ["start: nop"; ": nop"; "b start"] in
  "start" <> EmptyString
  /\ dict_get (fst (pass1 entries)) "start" = Some 0
  /\ dict_get (fst (pass1 entries)) "finish" = None.
Proof.
  intros entries.
  assert (Hne : "finish" <> EmptyString) by discriminate.
  destruct (label_map_domain entries "finish") as (_ & Hdom).
  split; [discriminate|]. split; [reflexivity|].
  exact (proj2 (Hdom Hne) eq_refl).
Defined.

Lemma pass1_from_bounded (label_map : dict Z) (address : Z) (entries : list entry) :
  0 <= address ->
  (forall k v, dict_get label_map k = Some v -> 0 <= v <= address) ->
  forall k v,
    dict_get (fst (pass1_from (label_map, address) entries)) k = Some v ->
    0 <= v <= address + count_instructions entries.
Proof.
  revert label_map address. induction entries as [|e entries IH];
    intros label_map address Haddr Hmap k v.
  - unfold count_instructions. cbn. intros H. specialize (Hmap k v H). lia.
  - change (pass1_from (label_map, address) (e :: entries))
      with (pass1_from (pass1_step (label_map, address) e) entries).
    rewrite count_instructions_cons.
    destruct (pass1_step (label_map, address) e) as [label_map' address'] eqn:Hstep.
    unfold pass1_step in Hstep. injection Hstep as Hmap' Haddr'.
    assert (Hnext : address <= address' <= address + (if instruction_bearing e then 1 else 0)).
    { subst address'. unfold instruction_bearing. destruct (truthy (mnemonic e)); lia. }
    intros Hget. apply IH in Hget; [lia | lia |].
    intros k' v' Hk'. subst label_map'.
    destruct (label e) as [[|c l]|]; try (specialize (Hmap k' v' Hk'); lia).
    destruct (String.eqb_spec (String c l) k') as [<-|Hne].
    + rewrite dict_get_set_same in Hk'. injection Hk' as <-. lia.
    + rewrite (dict_get_set_other _ _ _ _ Hne) in Hk'. specialize (Hmap k' v' Hk'). lia.
Qed.

(** Every address in the label map lies between 0 and the number of
    instructions of the program. The upper end is reached: a label with
    no instruction after it is bound to the number of instructions, the
    address after the last one, and nothing is reported. *)
Theorem label_addresses_bounded (entries : list entry) :
  (forall l address,
      dict_get (fst (pass1 entries)) l = Some address ->
      0 <= address <= count_instructions entries)
  /\ (forall pre e post l,
        entries = (pre ++ e :: post)%list ->
        label e = Some l -> l <> EmptyString ->
        existsb (defines l) post = false ->
        forallb (fun x => negb (instruction_bearing x)) (e :: post) = true ->
        dict_get (fst (pass1 entries)) l = Some (count_instructions entries)).
Proof.
  split.
  - intros l address Hget.
    apply (pass1_from_bounded [] 0 entries) in Hget; [lia | lia | discriminate].
  - intros pre e post l -> Hl Hne Hpost Hnone.
    rewrite (pass1_last_binding pre post e l Hl Hne Hpost).
    now rewrite count_instructions_app, (count_instructions_none _ Hnone), Z.add_0_r.
Qed.

Lemma label_addresses_bounded_witness :
  let entries := process_lines 0 ["nop"; "nop"; "end:"] in
  dict_get (fst (pass1 entries)) "end" = Some 2
  /\ 0 <= 2 <= count_instructions entries.
Proof.
  intros entries.
  assert (Hget : dict_get (fst (pass1 entries)) "end" = Some 2) by reflexivity.
  exact (conj Hget (proj1 (label_addresses_bounded entries) "end" 2 Hget)).
Defined.

End LabelMap.

(** ** The output and the source lines *)

Section Output.

Lemma subseq_nil {A : Type} (l : list A) : subseq [] l.
Proof. induction l; now constructor. Qed.

Lemma subseq_Forall {A : Type} (P : A -> Prop) (a b : list A) :
  subseq a b -> Forall P b -> Forall P a.
Proof.
  induction 1; intros Hb; [constructor | |]; inversion Hb; subst; auto.
Qed.

Lemma subseq_map {A B : Type} (f : A -> B) (a b : list A) :
  subseq a b -> subseq (map f a) (map f b).
Proof. induction 1; cbn [map]; now constructor. Qed.

Lemma subseq_sorted {A : Type} (R : A -> A -> Prop) (a b : list A) :
  subseq a b -> StronglySorted R b -> StronglySorted R a.
Proof.
  induction 1 as [|x a b Hab IH|x a b Hab IH]; intros Hb; [constructor | |];
    inversion Hb as [|? ? Hsorted Hall]; subst; [now apply IH|].
  constructor; [now apply IH | exact (subseq_Forall _ _ _ Hab Hall)].
Qed.

Lemma pass2_from_items (label_map : dict Z) (st st' : state) (entries : list entry)
  (exception : option exn) :
  pass2_from label_map st entries = (st', exception) ->
  exists items,
    machine_code st' = (machine_code st ++ items)%list
    /\ subseq (map item_key items) (map entry_key entries).
Proof.
  revert st. induction entries as [|e entries IH]; intros st; cbn [pass2_from].
  - intros [= <- _]. exists []. split; [now rewrite app_nil_r | constructor].
  - destruct (pass2_step label_map st e) as [st1|exception'] eqn:Hstep.
    + intros Hrest. destruct (IH st1 Hrest) as (items & Hitems & Hsub).
      destruct (pass2_step_result _ _ _ _ Hstep)
        as [_ Hmc _ _|word _ _ _ Hmc _ _|message _ Hmc _ _|message _ Hmc _ _];
        rewrite Hitems, Hmc; try rewrite <- app_assoc;
        eexists; (split; [reflexivity|]); cbn [map app];
        solve [now apply SubTake | now apply SubSkip].
    + intros [= <- _]. exists []. split; [now rewrite app_nil_r | apply subseq_nil].
Qed.

(** The list [assemble] returns follows the source: its elements come
    in increasing line number, and each carries the text that the
    stripped program has at that line. *)
Theorem machine_code_follows_source (code : string) (out : list string)
  (mc : list item) :
  assemble code = (out, Returns mc) ->
  StronglySorted lt (map item_line mc)
  /\ Forall (fun it =>
               nth_error (Py.split "010" (Py.strip code)) (item_line it)
               = Some (item_text it)) mc.
Proof.
  unfold assemble, assemble_entries.
  set (lines := Py.split "010" (Py.strip code)).
  destruct (pass1 (process_lines 0 lines)) as [label_map address].
  destruct (pass2_from label_map _ (process_lines 0 lines)) as [st exception] eqn:Hrun.
  destruct exception as [exception|]; [discriminate|]. intros [= _ <-].
  destruct (pass2_from_items _ _ _ _ _ Hrun) as (items & Hitems & Hsub).
  cbn [machine_code app] in Hitems. subst items.
  destruct (process_lines_parsed lines) as (Hentries & Hsorted).
  split.
  - apply (subseq_sorted lt _ (map line_num (process_lines 0 lines))); [|exact Hsorted].
    apply (subseq_map fst) in Hsub. now rewrite !map_map in Hsub.
  - assert (Hkeys : Forall (fun k => nth_error lines (fst k) = Some (snd k))
                      (map entry_key (process_lines 0 lines))).
    { apply Forall_map. eapply Forall_impl; [|exact Hentries]. now intros e (H & _). }
    apply (subseq_Forall _ _ _ Hsub) in Hkeys. now apply Forall_map in Hkeys.
Qed.

Lemma machine_code_follows_source_witness :
  assemble ("nop" ++ String "010" ("; note" ++ String "010" "ret"))
  = (["--- First Pass: Label Map ---"; "------------------------------"],
     Returns [(0%nat, "nop", Some "01101000000000000000000000000000");
              (2%nat, "ret", Some "10100000000000000000000000000000")])
  /\ StronglySorted lt [0%nat; 2%nat].
Proof.
  assert (H : assemble ("nop" ++ String "010" ("; note" ++ String "010" "ret"))
              = (["--- First Pass: Label Map ---"; "------------------------------"],
                 Returns [(0%nat, "nop", Some "01101000000000000000000000000000");
                          (2%nat, "ret", Some "10100000000000000000000000000000")]))
    by reflexivity.
  exact (conj H (proj1 (machine_code_follows_source _ _ _ H))).
Defined.

End Output.

(** ** Exceptions *)

Section Exceptions.

Lemma benign_bind {A B : Type} (m : control A) (k : A -> control B) :
  benign m -> (forall a, benign (k a)) -> benign (bind m k).
Proof.
  intros [Hm1 Hm2] Hk. destruct m as [a|message|e]; cbn [bind]; [apply Hk | |].
  - split; discriminate.
  - split; congruence.
Qed.

Lemma benign_normal {A : Type} (a : A) : benign (Normal a).
Proof. split; discriminate. Qed.

Lemma benign_continue {A : Type} (message : string) : benign (@Continue A message).
Proof. split; discriminate. Qed.

Lemma benign_operand_at (ops : list string) (i : nat) : benign (operand_at (Some ops) i).
Proof. cbn [operand_at]. destruct (nth_error ops i); split; discriminate. Qed.

Lemma py_int_cases (x : string) :
  (exists v, py_int x = Normal v) \/ py_int x = Raise ValueError.
Proof.
  unfold py_int. destruct (Py.startswith_char "-" x).
  - destruct (Py.slice_from 1 x) as [|c t]; [now right|].
    destruct (Py.forallb_string _ _); [|now right].
    destruct (_ <=? _)%nat; [left; eexists; reflexivity | now right].
  - destruct x as [|c t]; [now right|].
    destruct (Py.forallb_string _ _); [|now right].
    destruct (_ <=? _)%nat; [left; eexists; reflexivity | now right].
Qed.

Lemma benign_py_int (x : string) : benign (py_int x).
Proof.
  destruct (py_int_cases x) as [(v & ->)| ->]; split; discriminate.
Qed.

Lemma benign_last_operand (opcode : string) (ops : list string) (i : nat)
  (field : string) (l : locals) :
  benign (last_operand opcode (Some ops) i field l).
Proof.
  unfold last_operand. cbn [operands_len bind].
  destruct (i <? List.length ops)%nat; [|apply benign_normal].
  apply benign_bind; [apply benign_operand_at|]. intros x.
  destruct (is_immediate x); [|apply benign_normal].
  apply benign_bind; [apply benign_py_int | intros v; apply benign_normal].
Qed.

Lemma benign_encode_operands (m opcode : string) (ops : list string) (raw : string) :
  benign (encode_operands m opcode (Some ops) raw).
Proof.
  unfold encode_operands. apply benign_bind; [|intros l; apply benign_normal].
  destruct (in_list m compare_mnemonics).
  { apply benign_bind; [apply benign_operand_at|]. intros x0. apply benign_last_operand. }
  destruct (in_list m arithmetic_mnemonics).
  { apply benign_bind; [apply benign_operand_at|]. intros x0.
    apply benign_bind; [apply benign_operand_at|]. intros x1. apply benign_last_operand. }
  destruct (in_list m move_mnemonics).
  { apply benign_bind; [apply benign_operand_at|]. intros x0. apply benign_last_operand. }
  destruct (in_list m memory_mnemonics); [|apply benign_normal].
  apply benign_bind; [apply benign_operand_at|]. intros x0.
  apply benign_bind; [apply benign_operand_at|]. intros x1.
  destruct (match_mem_operand x1) as [[offset_str rs1_name]|]; [|apply benign_continue].
  apply benign_bind; [|intros v; apply benign_normal].
  destruct (truthy (Some offset_str)); [apply benign_py_int | apply benign_normal].
Qed.

Lemma benign_encode_instruction (label_map : dict Z) (address : Z) (m : string)
  (ops : list string) (raw : string) :
  benign (encode_instruction label_map address m (Some ops) raw).
Proof.
  unfold encode_instruction.
  destruct (negb (truthy (dict_get OPCODES m))); [apply benign_continue|].
  destruct (in_list m ["beq"; "bgt"; "b"; "call"; "ret"]).
  { unfold encode_branch. apply benign_bind; [|intros b; apply benign_normal].
    destruct (String.eqb m "ret"); [apply benign_normal|].
    apply benign_bind; [apply benign_operand_at|]. intros target.
    destruct (dict_get label_map target); [apply benign_normal | apply benign_continue]. }
  destruct (immediate_or_register m); [apply benign_encode_operands|].
  destruct (String.eqb m "nop"); [apply benign_normal|].
  destruct (String.eqb m "ret"); [apply benign_normal | apply benign_continue].
Qed.

Lemma pass2_from_benign (label_map : dict Z) (st st' : state) (entries : list entry)
  (e : exn) :
  Forall (fun x => mnemonic x = None <-> operands x = None) entries ->
  pass2_from label_map st entries = (st', Some e) ->
  e = IndexError \/ e = ValueError.
Proof.
  intros Hentries. revert st. induction Hentries as [|x entries Hx _ IH]; intros st;
    cbn [pass2_from]; [discriminate|].
  destruct (pass2_step label_map st x) as [st1|exception] eqn:Hstep; [apply IH|].
  intros [= _ <-]. unfold pass2_step in Hstep.
  destruct (mnemonic x) as [[|c m]|] eqn:Hm; try discriminate.
  destruct (operands x) as [ops|] eqn:Hops; [|destruct Hx as [_ Hx]; now specialize (Hx eq_refl)].
  destruct (benign_encode_instruction label_map (current_address st) (String c m) ops
              (raw_line x)) as [H1 H2].
  destruct (encode_instruction label_map (current_address st) (String c m) (Some ops)
              (raw_line x)) as [[[|c' w]|]|message|exception'];
    try discriminate.
  - destruct (negb _) in Hstep; discriminate.
  - injection Hstep as <-. destruct exception'; auto; congruence.
Qed.

(** On a source text [assemble] raises nothing but [IndexError] (a
    missing operand) and [ValueError] (a literal that [int] rejects):
    the operands of a parsed line with a mnemonic are a list, and both
    mnemonics looked up with brackets are in the opcode table. *)
Theorem assemble_raises_only (code : string) (out : list string) (e : exn) :
  assemble code = (out, Raises e) -> e = IndexError \/ e = ValueError.
Proof.
  unfold assemble, assemble_entries.
  set (entries := process_lines 0 (Py.split "010" (Py.strip code))).
  destruct (pass1 entries) as [label_map address].
  destruct (pass2_from label_map _ entries) as [st exception] eqn:Hrun.
  destruct exception as [exception|]; [|discriminate]. intros [= _ <-].
  apply (pass2_from_benign _ _ _ _ _) in Hrun; [exact Hrun|].
  destruct (process_lines_parsed (Py.split "010" (Py.strip code))) as (Hentries & _).
  eapply Forall_impl; [|exact Hentries]. intros x (_ & Hparse & _).
  exact (proj1 (parse_line_shape _ _ _ _ Hparse)).
Qed.

Lemma assemble_raises_only_witness :
  assemble "cmp"
  = (["--- First Pass: Label Map ---"; "------------------------------"],
     Raises IndexError)
  /\ (IndexError = IndexError \/ IndexError = ValueError).
Proof.
  assert (H : assemble "cmp"
              = (["--- First Pass: Label Map ---"; "------------------------------"],
                 Raises IndexError)) by reflexivity.
  exact (conj H (assemble_raises_only _ _ _ H)).
Defined.

End Exceptions.

(** ** Operands *)

Section Operands.

Lemma length_opcode (m opcode : string) :
  dict_get OPCODES m = Some opcode -> String.length opcode = 5%nat.
Proof.
  apply (dict_get_Forall (fun b => String.length b = 5%nat)). repeat constructor.
Qed.

Lemma immediate_stage_pending (m opcode rd rs1 : string) (v : Z) :
  immediate_stage m opcode
    {| I_bit := "1"; rd_bin := rd; rs1_bin := rs1; immediate_val := Some v;
       assembled_instruction := None |}
  = Some (opcode ++ "1" ++ rd ++ rs1 ++ modifier_bits m ++ to_binary v 16 true).
Proof.
  unfold immediate_stage, modifier_bits.
  cbn [I_bit rd_bin rs1_bin immediate_val assembled_instruction].
  change (String.eqb "1" "1") with true. cbv iota zeta.
  destruct (in_list m MODIFIER_OPCODES); [|reflexivity].
  destruct (match Py.last_char m with Some c => Ascii.eqb c "u" | None => false end);
    reflexivity.
Qed.

Lemma last_operand_immediate (opcode : string) (pre rest : list string) (x : string)
  (field : string) (l : locals) (v : Z) :
  is_immediate x = true -> py_int x = Normal v ->
  last_operand opcode (Some (pre ++ x :: rest)%list) (List.length pre) field l
  = Normal {| I_bit := "1"; rd_bin := rd_bin l; rs1_bin := rs1_bin l;
              immediate_val := Some v;
              assembled_instruction := assembled_instruction l |}.
Proof.
  intros Himm Hint. unfold last_operand. cbn [operands_len operand_at bind].
  rewrite length_app. cbn [List.length].
  replace (List.length pre <? List.length pre + S (List.length rest))%nat with true
    by (symmetry; apply Nat.ltb_lt; lia).
  rewrite nth_error_app2, Nat.sub_diag by lia. cbn [nth_error bind].
  now rewrite Himm, Hint.
Qed.

Lemma encode_immediate (label_map : dict Z) (address : Z) (m : string)
  (ops : list string) (x rd rs1 raw : string) (v : Z) :
  immediate_operands m ops x rd rs1 ->
  is_immediate x = true -> py_int x = Normal v ->
  exists opcode,
    dict_get OPCODES m = Some opcode
    /\ String.length opcode = 5%nat
    /\ String.length rd = 4%nat /\ String.length rs1 = 4%nat
    /\ immediate_or_register m = true
    /\ encode_instruction label_map address m (Some ops) raw
       = Normal (Some (opcode ++ "1" ++ rd ++ rs1 ++ modifier_of_suffix m
                       ++ to_binary v 16 true)).
Proof.
  intros Hops Himm Hint.
  assert (Hclass : immediate_or_register m = true).
  { destruct Hops as [(H & _)|[(H & _)|(H & _)]]; each_mnemonic H ltac:(reflexivity). }
  destruct (encode_instruction_class m Hclass) as (opcode & Hop & Hlen & Henc).
  exists opcode. rewrite Henc, <- (modifier_bits_suffix m Hclass).
  split; [exact Hop|]. split; [exact Hlen|].
  destruct Hops as [(H & x0 & x1 & rest & -> & -> & ->)
                   |[(H & x0 & rest & -> & -> & ->)|(H & x0 & rest & -> & -> & ->)]].
  - split; [apply length_register_bits|]. split; [apply length_register_bits|].
    split; [exact Hclass|].
    assert (Hdispatch : in_list m compare_mnemonics = false)
      by (each_mnemonic H ltac:(reflexivity)).
    assert (Hdispatch' : in_list m arithmetic_mnemonics = true)
      by (each_mnemonic H ltac:(reflexivity)).
    unfold encode_operands. rewrite Hdispatch, Hdispatch'. unfold operands_arith.
    cbn [operand_at nth_error bind].
    rewrite (last_operand_immediate opcode [x0; x1] rest x _ _ v Himm Hint).
    cbn [bind]. now rewrite <- immediate_stage_pending.
  - split; [reflexivity|]. split; [apply length_register_bits|].
    split; [exact Hclass|].
    unfold encode_operands. rewrite H. unfold operands_cmp.
    cbn [operand_at nth_error bind].
    rewrite (last_operand_immediate opcode [x0] rest x _ _ v Himm Hint).
    cbn [bind]. now rewrite <- immediate_stage_pending.
  - split; [apply length_register_bits|]. split; [reflexivity|].
    split; [exact Hclass|].
    assert (Hd1 : in_list m compare_mnemonics = false)
      by (each_mnemonic H ltac:(reflexivity)).
    assert (Hd2 : in_list m arithmetic_mnemonics = false)
      by (each_mnemonic H ltac:(reflexivity)).
    assert (Hd3 : in_list m move_mnemonics = true)
      by (each_mnemonic H ltac:(reflexivity)).
    unfold encode_operands. rewrite Hd1, Hd2, Hd3. unfold operands_mov.
    cbn [operand_at nth_error bind].
    rewrite (last_operand_immediate opcode [x0] rest x _ _ v Himm Hint).
    cbn [bind]. now rewrite <- immediate_stage_pending.
Qed.

Lemma immediate_word (opcode rd rs1 modifier imm : string) :
  String.length opcode = 5%nat -> String.length rd = 4%nat ->
  String.length rs1 = 4%nat -> String.length modifier = 2%nat ->
  Py.slice_from 16 (opcode ++ "1" ++ rd ++ rs1 ++ modifier ++ imm) = imm
  /\ String.length (opcode ++ "1" ++ rd ++ rs1 ++ modifier ++ imm)
     = (16 + String.length imm)%nat
  /\ is_bitstring (opcode ++ "1" ++ rd ++ rs1 ++ modifier ++ imm)
     = is_bitstring (opcode ++ "1" ++ rd ++ rs1 ++ modifier) && is_bitstring imm.
Proof.
  intros Hop Hrd Hrs1 Hmod.
  destruct (length_5 _ Hop) as (o1 & o2 & o3 & o4 & o5 & ->).
  destruct (length_4 _ Hrd) as (d1 & d2 & d3 & d4 & ->).
  destruct (length_4 _ Hrs1) as (s1 & s2 & s3 & s4 & ->).
  destruct modifier as [|m1 [|m2 [|m3 modifier]]]; try discriminate.
  split; [reflexivity|]. split; [reflexivity|].
  unfold is_bitstring. cbn [append Py.forallb_string].
  rewrite andb_true_r. now rewrite !andb_assoc.
Qed.

Lemma length_modifier_of_suffix (m : string) :
  String.length (modifier_of_suffix m) = 2%nat.
Proof.
  unfold modifier_of_suffix. destruct (Py.last_char m) as [c|]; [|reflexivity].
  destruct c as [[] [] [] [] [] [] [] []]; reflexivity.
Qed.

Lemma pass2_step_word (label_map : dict Z) (st : state) (e : entry) (m word : string) :
  mnemonic e = Some m ->
  encode_instruction label_map (current_address st) m (operands e) (raw_line e)
  = Normal (Some word) ->
  String.length word = 32%nat ->
  pass2_step label_map st e
  = inl {| machine_code := machine_code st ++ [(line_num e, raw_line e, Some word)];
           current_address := current_address st + 1;
           stdout := stdout st |}.
Proof.
  intros Hm Henc Hlen. unfold pass2_step. rewrite Hm.
  destruct m as [|c m]; [discriminate|]. rewrite Henc.
  destruct (encode_instruction_truthy _ _ _ _ _ _ Henc) as (c' & w & [= ->]).
  apply Nat.eqb_eq in Hlen. now rewrite Hlen.
Qed.

(** An immediate in the signed 16-bit range goes round: for a literal
    that [int] reads as [v], written where the arithmetic, compare and
    move mnemonics look for an immediate, the word has 32 characters,
    I = 1, the register fields of the other operands, the modifier of
    the mnemonic, and sixteen last characters that read back as [v]. *)
Theorem immediate_field_roundtrip (label_map : dict Z) (address : Z) (m : string)
  (ops : list string) (x rd rs1 raw : string) (v : Z) :
  immediate_operands m ops x rd rs1 ->
  is_immediate x = true -> py_int x = Normal v ->
  in_domain v 16 true ->
  exists opcode word,
    dict_get OPCODES m = Some opcode
    /\ encode_instruction label_map address m (Some ops) raw = Normal (Some word)
    /\ word = opcode ++ "1" ++ rd ++ rs1 ++ modifier_of_suffix m ++ to_binary v 16 true
    /\ String.length word = 32%nat
    /\ signed_value (Py.slice_from 16 word) = v.
Proof.
  intros Hops Himm Hint Hdom.
  destruct (encode_immediate label_map address m ops x rd rs1 raw v Hops Himm Hint)
    as (opcode & Hop & Hlen & Hrd & Hrs1 & _ & Henc).
  destruct (to_binary_signed v 16 ltac:(lia) Hdom) as (Hw & _ & Hval).
  destruct (immediate_word opcode rd rs1 (modifier_of_suffix m) (to_binary v 16 true)
              Hlen Hrd Hrs1 (length_modifier_of_suffix m)) as (Hslice & Hlength & _).
  exists opcode, (opcode ++ "1" ++ rd ++ rs1 ++ modifier_of_suffix m
                  ++ to_binary v 16 true).
  rewrite Hslice, Hlength, Hw, Hval. now repeat split.
Qed.

Lemma immediate_field_roundtrip_witness :
  immediate_operands "subh" ["r3"; "sp"; "-12"] "-12" "0011" "1110"
  /\ exists word,
       encode_instruction [] 0 "subh" (Some ["r3"; "sp"; "-12"]) "subh r3, sp, -12"
       = Normal (Some word)
       /\ signed_value (Py.slice_from 16 word) = -12.
Proof.
  assert (Hops : immediate_operands "subh" ["r3"; "sp"; "-12"] "-12" "0011" "1110").
  { left. split; [reflexivity|]. now exists "r3", "sp", []. }
  assert (Hdom : in_domain (-12) 16 true) by (unfold in_domain; simpl; lia).
  destruct (immediate_field_roundtrip [] 0 "subh" _ "-12" _ _ "subh r3, sp, -12" (-12)
              Hops eq_refl eq_refl Hdom) as (opcode & word & _ & Henc & _ & _ & Hval).
  split; [exact Hops|]. exists word. now split.
Defined.

(** An immediate in the half range just below [-2^16] slips through the
    length test: the loop appends for the line 32 characters that are
    not all binary digits, prints nothing and advances the address. *)
Theorem negative_immediate_escapes_length_test (label_map : dict Z) (st : state)
  (e : entry) (m : string) (ops : list string) (x rd rs1 : string) (v : Z) :
  mnemonic e = Some m -> operands e = Some ops ->
  immediate_operands m ops x rd rs1 ->
  is_immediate x = true -> py_int x = Normal v ->
  - 2 ^ 16 - 2 ^ 15 < v < - 2 ^ 16 ->
  exists word,
    pass2_step label_map st e
    = inl {| machine_code := machine_code st ++ [(line_num e, raw_line e, Some word)];
             current_address := current_address st + 1;
             stdout := stdout st |}
    /\ String.length word = 32%nat
    /\ is_bitstring word = false.
Proof.
  intros Hm Hops Himmops Himm Hint Hv.
  destruct (encode_immediate label_map (current_address st) m ops x rd rs1 (raw_line e) v
              Himmops Himm Hint) as (opcode & Hop & Hlen & Hrd & Hrs1 & _ & Henc).
  destruct (to_binary_below_range v 16 ltac:(lia) Hv) as (Hw & Hbits).
  destruct (immediate_word opcode rd rs1 (modifier_of_suffix m) (to_binary v 16 true)
              Hlen Hrd Hrs1 (length_modifier_of_suffix m)) as (_ & Hlength & Hsplit).
  eexists. split; [|split].
  - apply (pass2_step_word _ _ _ m); [exact Hm | rewrite Hops; exact Henc|].
    now rewrite Hlength, Hw.
  - now rewrite Hlength, Hw.
  - rewrite Hsplit, Hbits. apply andb_false_r.
Qed.

Lemma negative_immediate_escapes_length_test_witness :
  let e := {| line_num := 0; label := None; mnemonic := Some "add";
              operands := Some ["r1"; "r2"; "-70000"];
              raw_line := "add r1, r2, -70000" |} in
  pass2_step [] (initial []) e
  = inl {| machine_code :=
             [(0%nat, "add r1, r2, -70000", Some "000001000100100000b1000101110000")];
           current_address := 1; stdout := [] |}
  /\ exists word, String.length word = 32%nat /\ is_bitstring word = false.
Proof.
  intros e.
  assert (Hops : immediate_operands "add" ["r1"; "r2"; "-70000"] "-70000" "0001" "0010").
  { left. split; [reflexivity|]. now exists "r1", "r2", []. }
  assert (Hv : - 2 ^ 16 - 2 ^ 15 < - 70000 < - 2 ^ 16) by (simpl; lia).
  destruct (negative_immediate_escapes_length_test [] (initial []) e "add" _ "-70000" _ _
              (-70000) eq_refl eq_refl Hops eq_refl eq_refl Hv)
    as (word & _ & Hlen & Hbits).
  split; [reflexivity|]. exists word. now split.
Defined.

(** A missing last operand is read as the immediate 0: an arithmetic
    mnemonic with two operands, and a compare or move mnemonic with one,
    leave the state that the same line with a final [0] leaves. No
    message is printed for the missing operand. *)
Theorem missing_last_operand_is_zero (label_map : dict Z) (st : state) (e : entry)
  (m : string) :
  mnemonic e = Some m ->
  let step ops := pass2_step label_map st (with_operands e ops) in
  (in_list m arithmetic_mnemonics = true ->
   forall x0 x1, step [x0; x1] = step [x0; x1; "0"])
  /\ (in_list m compare_mnemonics = true -> forall x0, step [x0] = step [x0; "0"])
  /\ (in_list m move_mnemonics = true -> forall x0, step [x0] = step [x0; "0"]).
Proof.
  intros Hm step. split; [|split]; intros Hin x0; intros;
    apply (pass2_step_operands _ _ _ m); try exact Hm.
  - destruct (encode_arithmetic m Hin) as (opcode & Heq). now rewrite !Heq.
  - now rewrite !(encode_compare m Hin).
  - destruct (encode_move m Hin) as (opcode & Heq). now rewrite !Heq.
Qed.

Lemma missing_last_operand_is_zero_witness :
  let e := {| line_num := 0; label := None; mnemonic := Some "add";
              operands := Some ["r1"; "r2"]; raw_line := "add r1, r2" |} in
  pass2_step [] (initial []) (with_operands e ["r1"; "r2"])
  = pass2_step [] (initial []) (with_operands e ["r1"; "r2"; "0"])
  /\ pass2_step [] (initial []) e
     = inl {| machine_code :=
                [(0%nat, "add r1, r2", Some "00000100010010000000000000000000")];
              current_address := 1; stdout := [] |}.
Proof.
  intros e.
  destruct (missing_last_operand_is_zero [] (initial []) e "add" eq_refl) as (H & _).
  exact (conj (H eq_refl "r1" "r2") eq_refl).
Defined.

(** Operands after the ones a mnemonic reads are ignored: one for a
    branch or call, two for the compare, move and memory mnemonics,
    three for the arithmetic ones. No message is printed for them. *)
Theorem extra_operands_ignored (label_map : dict Z) (st : state) (e : entry)
  (m : string) :
  mnemonic e = Some m ->
  let step ops := pass2_step label_map st (with_operands e ops) in
  (in_list m ["beq"; "bgt"; "b"; "call"] = true ->
   forall x0 rest, step (x0 :: rest) = step [x0])
  /\ (in_list m compare_mnemonics = true ->
      forall x0 x1 rest, step (x0 :: x1 :: rest) = step [x0; x1])
  /\ (in_list m move_mnemonics = true ->
      forall x0 x1 rest, step (x0 :: x1 :: rest) = step [x0; x1])
  /\ (in_list m memory_mnemonics = true ->
      forall x0 x1 rest, step (x0 :: x1 :: rest) = step [x0; x1])
  /\ (in_list m arithmetic_mnemonics = true ->
      forall x0 x1 x2 rest, step (x0 :: x1 :: x2 :: rest) = step [x0; x1; x2]).
Proof.
  intros Hm step. split; [|split; [|split; [|split]]]; intros Hin x0; intros;
    apply (pass2_step_operands _ _ _ m); try exact Hm.
  - each_mnemonic Hin ltac:(reflexivity).
  - now rewrite !(encode_compare m Hin).
  - destruct (encode_move m Hin) as (opcode & Heq). now rewrite !Heq.
  - destruct (encode_memory m Hin) as (opcode & Heq). now rewrite !Heq.
  - destruct (encode_arithmetic m Hin) as (opcode & Heq). now rewrite !Heq.
Qed.

Lemma extra_operands_ignored_witness :
  let e := {| line_num := 0; label := None; mnemonic := Some "mov";
              operands := Some ["r1"; "r2"; "r3"]; raw_line := "mov r1, r2, r3" |} in
  pass2_step [] (initial []) (with_operands e ["r1"; "r2"; "r3"])
  = pass2_step [] (initial []) (with_operands e ["r1"; "r2"]).
Proof.
  intros e.
  destruct (extra_operands_ignored [] (initial []) e "mov" eq_refl) as (_ & _ & H & _).
  exact (H eq_refl "r1" "r2" ["r3"]).
Defined.

(** [div], [mod], [lsl], [lsr] and [asr] are in the opcode table and are
    never encoded: whatever its operands, such a line gets the warning
    of line 226 and no word, and the address advances by one. *)
Theorem unimplemented_mnemonics_skipped (label_map : dict Z) (st : state) (e : entry)
  (m : string) :
  mnemonic e = Some m ->
  in_list m unimplemented_mnemonics = true ->
  dict_get OPCODES m <> None
  /\ pass2_step label_map st e
     = inl (skipped st ("Warning: Instruction '" ++ m
                        ++ "' not fully implemented in tiny assembler. Skipping: "
                        ++ raw_line e)).
Proof.
  intros Hm Hin. split; [each_mnemonic Hin ltac:(discriminate)|].
  apply (pass2_step_skip _ _ _ m); [exact Hm | |].
  - each_mnemonic Hin ltac:(reflexivity).
  - unfold instruction_bearing. rewrite Hm.
    each_mnemonic Hin ltac:(reflexivity).
Qed.

Lemma unimplemented_mnemonics_skipped_witness :
  let e := {| line_num := 0; label := None; mnemonic := Some "lsl";
              operands := Some ["r1"; "r2"; "3"]; raw_line := "lsl r1, r2, 3" |} in
  in_list "lsl" unimplemented_mnemonics = true
  /\ pass2_step [] (initial []) e
     = inl (skipped (initial [])
              "Warning: Instruction 'lsl' not fully implemented in tiny assembler. Skipping: lsl r1, r2, 3").
Proof.
  intros e.
  exact (conj eq_refl
           (proj2 (unimplemented_mnemonics_skipped [] (initial []) e "lsl"
                     eq_refl eq_refl))).
Defined.

(** The operands of [nop], [ret], [divu], [modu], [divh] and [modh] are
    never read: with any operands, or none, in any place, a line with
    one of them encodes to one fixed 32-bit word and raises nothing.
    For the four division mnemonics the word has I = 1, zero register
    fields, the modifier bits and a zero immediate. *)
Theorem operand_free_mnemonics_fixed (m : string) :
  in_list m operand_free_mnemonics = true ->
  exists opcode word,
    dict_get OPCODES m = Some opcode
    /\ word = (if in_list m ["nop"; "ret"] then opcode ++ zeros 27
               else opcode ++ "1" ++ "0000" ++ "0000" ++ modifier_of_suffix m
                    ++ zeros 16)
    /\ String.length word = 32%nat
    /\ forall label_map address ops raw,
         encode_instruction label_map address m ops raw = Normal (Some word).
Proof.
  intros Hin.
  each_mnemonic Hin
    ltac:(do 2 eexists; split; [reflexivity|]; split; [reflexivity|];
          split; [reflexivity|]; intros; reflexivity).
Qed.

Lemma operand_free_mnemonics_fixed_witness :
  in_list "divu" operand_free_mnemonics = true
  /\ exists word,
       encode_instruction [] 0 "divu" (Some ["r1"; "r2"; "r3"]) "divu r1, r2, r3"
       = Normal (Some word)
       /\ encode_instruction [] 7 "divu" None "divu" = Normal (Some word).
Proof.
  destruct (operand_free_mnemonics_fixed "divu" eq_refl)
    as (opcode & word & _ & _ & _ & Henc).
  split; [reflexivity|]. exists word. split; apply Henc.
Defined.

Lemma until_bracket_app (base rest : string) :
  Py.contains_char "]" base = false -> Py.contains_char "010" base = false ->
  until_bracket (base ++ String "]" rest) = Some base.
Proof.
  induction base as [|c base IH]; [reflexivity|].
  cbn [Py.contains_char append until_bracket]. intros H1 H2.
  apply orb_false_iff in H1 as [-> H1]. apply orb_false_iff in H2 as [-> H2].
  now rewrite (IH H1 H2).
Qed.

Lemma until_bracket_needs_bracket (s base : string) :
  until_bracket s = Some base -> Py.contains_char "]" s = true.
Proof.
  revert base. induction s as [|c s IH]; intros base; [discriminate|].
  cbn [until_bracket Py.contains_char]. destruct (Ascii.eqb c "]"); [reflexivity|].
  destruct (Ascii.eqb c "010"); [discriminate|].
  destruct (until_bracket s) as [b|]; [|discriminate]. intros _. now apply (IH b).
Qed.

(** The memory operand goes round: a text made of an optional minus
    sign, decimal digits, a bracketed base without bracket or line feed
    and anything after it is split into the signed digits and the base;
    a text without an opening or without a closing bracket is not a
    memory operand. *)
Theorem match_mem_operand_roundtrip (negative : bool) (digits base rest x : string) :
  Py.forallb_string Py.isdecimal_char digits = true ->
  Py.contains_char "]" base = false -> Py.contains_char "010" base = false ->
  let sign := if negative then "-" else EmptyString in
  match_mem_operand (sign ++ digits ++ String "[" (base ++ String "]" rest))
  = Some (sign ++ digits, base)
  /\ (Py.contains_char "[" x = false \/ Py.contains_char "]" x = false ->
      match_mem_operand x = None).
Proof.
  intros Hdigits Hbase Hline sign. split.
  - unfold match_mem_operand.
    assert (Hstart : Py.startswith_char "-" (digits ++ String "[" (base ++ String "]" rest))
                     = false).
    { destruct digits as [|c digits]; [reflexivity|]. cbn [Py.forallb_string] in Hdigits.
      apply andb_true_iff in Hdigits as [Hc _]. cbn [append Py.startswith_char].
      destruct (Ascii.eqb_spec c "-"); [subst c; discriminate | reflexivity]. }
    destruct negative; subst sign; cbn [append Py.startswith_char Py.slice_from].
    + change (Ascii.eqb "-" "-") with true. cbv iota.
      now rewrite (span_bracket digits _ Hdigits), (until_bracket_app base rest Hbase Hline).
    + now rewrite Hstart, (span_bracket digits _ Hdigits),
        (until_bracket_app base rest Hbase Hline).
  - intros Hx. unfold match_mem_operand.
    set (start := if Py.startswith_char "-" x then ("-", Py.slice_from 1 x)
                  else (EmptyString, x)).
    assert (Hstart : within (snd start) x).
    { subst start. destruct x as [|c x]; [apply within_refl|].
      cbn [Py.startswith_char]. destruct (Ascii.eqb c "-"); cbn [snd Py.slice_from];
        [apply within_tail, within_refl | apply within_refl]. }
    destruct start as [sg body]. cbn [snd] in Hstart.
    pose proof (span_parts Py.isdecimal_char body) as (_ & _ & Hrest).
    destruct (Py.span Py.isdecimal_char body) as [ds r]. cbn [snd] in Hrest.
    destruct r as [|c r]; [reflexivity|].
    destruct (Ascii.eqb_spec c "[") as [->|Hc];
      [|destruct c as [[] [] [] [] [] [] [] []]; try reflexivity; congruence].
    destruct (until_bracket r) as [b|] eqn:Hb; [|reflexivity].
    exfalso. assert (Hw : within (String "[" r) x)
      by (eapply within_trans; [exact Hrest | exact Hstart]).
    destruct Hx as [Hx|Hx].
    + specialize (Hw "["%char eq_refl). congruence.
    + apply until_bracket_needs_bracket in Hb.
      assert (Hr : Py.contains_char "]" (String "[" r) = true)
        by (cbn [Py.contains_char]; rewrite Hb; apply orb_true_r).
      specialize (Hw "]"%char Hr). congruence.
Qed.

Lemma match_mem_operand_roundtrip_witness :
  Py.forallb_string Py.isdecimal_char "12" = true
  /\ match_mem_operand "-12[sp]" = Some ("-12", "sp")
  /\ match_mem_operand "4sp" = None.
Proof.
  assert (Hd : Py.forallb_string Py.isdecimal_char "12" = true) by reflexivity.
  destruct (match_mem_operand_roundtrip true "12" "sp" EmptyString "4sp"
              Hd eq_refl eq_refl) as (Hsome & Hnone).
  exact (conj Hd (conj Hsome (Hnone (or_introl eq_refl)))).
Defined.

Lemma encode_memory_matched (label_map : dict Z) (address : Z) (m : string)
  (x0 x1 : string) (rest : list string) (raw off base : string) (v : Z) :
  in_list m memory_mnemonics = true ->
  match_mem_operand x1 = Some (off, base) ->
  offset_value off = Normal v ->
  exists opcode,
    dict_get OPCODES m = Some opcode /\ String.length opcode = 5%nat
    /\ encode_instruction label_map address m (Some (x0 :: x1 :: rest)) raw
       = Normal (Some (opcode ++ "1" ++ register_bits x0 ++ register_bits base
                       ++ "00" ++ to_binary v 16 true)).
Proof.
  intros Hin Hmatch Hoff.
  assert (Hclass : immediate_or_register m = true)
    by (each_mnemonic Hin ltac:(reflexivity)).
  assert (Hmod : modifier_bits m = "00") by (each_mnemonic Hin ltac:(reflexivity)).
  assert (Hd1 : in_list m compare_mnemonics = false)
    by (each_mnemonic Hin ltac:(reflexivity)).
  assert (Hd2 : in_list m arithmetic_mnemonics = false)
    by (each_mnemonic Hin ltac:(reflexivity)).
  assert (Hd3 : in_list m move_mnemonics = false)
    by (each_mnemonic Hin ltac:(reflexivity)).
  destruct (encode_instruction_class m Hclass) as (opcode & Hop & Hlen & Henc).
  exists opcode. split; [exact Hop|]. split; [exact Hlen|].
  rewrite Henc. unfold encode_operands. rewrite Hd1, Hd2, Hd3, Hin.
  unfold operands_mem. cbn [operand_at nth_error bind]. rewrite Hmatch.
  fold (offset_value off). rewrite Hoff. cbn [bind set_rd rd_bin assembled_instruction
                                              initial_locals].
  now rewrite immediate_stage_pending, Hmod.
Qed.

(** A load or store with a well-formed memory operand is encoded in
    immediate format with the register, the base and the offset: for an
    offset in the signed 16-bit range the word has 32 characters and its
    last sixteen read back as the offset; a missing offset is 0. *)
Theorem memory_operand_encoding (label_map : dict Z) (address : Z) (m : string)
  (x0 x1 : string) (rest : list string) (raw off base : string) (v : Z) :
  in_list m memory_mnemonics = true ->
  match_mem_operand x1 = Some (off, base) ->
  offset_value off = Normal v ->
  in_domain v 16 true ->
  offset_value EmptyString = Normal 0
  /\ exists opcode word,
      dict_get OPCODES m = Some opcode
      /\ encode_instruction label_map address m (Some (x0 :: x1 :: rest)) raw
         = Normal (Some word)
      /\ word = opcode ++ "1" ++ register_bits x0 ++ register_bits base ++ "00"
                ++ to_binary v 16 true
      /\ String.length word = 32%nat
      /\ signed_value (Py.slice_from 16 word) = v.
Proof.
  intros Hin Hmatch Hoff Hdom. split; [reflexivity|].
  destruct (encode_memory_matched label_map address m x0 x1 rest raw off base v
              Hin Hmatch Hoff) as (opcode & Hop & Hlen & Henc).
  destruct (to_binary_signed v 16 ltac:(lia) Hdom) as (Hw & _ & Hval).
  destruct (immediate_word opcode (register_bits x0) (register_bits base) "00"
              (to_binary v 16 true) Hlen (length_register_bits x0)
              (length_register_bits base) eq_refl) as (Hslice & Hlength & _).
  exists opcode, (opcode ++ "1" ++ register_bits x0 ++ register_bits base ++ "00"
                  ++ to_binary v 16 true).
  rewrite Hslice, Hlength, Hw, Hval. now repeat split.
Qed.

Lemma memory_operand_encoding_witness :
  match_mem_operand "-2[sp]" = Some ("-2", "sp")
  /\ offset_value "-2" = Normal (-2)
  /\ exists word,
       encode_instruction [] 0 "st" (Some ["ra"; "-2[sp]"]) "st ra, -2[sp]"
       = Normal (Some word)
       /\ signed_value (Py.slice_from 16 word) = -2.
Proof.
  assert (Hdom : in_domain (-2) 16 true) by (unfold in_domain; simpl; lia).
  destruct (memory_operand_encoding [] 0 "st" "ra" "-2[sp]" [] "st ra, -2[sp]"
              "-2" "sp" (-2) eq_refl eq_refl eq_refl Hdom)
    as (_ & opcode & word & _ & Henc & _ & _ & Hval).
  split; [reflexivity|]. split; [reflexivity|]. exists word. now split.
Defined.

(** The first five characters of every string the encoder builds are
    the opcode the table gives the mnemonic. *)
Theorem opcode_field (label_map : dict Z) (address : Z) (m : string)
  (ops : option (list string)) (raw word : string) :
  encode_instruction label_map address m ops raw = Normal (Some word) ->
  exists opcode,
    dict_get OPCODES m = Some opcode
    /\ String.length opcode = 5%nat
    /\ substring 0 5 word = opcode.
Proof.
  unfold encode_instruction.
  destruct (dict_get OPCODES m) as [opcode|] eqn:Hop; [|discriminate].
  pose proof (length_opcode m opcode Hop) as Hlen.
  assert (Hprefix : forall rest, substring 0 5 (opcode ++ rest) = opcode)
    by (intros rest; rewrite <- Hlen; apply substring_prefix).
  destruct opcode as [|c opcode']; [discriminate|]. cbn [truthy negb].
  set (opcode := String c opcode') in *.
  intros Henc. exists opcode. split; [reflexivity|]. split; [exact Hlen|].
  revert Henc. destruct (in_list m ["beq"; "bgt"; "b"; "call"; "ret"]).
  { unfold encode_branch.
    match goal with
    | |- bind ?b _ = _ -> _ => destruct b as [offset_bin| |]
    end; cbn [bind]; try discriminate.
    intros [= <-]. apply Hprefix. }
  destruct (immediate_or_register m).
  { intros H. apply encode_operands_shape in H as (w & [= <-] & [Hreg|Himm]).
    - destruct Hreg as (rd & rs1 & rs2 & _ & _ & _ & ->). apply Hprefix.
    - destruct Himm as (rd & rs1 & v & _ & _ & ->). apply Hprefix. }
  destruct (String.eqb_spec m "nop") as [->|_].
  { rewrite Hop. intros [= <-]. apply Hprefix. }
  destruct (String.eqb_spec m "ret") as [->|_]; [|discriminate].
  rewrite Hop. intros [= <-]. apply Hprefix.
Qed.

Lemma opcode_field_witness :
  encode_instruction [("x", 3)] 0 "call" (Some ["x"]) "call x"
  = Normal (Some "10011000000000000000000000000010")
  /\ exists opcode, dict_get OPCODES "call" = Some opcode
                    /\ substring 0 5 "10011000000000000000000000000010" = opcode.
Proof.
  assert (H : encode_instruction [("x", 3)] 0 "call" (Some ["x"]) "call x"
              = Normal (Some "10011000000000000000000000000010")) by reflexivity.
  destruct (opcode_field _ _ _ _ _ _ H) as (opcode & Hop & _ & Hsub).
  split; [exact H|]. exists opcode. now split.
Defined.

(** The register table follows the numbering: for [n] from 0 to 15 the
    code of the name [r] followed by [n] in decimal is [n] in four
    bits; [sp] and [ra] have the codes of [r14] and [r15]. *)
Theorem register_numbering (n : Z) :
  0 <= n <= 15 ->
  register_bits ("r" ++ Py.str_of_Z n) = to_binary n 4 false
  /\ dict_get REGISTERS ("r" ++ Py.str_of_Z n) = Some (to_binary n 4 false)
  /\ register_bits "sp" = register_bits "r14"
  /\ register_bits "ra" = register_bits "r15".
Proof.
  intros Hn. rewrite <- (Z2Nat.id n) by lia.
  assert (Hk : (Z.to_nat n < 16)%nat) by lia.
  revert Hk. generalize (Z.to_nat n). clear. intros k Hk.
  do 16 (destruct k as [|k]; [repeat split; reflexivity|]). lia.
Qed.

Lemma register_numbering_witness :
  0 <= 11 <= 15 /\ register_bits "r11" = "1011".
Proof.
  assert (Hn : 0 <= 11 <= 15) by lia.
  exact (conj Hn (proj1 (register_numbering 11 Hn))).
Defined.

End Operands.

(** ** Exceptions, line by line *)

Section Raising.

Lemma encode_instruction_raise_local (label_map label_map' : dict Z)
  (address address' : Z) (m : string) (ops : option (list string)) (raw : string)
  (ex : exn) :
  encode_instruction label_map address m ops raw = Raise ex ->
  encode_instruction label_map' address' m ops raw = Raise ex.
Proof.
  unfold encode_instruction.
  destruct (negb (truthy (dict_get OPCODES m))); [discriminate|].
  destruct (in_list m ["beq"; "bgt"; "b"; "call"; "ret"]); [|exact (fun H => H)].
  unfold encode_branch. destruct (String.eqb m "ret"); [exact (fun H => H)|].
  destruct (operand_at ops 0) as [target| |]; cbn [bind];
    [|discriminate | exact (fun H => H)].
  destruct (dict_get label_map target); cbn [bind]; discriminate.
Qed.

Lemma pass2_step_raises (label_map : dict Z) (st : state) (e : entry) (ex : exn) :
  pass2_step label_map st e = inr ex <-> raises e ex.
Proof.
  unfold pass2_step, raises. split.
  - destruct (mnemonic e) as [[|c m]|]; try discriminate.
    destruct (encode_instruction label_map (current_address st) (String c m)
                (operands e) (raw_line e)) as [[[|c' w]|]| |] eqn:Henc;
      try discriminate.
    + destruct (negb _); discriminate.
    + intros [= <-]. exists (String c m). split; [reflexivity|].
      intros label_map' address'. revert Henc. apply encode_instruction_raise_local.
  - intros (m & Hm & Henc). rewrite Hm. destruct m as [|c m].
    + specialize (Henc [] 0). discriminate Henc.
    + now rewrite (Henc label_map (current_address st)).
Qed.

Lemma pass2_from_raises (label_map : dict Z) (entries : list entry) (st : state) :
  match snd (pass2_from label_map st entries) with
  | None => Forall (fun e => forall ex, ~ raises e ex) entries
  | Some ex =>
      exists before e after,
        entries = (before ++ e :: after)%list
        /\ Forall (fun e => forall ex, ~ raises e ex) before
        /\ raises e ex
  end.
Proof.
  revert st. induction entries as [|e entries IH]; intros st; [constructor|].
  cbn [pass2_from]. destruct (pass2_step label_map st e) as [st'|ex] eqn:Hstep.
  - assert (Hquiet : forall ex, ~ raises e ex).
    { intros ex Hex. apply (pass2_step_raises label_map st) in Hex. congruence. }
    specialize (IH st'). destruct (snd (pass2_from label_map st' entries)) as [ex|].
    + destruct IH as (before & e' & after & -> & Hbefore & Hraises).
      exists (e :: before), e', after. split; [reflexivity|].
      split; [now constructor | exact Hraises].
    + now constructor.
  - cbn [snd]. exists [], e, entries. split; [reflexivity|]. split; [constructor|].
    now apply (pass2_step_raises label_map st).
Qed.

(** Whether [assemble] returns is decided line by line, whatever the
    labels: it returns exactly when no parsed line raises on its own,
    and an exception that ends it is the one of the first such line. *)
Theorem assemble_returns_iff (code : string) :
  let entries := process_lines 0 (Py.split "010" (Py.strip code)) in
  ((exists out assembled, assemble code = (out, Returns assembled))
   <-> Forall (fun e => forall ex, ~ raises e ex) entries)
  /\ (forall out ex,
        assemble code = (out, Raises ex) ->
        exists before e after,
          entries = (before ++ e :: after)%list
          /\ Forall (fun e => forall ex, ~ raises e ex) before
          /\ raises e ex).
Proof.
  intros entries. unfold assemble, assemble_entries. fold entries.
  destruct (pass1 entries) as [label_map address].
  pose proof (pass2_from_raises label_map entries
                {| machine_code := []; current_address := 0;
                   stdout := label_map_report label_map |}) as Hrun.
  destruct (pass2_from label_map _ entries) as [st exception]. cbn [snd] in Hrun.
  destruct exception as [ex|].
  - split.
    + split; [intros (out & assembled & [=])|].
      intros Hquiet. exfalso.
      destruct Hrun as (before & e & after & Heq & _ & Hraises).
      rewrite Heq in Hquiet. apply Forall_app in Hquiet as [_ Hquiet].
      inversion Hquiet as [|? ? Hhead _]. exact (Hhead ex Hraises).
    + intros out ex' [= _ <-]. exact Hrun.
  - split; [|intros out ex [=]].
    split; [intros _; exact Hrun | intros _; eauto].
Qed.

Lemma assemble_returns_iff_witness :
  exists out assembled, assemble "nop" = (out, Returns assembled).
Proof.
  apply (proj2 (proj1 (assemble_returns_iff "nop"))).
  repeat constructor. intros ex (m & [= <-] & Henc).
  specialize (Henc [] 0). discriminate Henc.
Defined.

Lemma py_int_value_error (x : string) (ex : exn) :
  py_int x = Raise ex -> ex = ValueError.
Proof.
  destruct (py_int_cases x) as [(v & ->)| ->]; [discriminate | now intros [= <-]].
Qed.

Lemma last_operand_no_index_error (opcode : string) (ops : list string) (i : nat)
  (field : string) (l : locals) :
  last_operand opcode (Some ops) i field l <> Raise IndexError.
Proof.
  unfold last_operand. cbn [operands_len bind].
  destruct (Nat.ltb_spec i (List.length ops)) as [Hi|Hi]; [|discriminate].
  unfold operand_at. destruct (nth_error ops i) as [x|] eqn:Hx.
  - cbn [bind]. destruct (is_immediate x); [|discriminate].
    destruct (py_int x) as [v| |ex] eqn:Hint; cbn [bind]; try discriminate.
    intros [= ->]. apply py_int_value_error in Hint. discriminate Hint.
  - apply nth_error_None in Hx. lia.
Qed.

Lemma bind_last_operand_no_index_error (opcode : string) (ops : list string)
  (i : nat) (field : string) (l : locals) (k : locals -> option string) :
  (l' <- last_operand opcode (Some ops) i field l ;; Normal (k l')) <> Raise IndexError.
Proof.
  destruct (last_operand opcode (Some ops) i field l) as [l'| |ex] eqn:Hlast;
    cbn [bind]; try discriminate.
  intros [= ->]. exact (last_operand_no_index_error _ _ _ _ _ Hlast).
Qed.

Lemma encode_operands_index_error (m opcode : string) (ops : list string)
  (raw : string) :
  encode_operands m opcode (Some ops) raw = Raise IndexError
  <-> (List.length ops
       < (if in_list m compare_mnemonics then 1
          else if in_list m arithmetic_mnemonics then 2
          else if in_list m move_mnemonics then 1
          else if in_list m memory_mnemonics then 2
          else 0))%nat.
Proof.
  unfold encode_operands.
  destruct (in_list m compare_mnemonics).
  { unfold operands_cmp. destruct ops as [|x0 rest]; cbn [operand_at nth_error bind].
    - split; [cbn [List.length]; lia | reflexivity].
    - split; [|cbn [List.length]; lia]. intros H. exfalso. revert H.
      apply bind_last_operand_no_index_error. }
  destruct (in_list m arithmetic_mnemonics).
  { unfold operands_arith.
    destruct ops as [|x0 [|x1 rest]]; cbn [operand_at nth_error bind].
    - split; [cbn [List.length]; lia | reflexivity].
    - split; [cbn [List.length]; lia | reflexivity].
    - split; [|cbn [List.length]; lia]. intros H. exfalso. revert H.
      apply bind_last_operand_no_index_error. }
  destruct (in_list m move_mnemonics).
  { unfold operands_mov. destruct ops as [|x0 rest]; cbn [operand_at nth_error bind].
    - split; [cbn [List.length]; lia | reflexivity].
    - split; [|cbn [List.length]; lia]. intros H. exfalso. revert H.
      apply bind_last_operand_no_index_error. }
  destruct (in_list m memory_mnemonics).
  { unfold operands_mem.
    destruct ops as [|x0 [|x1 rest]]; cbn [operand_at nth_error bind].
    - split; [cbn [List.length]; lia | reflexivity].
    - split; [cbn [List.length]; lia | reflexivity].
    - split; [|cbn [List.length]; lia].
      destruct (match_mem_operand x1) as [[offset_str rs1_name]|];
        cbn [bind]; [|discriminate].
      destruct (truthy (Some offset_str)); cbn [bind]; [|discriminate].
      destruct (py_int offset_str) as [v| |ex] eqn:Hint; cbn [bind]; try discriminate.
      intros [= ->]. apply py_int_value_error in Hint. discriminate Hint. }
  cbn [bind]. split; [discriminate | lia].
Qed.

Lemma encode_instruction_branch_class (m : string) :
  in_list m ["beq"; "bgt"; "b"; "call"] = true ->
  String.eqb m "ret" = false
  /\ exists opcode,
      forall label_map address ops raw,
        encode_instruction label_map address m ops raw
        = encode_branch label_map address m opcode ops raw.
Proof.
  intros H.
  each_mnemonic H ltac:(split; [reflexivity|]; eexists; intros; reflexivity).
Qed.

(** [IndexError] is raised for a line exactly when its operand list is
    shorter than the number of operands the code reads with a subscript:
    one for a branch, a call, a compare or a move, two for an arithmetic
    or a memory instruction, none for any other mnemonic. *)
Theorem index_error_iff (label_map : dict Z) (address : Z) (m : string)
  (ops : list string) (raw : string) :
  encode_instruction label_map address m (Some ops) raw = Raise IndexError
  <-> (List.length ops < subscripted_operands m)%nat.
Proof.
  unfold subscripted_operands.
  destruct (in_list m ["beq"; "bgt"; "b"; "call"]) eqn:Hbranch.
  { destruct (encode_instruction_branch_class m Hbranch) as (Hret & opcode & ->).
    unfold encode_branch. rewrite Hret.
    destruct ops as [|target rest]; cbn [operand_at nth_error bind].
    - split; [cbn [List.length]; lia | reflexivity].
    - split; [|cbn [List.length]; lia].
      destruct (dict_get label_map target); cbn [bind]; discriminate. }
  destruct (immediate_or_register m) eqn:Hclass.
  { destruct (encode_instruction_class m Hclass) as (opcode & _ & _ & ->).
    apply encode_operands_index_error. }
  assert (Hcmp : in_list m compare_mnemonics = false).
  { destruct (in_list m compare_mnemonics) eqn:H; [|reflexivity].
    each_mnemonic H ltac:(vm_compute in Hclass; discriminate Hclass). }
  assert (Harith : in_list m arithmetic_mnemonics = false).
  { destruct (in_list m arithmetic_mnemonics) eqn:H; [|reflexivity].
    each_mnemonic H ltac:(vm_compute in Hclass; discriminate Hclass). }
  assert (Hmov : in_list m move_mnemonics = false).
  { destruct (in_list m move_mnemonics) eqn:H; [|reflexivity].
    each_mnemonic H ltac:(vm_compute in Hclass; discriminate Hclass). }
  assert (Hmem : in_list m memory_mnemonics = false).
  { destruct (in_list m memory_mnemonics) eqn:H; [|reflexivity].
    each_mnemonic H ltac:(vm_compute in Hclass; discriminate Hclass). }
  rewrite Hcmp, Harith, Hmov, Hmem. split; [|lia].
  unfold encode_instruction. rewrite Hclass.
  destruct (negb (truthy (dict_get OPCODES m))); [discriminate|].
  destruct (in_list m ["beq"; "bgt"; "b"; "call"; "ret"]) eqn:Hret.
  { each_mnemonic Hret
      ltac:(first [ vm_compute in Hbranch; discriminate Hbranch
                  | intros H; vm_compute in H; discriminate H ]). }
  destruct (String.eqb m "nop"); [discriminate|].
  destruct (String.eqb m "ret"); discriminate.
Qed.

Lemma isdigit_char_cases (c : ascii) :
  Py.isdigit_char c = true -> Py.isdecimal_char c = negb (superscript_digit c).
Proof.
  destruct c as [[] [] [] [] [] [] [] []]; vm_compute; congruence.
Qed.

Lemma isdigit_decimal (s : string) :
  Py.forallb_string Py.isdigit_char s = true ->
  Py.forallb_string Py.isdecimal_char s = negb (has_superscript s).
Proof.
  unfold has_superscript. rewrite negb_involutive.
  induction s as [|c s IH]; [reflexivity|]. cbn [Py.forallb_string].
  intros H. apply andb_true_iff in H as [Hc Hs].
  now rewrite (isdigit_char_cases c Hc), (IH Hs).
Qed.

Lemma py_int_immediate (x : string) :
  is_immediate x = true ->
  Py.forallb_string Py.isdecimal_char (literal_digits x) = negb (has_superscript x)
  /\ py_int x
     = if has_superscript x then Raise ValueError
       else if (String.length (literal_digits x) <=? int_max_str_digits)%nat
            then Normal (if Py.startswith_char "-" x
                         then - Py.decimal_value 0 (Py.slice_from 1 x)
                         else Py.decimal_value 0 x)
            else Raise ValueError.
Proof.
  unfold is_immediate, py_int, literal_digits. destruct x as [|c x]; [discriminate|].
  cbn [Py.startswith_char Py.slice_from]. destruct (Ascii.eqb_spec c "-") as [->|Hc].
  - cbn [orb andb]. change (Py.isdigit (String "-" x)) with false. cbn [orb].
    replace (has_superscript (String "-" x)) with (has_superscript x) by reflexivity.
    destruct x as [|c x]; [discriminate|]. unfold Py.isdigit. intros H.
    rewrite (isdigit_decimal _ H). split; [reflexivity|].
    now destruct (has_superscript (String c x)).
  - rewrite andb_false_l, orb_false_r. unfold Py.isdigit. intros H.
    rewrite (isdigit_decimal _ H). split; [reflexivity|].
    now destruct (has_superscript (String c x)).
Qed.

Lemma last_operand_raises (opcode : string) (pre rest : list string) (x : string)
  (field : string) (l : locals) (ex : exn) :
  is_immediate x = true -> py_int x = Raise ex ->
  last_operand opcode (Some (pre ++ x :: rest)%list) (List.length pre) field l
  = Raise ex.
Proof.
  intros Himm Hint. unfold last_operand. cbn [operands_len operand_at bind].
  rewrite length_app. cbn [List.length].
  replace (List.length pre <? List.length pre + S (List.length rest))%nat with true
    by (symmetry; apply Nat.ltb_lt; lia).
  rewrite nth_error_app2, Nat.sub_diag by lia. cbn [nth_error bind].
  now rewrite Himm, Hint.
Qed.

Lemma encode_immediate_raises (label_map : dict Z) (address : Z) (m : string)
  (ops : list string) (x rd rs1 raw : string) (ex : exn) :
  immediate_operands m ops x rd rs1 ->
  is_immediate x = true -> py_int x = Raise ex ->
  encode_instruction label_map address m (Some ops) raw = Raise ex.
Proof.
  intros Hops Himm Hint.
  assert (Hclass : immediate_or_register m = true).
  { destruct Hops as [(H & _)|[(H & _)|(H & _)]]; each_mnemonic H ltac:(reflexivity). }
  destruct (encode_instruction_class m Hclass) as (opcode & _ & _ & ->).
  unfold encode_operands.
  destruct Hops as [(H & x0 & x1 & rest & -> & _)
                   |[(H & x0 & rest & -> & _)|(H & x0 & rest & -> & _)]].
  - assert (Hd : in_list m compare_mnemonics = false)
      by (each_mnemonic H ltac:(reflexivity)).
    assert (Hd' : in_list m arithmetic_mnemonics = true)
      by (each_mnemonic H ltac:(reflexivity)).
    rewrite Hd, Hd'. unfold operands_arith. cbn [operand_at nth_error bind].
    now rewrite (last_operand_raises opcode [x0; x1] rest x _ _ ex Himm Hint).
  - rewrite H. unfold operands_cmp. cbn [operand_at nth_error bind].
    now rewrite (last_operand_raises opcode [x0] rest x _ _ ex Himm Hint).
  - assert (Hd1 : in_list m compare_mnemonics = false)
      by (each_mnemonic H ltac:(reflexivity)).
    assert (Hd2 : in_list m arithmetic_mnemonics = false)
      by (each_mnemonic H ltac:(reflexivity)).
    assert (Hd3 : in_list m move_mnemonics = true)
      by (each_mnemonic H ltac:(reflexivity)).
    rewrite Hd1, Hd2, Hd3. unfold operands_mov. cbn [operand_at nth_error bind].
    now rewrite (last_operand_raises opcode [x0] rest x _ _ ex Himm Hint).
Qed.

(** A literal that passes the digit test of lines 152, 166 and 178 is
    converted with [int]. The line raises [ValueError] when one of the
    characters of the literal is a superscript digit, which [isdigit]
    accepts and [int] does not, and when the literal has more digits
    than [int] converts. When the digits are ASCII decimal digits, no
    more of them than that limit, the literal has a value and the
    encoder builds a string for the line. *)
Theorem literal_conversion (label_map : dict Z) (address : Z) (m : string)
  (ops : list string) (x rd rs1 raw : string) :
  immediate_operands m ops x rd rs1 ->
  is_immediate x = true ->
  (has_superscript x = true ->
   encode_instruction label_map address m (Some ops) raw = Raise ValueError)
  /\ ((int_max_str_digits < String.length (literal_digits x))%nat ->
      encode_instruction label_map address m (Some ops) raw = Raise ValueError)
  /\ (Py.forallb_string Py.isdecimal_char (literal_digits x) = true ->
      (String.length (literal_digits x) <= int_max_str_digits)%nat ->
      exists v word,
        py_int x = Normal v
        /\ encode_instruction label_map address m (Some ops) raw = Normal (Some word)).
Proof.
  intros Hops Himm. destruct (py_int_immediate x Himm) as (Hdecimal & Hint).
  split; [|split].
  - intros Hsuper. rewrite Hsuper in Hint.
    exact (encode_immediate_raises label_map address m ops x rd rs1 raw ValueError
             Hops Himm Hint).
  - intros Hlong. apply Nat.leb_gt in Hlong. rewrite Hlong in Hint.
    apply (encode_immediate_raises label_map address m ops x rd rs1 raw ValueError
             Hops Himm).
    rewrite Hint. now destruct (has_superscript x).
  - intros Hdigits Hshort. apply Nat.leb_le in Hshort.
    rewrite Hdigits in Hdecimal. symmetry in Hdecimal.
    apply negb_true_iff in Hdecimal. rewrite Hdecimal, Hshort in Hint.
    destruct (encode_immediate label_map address m ops x rd rs1 raw _ Hops Himm Hint)
      as (opcode & _ & _ & _ & _ & _ & Henc).
    do 2 eexists. split; [exact Hint | exact Henc].
Qed.

Lemma literal_conversion_witness :
  is_immediate (String "178" EmptyString) = true
  /\ encode_instruction [] 0 "mov" (Some ["r1"; String "178" EmptyString]) "mov r1, x"
     = Raise ValueError.
Proof.
  assert (Hops : immediate_operands "mov" ["r1"; String "178" EmptyString]
                   (String "178" EmptyString) "0001" "0000").
  { right. right. split; [reflexivity|]. now exists "r1", []. }
  split; [reflexivity|].
  exact (proj1 (literal_conversion [] 0 "mov" _ _ _ _ "mov r1, x" Hops eq_refl)
           eq_refl).
Defined.

Lemma match_mem_operand_offset (x off base : string) :
  match_mem_operand x = Some (off, base) ->
  exists digits,
    Py.forallb_string Py.isdecimal_char digits = true
    /\ (off = digits \/ off = String "-" digits).
Proof.
  unfold match_mem_operand.
  set (start := if Py.startswith_char "-" x then ("-", Py.slice_from 1 x)
                else (EmptyString, x)).
  assert (Hsign : fst start = EmptyString \/ fst start = "-")
    by (subst start; destruct (Py.startswith_char "-" x); auto).
  destruct start as [sign body]. cbn [fst] in Hsign.
  pose proof (span_parts Py.isdecimal_char body) as (Hdigits & _ & _).
  destruct (Py.span Py.isdecimal_char body) as [digits rest]. cbn [fst] in Hdigits.
  destruct rest as [|c rest]; [discriminate|].
  destruct (Ascii.eqb_spec c "[") as [->|Hc];
    [|destruct c as [[] [] [] [] [] [] [] []]; try discriminate; congruence].
  destruct (until_bracket rest) as [group2|]; [|discriminate].
  intros [= <- <-]. exists digits. split; [exact Hdigits|].
  destruct Hsign as [->| ->]; auto.
Qed.

Lemma offset_value_digits (digits : string) :
  Py.forallb_string Py.isdecimal_char digits = true ->
  offset_value digits
  = (if (String.length digits <=? int_max_str_digits)%nat
     then Normal (Py.decimal_value 0 digits) else Raise ValueError)
  /\ offset_value (String "-" digits)
     = match digits with
       | EmptyString => Raise ValueError
       | _ => if (String.length digits <=? int_max_str_digits)%nat
              then Normal (- Py.decimal_value 0 digits) else Raise ValueError
       end
  /\ literal_digits digits = digits.
Proof.
  intros H. unfold offset_value, py_int, literal_digits.
  cbn [truthy Py.startswith_char Py.slice_from].
  change (Ascii.eqb "-" "-") with true. cbv iota.
  destruct digits as [|c digits]; [repeat split; reflexivity|].
  cbn [truthy Py.startswith_char]. rewrite H.
  cbn [Py.forallb_string] in H. apply andb_true_iff in H as [Hc _].
  destruct (Ascii.eqb_spec c "-") as [->|_]; [discriminate Hc|]. repeat split; reflexivity.
Qed.

Lemma encode_memory_bind (label_map : dict Z) (address : Z) (m : string)
  (x0 x1 : string) (rest : list string) (raw off base : string) :
  in_list m memory_mnemonics = true ->
  match_mem_operand x1 = Some (off, base) ->
  exists opcode,
    encode_instruction label_map address m (Some (x0 :: x1 :: rest)) raw
    = (v <- offset_value off ;;
       Normal (Some (opcode ++ "1" ++ register_bits x0 ++ register_bits base
                     ++ "00" ++ to_binary v 16 true))).
Proof.
  intros Hin Hmatch.
  destruct (offset_value off) as [v| |ex] eqn:Hoff.
  - destruct (encode_memory_matched label_map address m x0 x1 rest raw off base v
                Hin Hmatch Hoff) as (opcode & _ & _ & Henc).
    exists opcode. exact Henc.
  - exfalso. unfold offset_value in Hoff.
    destruct (truthy (Some off)); [|discriminate].
    destruct (py_int_cases off) as [(v & Hv)|Hv]; rewrite Hv in Hoff; discriminate.
  - assert (Hclass : immediate_or_register m = true)
      by (each_mnemonic Hin ltac:(reflexivity)).
    assert (Hd1 : in_list m compare_mnemonics = false)
      by (each_mnemonic Hin ltac:(reflexivity)).
    assert (Hd2 : in_list m arithmetic_mnemonics = false)
      by (each_mnemonic Hin ltac:(reflexivity)).
    assert (Hd3 : in_list m move_mnemonics = false)
      by (each_mnemonic Hin ltac:(reflexivity)).
    destruct (encode_instruction_class m Hclass) as (opcode & _ & _ & Henc).
    exists opcode. rewrite Henc. unfold encode_operands. rewrite Hd1, Hd2, Hd3, Hin.
    unfold operands_mem. cbn [operand_at nth_error bind]. rewrite Hmatch.
    fold (offset_value off). now rewrite Hoff.
Qed.

(** The offset of a memory operand is converted with [int] whenever the
    text before the bracket is not empty. The line raises [ValueError]
    exactly when that text is a minus sign alone or has more digits than
    [int] converts; every other memory operand the pattern accepts has
    an offset, and the encoder builds a string for the line. *)
Theorem bare_minus_offset_raises (label_map : dict Z) (address : Z) (m : string)
  (x0 x1 : string) (rest : list string) (raw off base : string) :
  in_list m memory_mnemonics = true ->
  match_mem_operand x1 = Some (off, base) ->
  if String.eqb off "-"
     || (int_max_str_digits <? String.length (literal_digits off))%nat
  then encode_instruction label_map address m (Some (x0 :: x1 :: rest)) raw
       = Raise ValueError
  else exists v word,
         offset_value off = Normal v
         /\ encode_instruction label_map address m (Some (x0 :: x1 :: rest)) raw
            = Normal (Some word).
Proof.
  intros Hin Hmatch.
  destruct (encode_memory_bind label_map address m x0 x1 rest raw off base Hin Hmatch)
    as (opcode & ->).
  destruct (match_mem_operand_offset x1 off base Hmatch) as (digits & Hdigits & Hoff).
  destruct (offset_value_digits digits Hdigits) as (Hplain & Hminus & Hliteral).
  destruct Hoff as [->| ->].
  - replace (String.eqb digits "-") with false
      by (symmetry; apply String.eqb_neq; intros ->; discriminate Hdigits).
    rewrite Hliteral, Hplain, Nat.ltb_antisym, orb_false_l.
    destruct (String.length digits <=? int_max_str_digits)%nat; cbn [negb bind];
      [|reflexivity].
    do 2 eexists. split; reflexivity.
  - change (literal_digits (String "-" digits)) with digits.
    destruct digits as [|c digits]; [now rewrite Hminus|].
    replace (String.eqb (String "-" (String c digits)) "-") with false
      by (symmetry; apply String.eqb_neq; discriminate).
    rewrite Hminus, Nat.ltb_antisym, orb_false_l.
    destruct (String.length (String c digits) <=? int_max_str_digits)%nat;
      cbn [negb bind]; [|reflexivity].
    do 2 eexists. split; reflexivity.
Qed.

Lemma bare_minus_offset_raises_witness :
  match_mem_operand "-[sp]" = Some ("-", "sp")
  /\ encode_instruction [] 0 "ld" (Some ["r1"; "-[sp]"]) "ld r1, -[sp]"
     = Raise ValueError.
Proof.
  split; [reflexivity|].
  exact (bare_minus_offset_raises [] 0 "ld" "r1" "-[sp]" [] "ld r1, -[sp]" "-" "sp"
           eq_refl eq_refl).
Defined.

End Raising.

(** ** What is printed *)

Section Diagnostics.

Lemma reported_bind {A B : Type} (m : control A) (k : A -> control B) :
  reported m -> (forall a, reported (k a)) -> reported (bind m k).
Proof.
  intros Hm Hk message. destruct m as [a|message'|ex]; cbn [bind].
  - apply Hk.
  - intros [= <-]. now apply Hm.
  - discriminate.
Qed.

Lemma reported_normal {A : Type} (a : A) : reported (Normal a).
Proof. intros message. discriminate. Qed.

Lemma reported_raise {A : Type} (ex : exn) : reported (@Raise A ex).
Proof. intros message. discriminate. Qed.

Lemma reported_operand_at (ops : option (list string)) (i : nat) :
  reported (operand_at ops i).
Proof.
  unfold operand_at. destruct ops as [l|]; [|apply reported_raise].
  destruct (nth_error l i); [apply reported_normal | apply reported_raise].
Qed.

Lemma reported_py_int (x : string) : reported (py_int x).
Proof.
  destruct (py_int_cases x) as [(v & ->)| ->];
    [apply reported_normal | apply reported_raise].
Qed.

Lemma reported_last_operand (opcode : string) (ops : option (list string)) (i : nat)
  (field : string) (l : locals) :
  reported (last_operand opcode ops i field l).
Proof.
  unfold last_operand. apply reported_bind.
  { destruct ops; [apply reported_normal | apply reported_raise]. }
  intros n. destruct (i <? n)%nat; [|apply reported_normal].
  apply reported_bind; [apply reported_operand_at|]. intros x.
  destruct (is_immediate x); [|apply reported_normal].
  apply reported_bind; [apply reported_py_int | intros v; apply reported_normal].
Qed.

Lemma reported_encode_operands (m opcode : string) (ops : option (list string))
  (raw : string) :
  reported (encode_operands m opcode ops raw).
Proof.
  unfold encode_operands. apply reported_bind; [|intros l; apply reported_normal].
  destruct (in_list m compare_mnemonics).
  { apply reported_bind; [apply reported_operand_at|]. intros x0.
    apply reported_last_operand. }
  destruct (in_list m arithmetic_mnemonics).
  { apply reported_bind; [apply reported_operand_at|]. intros x0.
    apply reported_bind; [apply reported_operand_at|]. intros x1.
    apply reported_last_operand. }
  destruct (in_list m move_mnemonics).
  { apply reported_bind; [apply reported_operand_at|]. intros x0.
    apply reported_last_operand. }
  destruct (in_list m memory_mnemonics); [|apply reported_normal].
  apply reported_bind; [apply reported_operand_at|]. intros x0.
  apply reported_bind; [apply reported_operand_at|]. intros x1.
  destruct (match_mem_operand x1) as [[offset_str rs1_name]|].
  - apply reported_bind; [|intros v; apply reported_normal].
    destruct (truthy (Some offset_str)); [apply reported_py_int | apply reported_normal].
  - intros message [= <-]. left. reflexivity.
Qed.

Lemma reported_encode_instruction (label_map : dict Z) (address : Z) (m : string)
  (ops : option (list string)) (raw : string) :
  reported (encode_instruction label_map address m ops raw).
Proof.
  unfold encode_instruction.
  destruct (negb (truthy (dict_get OPCODES m))).
  { intros message [= <-]. left. reflexivity. }
  destruct (in_list m ["beq"; "bgt"; "b"; "call"; "ret"]).
  { unfold encode_branch. apply reported_bind; [|intros b; apply reported_normal].
    destruct (String.eqb m "ret"); [apply reported_normal|].
    apply reported_bind; [apply reported_operand_at|]. intros target.
    destruct (dict_get label_map target); [apply reported_normal|].
    intros message [= <-]. left. reflexivity. }
  destruct (immediate_or_register m); [apply reported_encode_operands|].
  destruct (String.eqb m "nop"); [apply reported_normal|].
  destruct (String.eqb m "ret"); [apply reported_normal|].
  intros message [= <-]. right. reflexivity.
Qed.

Lemma pass2_step_stdout (label_map : dict Z) (st st' : state) (e : entry) :
  pass2_step label_map st e = inl st' ->
  exists diagnostics,
    stdout st' = (stdout st ++ diagnostics)%list
    /\ Forall diagnostic diagnostics
    /\ (List.length diagnostics <= if instruction_bearing e then 1 else 0)%nat.
Proof.
  unfold pass2_step, instruction_bearing.
  destruct (mnemonic e) as [[|c m]|]; cbn [truthy];
    try (intros [= <-]; exists []; cbn [stdout List.length];
         rewrite app_nil_r; split; [reflexivity|]; split; [constructor | lia]).
  pose proof (reported_encode_instruction label_map (current_address st) (String c m)
                (operands e) (raw_line e)) as Hreported.
  destruct (encode_instruction label_map (current_address st) (String c m)
              (operands e) (raw_line e)) as [[[|c' word]|]|message|ex];
    try discriminate;
    try (intros [= <-]; exists []; cbn [stdout List.length];
         rewrite app_nil_r; split; [reflexivity|]; split; [constructor | lia]).
  - destruct (negb (String.length (String c' word) =? 32)%nat); intros [= <-].
    + eexists. cbn [stdout]. split; [reflexivity|].
      split; [|cbn [List.length]; lia]. constructor; [|constructor]. left. reflexivity.
    + exists []. cbn [stdout List.length]. rewrite app_nil_r.
      split; [reflexivity|]. split; [constructor | lia].
  - intros [= <-]. exists [message]. cbn [stdout List.length].
    split; [reflexivity|]. split; [|lia]. constructor; [|constructor].
    now apply Hreported.
Qed.

Lemma pass2_from_stdout (label_map : dict Z) (entries : list entry) (st : state) :
  exists diagnostics,
    stdout (fst (pass2_from label_map st entries)) = (stdout st ++ diagnostics)%list
    /\ Forall diagnostic diagnostics
    /\ (List.length diagnostics
        <= List.length (filter instruction_bearing entries))%nat.
Proof.
  revert st. induction entries as [|e entries IH]; intros st.
  { exists []. cbn [pass2_from fst filter List.length]. rewrite app_nil_r.
    split; [reflexivity|]. split; [constructor | lia]. }
  cbn [pass2_from filter].
  destruct (pass2_step label_map st e) as [st'|ex] eqn:Hstep.
  - destruct (pass2_step_stdout _ _ _ _ Hstep) as (ds & Hout & Hds & Hlen).
    destruct (IH st') as (ds' & Hout' & Hds' & Hlen').
    exists (ds ++ ds')%list. rewrite Hout', Hout, app_assoc.
    split; [reflexivity|]. split; [now apply Forall_app|].
    rewrite length_app. destruct (instruction_bearing e); cbn [List.length]; lia.
  - exists []. cbn [fst List.length]. rewrite app_nil_r.
    split; [reflexivity|]. split; [constructor | lia].
Qed.

(** Everything [assemble] prints is the report of the label map
    followed by diagnostics: lines that start with [Error: ] or
    [Warning: ], at most one for each line of the source that carries
    an instruction; this holds also when the call raises. *)
Theorem output_is_report_then_diagnostics (code : string) (out : list string)
  (r : outcome) :
  assemble code = (out, r) ->
  let entries := process_lines 0 (Py.split "010" (Py.strip code)) in
  exists diagnostics,
    out = (label_map_report (fst (pass1 entries)) ++ diagnostics)%list
    /\ Forall diagnostic diagnostics
    /\ Z.of_nat (List.length diagnostics) <= count_instructions entries.
Proof.
  intros Hrun entries. revert Hrun. unfold assemble, assemble_entries. fold entries.
  destruct (pass1 entries) as [label_map address]. cbn [fst].
  destruct (pass2_from_stdout label_map entries
              {| machine_code := []; current_address := 0;
                 stdout := label_map_report label_map |})
    as (ds & Hout & Hds & Hlen).
  destruct (pass2_from label_map _ entries) as [st exception].
  cbn [fst stdout] in Hout. intros [= <- _]. exists ds.
  split; [exact Hout|]. split; [exact Hds|]. unfold count_instructions. lia.
Qed.

Lemma output_is_report_then_diagnostics_witness :
  exists diagnostics,
    ["--- First Pass: Label Map ---"; "------------------------------";
     "Error: Unknown mnemonic 'foo' on line: foo r1"]
    = (label_map_report
         (fst (pass1 (process_lines 0 (Py.split "010" (Py.strip "foo r1")))))
       ++ diagnostics)%list
    /\ Forall diagnostic diagnostics
    /\ Z.of_nat (List.length diagnostics)
       <= count_instructions (process_lines 0 (Py.split "010" (Py.strip "foo r1"))).
Proof.
  exact (output_is_report_then_diagnostics "foo r1"
           ["--- First Pass: Label Map ---"; "------------------------------";
            "Error: Unknown mnemonic 'foo' on line: foo r1"]
           (Returns []) eq_refl).
Defined.

End Diagnostics.

(** ** Register fields of unknown tokens *)

Section RegisterFields.

Variable tok : string.
Hypothesis tok_unknown : dict_get REGISTERS tok = None.

Lemma step_appended (label_map : dict Z) (st : state) (e : entry) (m : string)
  (ops : list string) (word : string) :
  mnemonic e = Some m ->
  encode_instruction label_map (current_address st) m (Some ops) (raw_line e)
  = Normal (Some word) ->
  String.length word = 32%nat ->
  pass2_step label_map st (with_operands e ops) = inl (appended st e word).
Proof.
  intros Hm Henc Hlen.
  exact (pass2_step_word label_map st (with_operands e ops) m word Hm Henc Hlen).
Qed.

Lemma last_operand_register (opcode : string) (pre rest : list string) (x : string)
  (field : string) (l : locals) :
  is_immediate x = false ->
  last_operand opcode (Some (pre ++ x :: rest)%list) (List.length pre) field l
  = Normal {| I_bit := "0"; rd_bin := rd_bin l; rs1_bin := rs1_bin l;
              immediate_val := None;
              assembled_instruction :=
                Some (register_word opcode (rd_bin l) field (register_bits x)) |}.
Proof.
  intros Himm. unfold last_operand. cbn [operands_len operand_at bind].
  rewrite length_app. cbn [List.length].
  replace (List.length pre <? List.length pre + S (List.length rest))%nat with true
    by (symmetry; apply Nat.ltb_lt; lia).
  rewrite nth_error_app2, Nat.sub_diag by lia. cbn [nth_error bind].
  now rewrite Himm.
Qed.

Lemma encode_register (label_map : dict Z) (address : Z) (m : string)
  (ops : list string) (x rd rs1 raw : string) :
  immediate_operands m ops x rd rs1 ->
  is_immediate x = false ->
  exists opcode,
    dict_get OPCODES m = Some opcode
    /\ String.length opcode = 5%nat
    /\ String.length rd = 4%nat /\ String.length rs1 = 4%nat
    /\ encode_instruction label_map address m (Some ops) raw
       = Normal (Some (register_word opcode rd rs1 (register_bits x))).
Proof.
  intros Hops Himm.
  assert (Hclass : immediate_or_register m = true).
  { destruct Hops as [(H & _)|[(H & _)|(H & _)]]; each_mnemonic H ltac:(reflexivity). }
  destruct (encode_instruction_class m Hclass) as (opcode & Hop & Hlen & Henc).
  exists opcode. rewrite Henc. split; [exact Hop|]. split; [exact Hlen|].
  unfold encode_operands.
  destruct Hops as [(H & x0 & x1 & rest & -> & -> & ->)
                   |[(H & x0 & rest & -> & -> & ->)|(H & x0 & rest & -> & -> & ->)]].
  - split; [apply length_register_bits|]. split; [apply length_register_bits|].
    assert (Hd : in_list m compare_mnemonics = false)
      by (each_mnemonic H ltac:(reflexivity)).
    assert (Hd' : in_list m arithmetic_mnemonics = true)
      by (each_mnemonic H ltac:(reflexivity)).
    rewrite Hd, Hd'. unfold operands_arith. cbn [operand_at nth_error bind].
    now rewrite (last_operand_register opcode [x0; x1] rest x _ _ Himm).
  - split; [reflexivity|]. split; [apply length_register_bits|].
    rewrite H. unfold operands_cmp. cbn [operand_at nth_error bind].
    now rewrite (last_operand_register opcode [x0] rest x _ _ Himm).
  - split; [apply length_register_bits|]. split; [reflexivity|].
    assert (Hd1 : in_list m compare_mnemonics = false)
      by (each_mnemonic H ltac:(reflexivity)).
    assert (Hd2 : in_list m arithmetic_mnemonics = false)
      by (each_mnemonic H ltac:(reflexivity)).
    assert (Hd3 : in_list m move_mnemonics = true)
      by (each_mnemonic H ltac:(reflexivity)).
    rewrite Hd1, Hd2, Hd3. unfold operands_mov. cbn [operand_at nth_error bind].
    now rewrite (last_operand_register opcode [x0] rest x _ _ Himm).
Qed.

Lemma length_register_word (opcode rd rs1 rs2 : string) :
  String.length opcode = 5%nat -> String.length rd = 4%nat ->
  String.length rs1 = 4%nat -> String.length rs2 = 4%nat ->
  String.length (register_word opcode rd rs1 rs2) = 32%nat.
Proof.
  intros Hop Hrd Hrs1 Hrs2. unfold register_word.
  rewrite !length_append, length_zeros, Hop, Hrd, Hrs1, Hrs2. reflexivity.
Qed.

Lemma step_register (label_map : dict Z) (st : state) (e : entry) (m opcode : string)
  (ops : list string) (x rd rs1 : string) :
  mnemonic e = Some m -> dict_get OPCODES m = Some opcode ->
  immediate_operands m ops x rd rs1 -> is_immediate x = false ->
  pass2_step label_map st (with_operands e ops)
  = inl (appended st e (register_word opcode rd rs1 (register_bits x))).
Proof.
  intros Hm Hop Hops Himm.
  destruct (encode_register label_map (current_address st) m ops x rd rs1 (raw_line e)
              Hops Himm) as (opcode' & Hop' & Hlen & Hrd & Hrs1 & Henc).
  assert (opcode' = opcode) as -> by congruence.
  apply (step_appended _ _ _ m); [exact Hm | exact Henc|].
  apply length_register_word; try assumption. apply length_register_bits.
Qed.

Lemma step_immediate (label_map : dict Z) (st : state) (e : entry) (m opcode : string)
  (ops : list string) (x rd rs1 : string) (v : Z) :
  mnemonic e = Some m -> dict_get OPCODES m = Some opcode ->
  immediate_operands m ops x rd rs1 ->
  is_immediate x = true -> py_int x = Normal v -> in_domain v 16 true ->
  pass2_step label_map st (with_operands e ops)
  = inl (appended st e (immediate_word_of opcode rd rs1 (modifier_of_suffix m) v)).
Proof.
  intros Hm Hop Hops Himm Hint Hdom.
  destruct (encode_immediate label_map (current_address st) m ops x rd rs1 (raw_line e) v
              Hops Himm Hint) as (opcode' & Hop' & Hlen & Hrd & Hrs1 & _ & Henc).
  assert (opcode' = opcode) as -> by congruence.
  apply (step_appended _ _ _ m); [exact Hm | exact Henc|].
  destruct (to_binary_signed v 16 ltac:(lia) Hdom) as (Hw & _).
  destruct (immediate_word opcode rd rs1 (modifier_of_suffix m) (to_binary v 16 true)
              Hlen Hrd Hrs1 (length_modifier_of_suffix m)) as (_ & Hlength & _).
  unfold immediate_word_of. now rewrite Hlength, Hw.
Qed.

Lemma step_memory (label_map : dict Z) (st : state) (e : entry) (m opcode : string)
  (x0 x1 : string) (rest : list string) (off base : string) (v : Z) :
  mnemonic e = Some m -> dict_get OPCODES m = Some opcode ->
  in_list m memory_mnemonics = true ->
  match_mem_operand x1 = Some (off, base) ->
  offset_value off = Normal v -> in_domain v 16 true ->
  pass2_step label_map st (with_operands e (x0 :: x1 :: rest))
  = inl (appended st e
           (immediate_word_of opcode (register_bits x0) (register_bits base) "00" v)).
Proof.
  intros Hm Hop Hin Hmatch Hoff Hdom.
  destruct (encode_memory_matched label_map (current_address st) m x0 x1 rest
              (raw_line e) off base v Hin Hmatch Hoff) as (opcode' & Hop' & Hlen & Henc).
  assert (opcode' = opcode) as -> by congruence.
  apply (step_appended _ _ _ m); [exact Hm | exact Henc|].
  destruct (to_binary_signed v 16 ltac:(lia) Hdom) as (Hw & _).
  destruct (immediate_word opcode (register_bits x0) (register_bits base) "00"
              (to_binary v 16 true) Hlen (length_register_bits x0)
              (length_register_bits base) eq_refl) as (_ & Hlength & _).
  unfold immediate_word_of. now rewrite Hlength, Hw.
Qed.

(** C10. A token that is not a register name, written where a register
    is expected, is encoded with the code 0000 and nothing is printed
    for it. First, the second loop leaves exactly the state (words,
    messages, address) it leaves when [r0] is written there, whatever
    the rest of the line does. Second, when the rest of the line is
    complete (a register or a literal in the signed 16-bit range as
    last operand, a memory operand with such an offset), the loop
    appends a word that has 0000 in the field of the token, advances the
    address and prints nothing. This holds for the destination and both
    sources of the arithmetic mnemonics, both operands of the compare
    mnemonics, the destination and the source of the move mnemonics,
    and the register and the base of [ld] and [st]; in the last operand
    of the first three the token must not read as an immediate. *)
Theorem unknown_register_encoded_as_r0 (label_map : dict Z) (st : state)
  (e : entry) (m : string) :
  mnemonic e = Some m ->
  let step ops := pass2_step label_map st (with_operands e ops) in
  let r := register_bits in
  let modifier := modifier_of_suffix m in
  (register_bits tok = "0000"
   /\ register_bits "r0" = "0000"
   /\ (in_list m arithmetic_mnemonics = true ->
       (forall rest, step (tok :: rest) = step ("r0" :: rest))
       /\ (forall x0 rest, step (x0 :: tok :: rest) = step (x0 :: "r0" :: rest))
       /\ (is_immediate tok = false ->
           forall x0 x1 rest,
             step (x0 :: x1 :: tok :: rest) = step (x0 :: x1 :: "r0" :: rest)))
   /\ (in_list m compare_mnemonics = true ->
       (forall rest, step (tok :: rest) = step ("r0" :: rest))
       /\ (is_immediate tok = false ->
           forall x0 rest, step (x0 :: tok :: rest) = step (x0 :: "r0" :: rest)))
   /\ (in_list m move_mnemonics = true ->
       (forall rest, step (tok :: rest) = step ("r0" :: rest))
       /\ (is_immediate tok = false ->
           forall x0 rest, step (x0 :: tok :: rest) = step (x0 :: "r0" :: rest)))
   /\ (in_list m memory_mnemonics = true ->
       (forall rest, step (tok :: rest) = step ("r0" :: rest))
       /\ (forall x0 x1 off rest,
             match_mem_operand x1 = Some (off, tok) ->
             step (x0 :: x1 :: rest) = step (x0 :: (off ++ "[r0]") :: rest))))
  /\ forall opcode, dict_get OPCODES m = Some opcode ->
     (in_list m arithmetic_mnemonics = true ->
      (forall x1 x2 rest, is_immediate x2 = false ->
         step (tok :: x1 :: x2 :: rest)
         = inl (appended st e (register_word opcode "0000" (r x1) (r x2))))
      /\ (forall x0 x2 rest, is_immediate x2 = false ->
           step (x0 :: tok :: x2 :: rest)
           = inl (appended st e (register_word opcode (r x0) "0000" (r x2))))
      /\ (is_immediate tok = false -> forall x0 x1 rest,
           step (x0 :: x1 :: tok :: rest)
           = inl (appended st e (register_word opcode (r x0) (r x1) "0000")))
      /\ (forall x1 x2 v rest,
           is_immediate x2 = true -> py_int x2 = Normal v -> in_domain v 16 true ->
           step (tok :: x1 :: x2 :: rest)
           = inl (appended st e (immediate_word_of opcode "0000" (r x1) modifier v)))
      /\ (forall x0 x2 v rest,
           is_immediate x2 = true -> py_int x2 = Normal v -> in_domain v 16 true ->
           step (x0 :: tok :: x2 :: rest)
           = inl (appended st e (immediate_word_of opcode (r x0) "0000" modifier v))))
     /\ (in_list m compare_mnemonics = true ->
         (forall x1 rest, is_immediate x1 = false ->
            step (tok :: x1 :: rest)
            = inl (appended st e (register_word opcode "0000" "0000" (r x1))))
         /\ (is_immediate tok = false -> forall x0 rest,
              step (x0 :: tok :: rest)
              = inl (appended st e (register_word opcode "0000" (r x0) "0000")))
         /\ (forall x1 v rest,
              is_immediate x1 = true -> py_int x1 = Normal v -> in_domain v 16 true ->
              step (tok :: x1 :: rest)
              = inl (appended st e (immediate_word_of opcode "0000" "0000" modifier v))))
     /\ (in_list m move_mnemonics = true ->
         (forall x1 rest, is_immediate x1 = false ->
            step (tok :: x1 :: rest)
            = inl (appended st e (register_word opcode "0000" "0000" (r x1))))
         /\ (is_immediate tok = false -> forall x0 rest,
              step (x0 :: tok :: rest)
              = inl (appended st e (register_word opcode (r x0) "0000" "0000")))
         /\ (forall x1 v rest,
              is_immediate x1 = true -> py_int x1 = Normal v -> in_domain v 16 true ->
              step (tok :: x1 :: rest)
              = inl (appended st e (immediate_word_of opcode "0000" "0000" modifier v))))
     /\ (in_list m memory_mnemonics = true ->
         (forall x1 off base v rest,
            match_mem_operand x1 = Some (off, base) ->
            offset_value off = Normal v -> in_domain v 16 true ->
            step (tok :: x1 :: rest)
            = inl (appended st e (immediate_word_of opcode "0000" (r base) "00" v)))
         /\ (forall x0 x1 off v rest,
              match_mem_operand x1 = Some (off, tok) ->
              offset_value off = Normal v -> in_domain v 16 true ->
              step (x0 :: x1 :: rest)
              = inl (appended st e (immediate_word_of opcode (r x0) "0000" "00" v)))).
Proof.
  intros Hm step r modifier.
  pose proof (register_bits_unknown tok tok_unknown) as Htok.
  split; [exact (unknown_register_like_r0 tok tok_unknown label_map st e m Hm)|].
  intros opcode Hop. subst step r modifier. cbv beta.
  split; [|split; [|split]]; intros Hin.
  - split; [|split; [|split; [|split]]].
    + intros x1 x2 rest Himm. rewrite <- Htok at 1.
      apply (step_register _ _ _ m); try assumption.
      left. split; [exact Hin|]. now exists tok, x1, rest.
    + intros x0 x2 rest Himm. rewrite <- Htok at 1.
      apply (step_register _ _ _ m); try assumption.
      left. split; [exact Hin|]. now exists x0, tok, rest.
    + intros Himm x0 x1 rest. rewrite <- Htok at 1.
      apply (step_register _ _ _ m); try assumption.
      left. split; [exact Hin|]. now exists x0, x1, rest.
    + intros x1 x2 v rest Himm Hint Hdom. rewrite <- Htok at 1.
      apply (step_immediate _ _ _ m _ _ x2); try assumption.
      left. split; [exact Hin|]. now exists tok, x1, rest.
    + intros x0 x2 v rest Himm Hint Hdom. rewrite <- Htok at 1.
      apply (step_immediate _ _ _ m _ _ x2); try assumption.
      left. split; [exact Hin|]. now exists x0, tok, rest.
  - split; [|split].
    + intros x1 rest Himm. rewrite <- Htok at 2.
      apply (step_register _ _ _ m); try assumption.
      right. left. split; [exact Hin|]. now exists tok, rest.
    + intros Himm x0 rest. rewrite <- Htok at 2.
      apply (step_register _ _ _ m); try assumption.
      right. left. split; [exact Hin|]. now exists x0, rest.
    + intros x1 v rest Himm Hint Hdom. rewrite <- Htok at 2.
      apply (step_immediate _ _ _ m _ _ x1); try assumption.
      right. left. split; [exact Hin|]. now exists tok, rest.
  - split; [|split].
    + intros x1 rest Himm. rewrite <- Htok at 1.
      apply (step_register _ _ _ m); try assumption.
      right. right. split; [exact Hin|]. now exists tok, rest.
    + intros Himm x0 rest. rewrite <- Htok at 2.
      apply (step_register _ _ _ m); try assumption.
      right. right. split; [exact Hin|]. now exists x0, rest.
    + intros x1 v rest Himm Hint Hdom. rewrite <- Htok at 1.
      apply (step_immediate _ _ _ m _ _ x1); try assumption.
      right. right. split; [exact Hin|]. now exists tok, rest.
  - split.
    + intros x1 off base v rest Hmatch Hoff Hdom. rewrite <- Htok.
      now apply (step_memory _ _ _ m _ _ _ _ off).
    + intros x0 x1 off v rest Hmatch Hoff Hdom. rewrite <- Htok.
      now apply (step_memory _ _ _ m _ _ _ _ off).
Qed.

End RegisterFields.

Lemma unknown_register_encoded_as_r0_witness :
  let line mnemonic raw :=
    {| line_num := 0; label := None; mnemonic := Some mnemonic;
       operands := Some []; raw_line := raw |} in
  let word raw bits :=
    inl {| machine_code := [(0%nat, raw, Some bits)]; current_address := 1;
           stdout := [] |} in
  dict_get REGISTERS "rx" = None
  /\ pass2_step [] (initial [])
       (with_operands (line "add" "add rx, r1, r2") ["rx"; "r1"; "r2"])
     = word "add rx, r1, r2" "00000000000001001000000000000000"
  /\ pass2_step [] (initial [])
       (with_operands (line "cmp" "cmp r1, rx") ["r1"; "rx"])
     = word "cmp r1, rx" "00101000000001000000000000000000"
  /\ pass2_step [] (initial [])
       (with_operands (line "mov" "mov rx, 5") ["rx"; "5"])
     = word "mov rx, 5" "01001100000000000000000000000101"
  /\ pass2_step [] (initial [])
       (with_operands (line "ld" "ld rx, 4[sp]") ["rx"; "4[sp]"])
     = word "ld rx, 4[sp]" "01110100001110000000000000000100"
  /\ pass2_step [] (initial [])
       (with_operands (line "st" "st r1, 4[rx]") ["r1"; "4[rx]"])
     = word "st r1, 4[rx]" "01111100010000000000000000000100".
Proof.
  intros line word.
  assert (Htok : dict_get REGISTERS "rx" = None) by reflexivity.
  assert (Hfour : in_domain 4 16 true) by (unfold in_domain; simpl; lia).
  assert (Hfive : in_domain 5 16 true) by (unfold in_domain; simpl; lia).
  split; [exact Htok|]. split; [|split; [|split; [|split]]].
  - destruct (unknown_register_encoded_as_r0 "rx" Htok [] (initial [])
                (line "add" "add rx, r1, r2") "add" eq_refl) as (_ & Hword).
    destruct (Hword "00000" eq_refl) as (Harith & _).
    destruct (Harith eq_refl) as (Hrd & _).
    exact (Hrd "r1" "r2" [] eq_refl).
  - destruct (unknown_register_encoded_as_r0 "rx" Htok [] (initial [])
                (line "cmp" "cmp r1, rx") "cmp" eq_refl) as (_ & Hword).
    destruct (Hword "00101" eq_refl) as (_ & Hcmp & _).
    destruct (Hcmp eq_refl) as (_ & Hrs2 & _).
    exact (Hrs2 eq_refl "r1" []).
  - destruct (unknown_register_encoded_as_r0 "rx" Htok [] (initial [])
                (line "mov" "mov rx, 5") "mov" eq_refl) as (_ & Hword).
    destruct (Hword "01001" eq_refl) as (_ & _ & Hmov & _).
    destruct (Hmov eq_refl) as (_ & _ & Himm).
    exact (Himm "5" 5 [] eq_refl eq_refl Hfive).
  - destruct (unknown_register_encoded_as_r0 "rx" Htok [] (initial [])
                (line "ld" "ld rx, 4[sp]") "ld" eq_refl) as (_ & Hword).
    destruct (Hword "01110" eq_refl) as (_ & _ & _ & Hmem).
    destruct (Hmem eq_refl) as (Hreg & _).
    exact (Hreg "4[sp]" "4" "sp" 4 [] eq_refl eq_refl Hfour).
  - destruct (unknown_register_encoded_as_r0 "rx" Htok [] (initial [])
                (line "st" "st r1, 4[rx]") "st" eq_refl) as (_ & Hword).
    destruct (Hword "01111" eq_refl) as (_ & _ & _ & Hmem).
    destruct (Hmem eq_refl) as (_ & Hbase).
    exact (Hbase "r1" "4[rx]" "4" 4 [] eq_refl eq_refl Hfour).
Defined.
